(** * The training driver of BakedAvatar (code/scripts/training.py)

    A shallow embedding of [training_loop] and of its local function
    [replace_optimizable_inputs], with the properties of the running-average
    windows, the input substitution, checkpoint save and resume, the
    evaluation aggregation and the iteration counter.

    Conventions.
    - Python integers are [Z]; [%] on integers is [Z.modulo] (the sign
      follows the divisor, as in Python) and raises on a zero divisor.
    - Loss values are Python floats in the source. They are modelled as exact
      rationals [Q]: the script only copies, sums and divides them, and
      rounding is not modelled. [nan] is a value of its own.
    - Python dicts are [gmap string _]; exceptions are values of [exn] and a
      computation that may raise has type [result _].
    - The model, the loss, the optimizers, the schedulers and the
      [accelerate] backend are collaborators outside this file: they are
      parameters of the sections that need them. *)

From Stdlib Require Import ZArith QArith Lia Ascii.
From stdpp Require Import base option list gmap strings pretty.

Close Scope Q_scope.
Open Scope Z_scope.

(** ** Exceptions and the error monad *)

Inductive exn :=
| FileNotFoundError (dir name : string)
| UnpicklingError
| KeyError (key : string)
| TypeError
| ValueError
| RuntimeError
| IndexError
| ZeroDivisionError
| UnboundLocalError (name : string).

Inductive result (A : Type) :=
| Ret (a : A)
| Raise (e : exn).
Arguments Ret {A} a.
Arguments Raise {A} e.

#[global] Instance result_ret : MRet result := @Ret.
#[global] Instance result_bind : MBind result := λ A B f m,
  match m with
  | Ret a => f a
  | Raise e => Raise e
  end.

(** [d[key]] on a dict. *)
Definition getitem {V} (d : gmap string V) (key : string) : result V :=
  match d !! key with
  | Some v => Ret v
  | None => Raise (KeyError key)
  end.

(** A [for] loop whose body may raise. *)
Fixpoint for_each {A S} (body : S → A → result S) (s : S) (l : list A) : result S :=
  match l with
  | [] => Ret s
  | x :: l' => s' ← body s x; for_each body s' l'
  end.

(** Python floats as far as the script observes them. *)
Inductive pyfloat :=
| Num (q : Q)
| NaN.


(** ** The configuration: the arguments of [training_loop] that the
    modelled code reads *)

Record config := Config {
  rundir : string;
  load_from : option string;
  load_iteration : option Z;
  batch_size : Z;
  optimize_latent : bool;
  optimize_expression : bool;
  optimize_pose : bool;
  optimize_camera : bool;
  iterations : Z;
  log_it : Z;
  show_it : Z;
  save_it : Z;
  eval_it : Z;
  avg_loss_it : Z
}.

(** Line 133. *)
Definition optimize_inputs (cfg : config) : bool :=
  optimize_latent cfg || optimize_expression cfg || optimize_pose cfg
  || optimize_camera cfg.


(** ** Substitution of the optimizable inputs (training.py, lines 230-243) *)

Module Inputs.

(** Tensors, by the ranks that occur in a batch: the frame ids [[B]], the
    per-frame vectors [[B, D]] and the extrinsics [[B, 4, 4]]. *)
Inductive tensor :=
| TLong (v : list Z)
| TMat (v : list (list Q))
| TCube (v : list (list (list Q))).

(** [inputs] and [targets] are dicts of references to tensor objects: two
    keys may name one object, and an in-place write to the object is seen
    through both. *)
Record store := Store {
  heap : gmap positive tensor;
  inputs : gmap string positive;
  targets : gmap string positive
}.

(** Computations on the store that may raise. *)
Definition M (A : Type) : Type := store → result (A * store).

#[global] Instance M_ret : MRet M := λ A a σ, Ret (a, σ).
#[global] Instance M_bind : MBind M := λ A B f m σ,
  match m σ with
  | Ret (a, σ') => f a σ'
  | Raise e => Raise e
  end.

Definition lift {A} (r : result A) : M A := λ σ,
  match r with
  | Ret a => Ret (a, σ)
  | Raise e => Raise e
  end.

Definition raise {A} (e : exn) : M A := λ _, Raise e.

(** [inputs[key]] *)
Definition get_input (key : string) : M positive := λ σ,
  lift (getitem (inputs σ) key) σ.

(** [inputs[key] = l] *)
Definition set_input (key : string) (l : positive) : M unit := λ σ,
  Ret ((), Store (heap σ) (<[key := l]> (inputs σ)) (targets σ)).

(** [targets[key] = l] *)
Definition set_target (key : string) (l : positive) : M unit := λ σ,
  Ret ((), Store (heap σ) (inputs σ) (<[key := l]> (targets σ))).

(** A new tensor object. *)
Definition alloc (t : tensor) : M positive := λ σ,
  let l := fresh (dom (heap σ)) in
  Ret (l, Store (<[l := t]> (heap σ)) (inputs σ) (targets σ)).

Definition deref (l : positive) : M tensor := λ σ,
  match heap σ !! l with
  | Some t => Ret (t, σ)
  | None => Raise RuntimeError
  end.

(** An in-place write to the object at [l]. *)
Definition assign (l : positive) (t : tensor) : M unit := λ σ,
  Ret ((), Store (<[l := t]> (heap σ)) (inputs σ) (targets σ)).

(** [if fixed_id]: [None] and [0] are false. *)
Definition truthy (fixed_id : option Z) : bool :=
  match fixed_id with
  | Some z => negb (z =? 0)
  | None => false
  end.

Definition full_row (z : Z) (row : list Q) : list Q :=
  replicate (length row) (inject_Z z).

Definition full_mat (z : Z) (m : list (list Q)) : list (list Q) :=
  full_row z <$> m.

Definition full_cube (z : Z) (c : list (list (list Q))) : list (list (list Q)) :=
  full_mat z <$> c.

(** [torch.full_like(t, z)]: a new tensor of the shape of [t], filled with [z]. *)
Definition full_like (t : tensor) (z : Z) : tensor :=
  match t with
  | TLong v => TLong (replicate (length v) z)
  | TMat v => TMat (full_mat z v)
  | TCube v => TCube (full_cube z v)
  end.

(** Row [i] of an embedding table; an index out of range raises. *)
Definition embedding_row (weight : list (list Q)) (i : Z) : result (list Q) :=
  if i <? 0 then Raise IndexError
  else match weight !! Z.to_nat i with
       | Some row => Ret row
       | None => Raise IndexError
       end.

(** [nn.Embedding.forward]: the rows of the table at the given ids, as a
    new tensor. *)
Definition embedding (weight : list (list Q)) (ids : positive) : M positive :=
  t ← deref ids;
  match t with
  | TLong v => rows ← lift (mapM (embedding_row weight) v); alloc (TMat rows)
  | _ => raise RuntimeError
  end.

(** Broadcasting of a dimension of size 1. *)
Definition broadcast {A} (n : nat) (l : list A) : result (list A) :=
  if decide (length l = n) then Ret l
  else match l with
       | [x] => Ret (replicate n x)
       | _ => Raise RuntimeError
       end.

(** [m[:3, 3] = t] on one matrix: column 3 of the first three rows. *)
Definition set_translation (m : list (list Q)) (t : list Q)
    : result (list (list Q)) :=
  if forallb (λ row, 3 <? length row)%nat (take 3 m) then
    t ← broadcast (length (take 3 m)) t;
    Ret (imap (λ i row, match t !! i with
                        | Some v => <[3%nat := v]> row
                        | None => row
                        end) m)
  else Raise IndexError.

(** [c[:, :3, 3] = s] *)
Definition setitem_translation (c : list (list (list Q))) (s : list (list Q))
    : result (list (list (list Q))) :=
  s ← broadcast (length c) s;
  mapM (λ mt : list (list Q) * list Q, set_translation mt.1 mt.2) (zip c s).

Section replace.

Variable cfg : config.
(** [input_params]: the embedding tables by name. *)
Variable input_params : gmap string (list (list Q)).

(** Line 232. *)
Definition select_ids (fixed_id : option Z) : M positive :=
  if truthy fixed_id then
    id ← get_input "id"; t ← deref id; alloc (full_like t (default 0 fixed_id))
  else get_input "id".

(** Lines 230-243. *)
Definition replace_optimizable_inputs (fixed_id : option Z) : M unit :=
  ids ← select_ids fixed_id;
  _ ← (if optimize_latent cfg then
         weight ← lift (getitem input_params "frame_latent");
         v ← embedding weight ids;
         set_input "frame_latent" v
       else mret ());
  _ ← (if optimize_expression cfg then
         old ← get_input "expression";
         _ ← set_target "expression" old;
         weight ← lift (getitem input_params "expression");
         v ← embedding weight ids;
         set_input "expression" v
       else mret ());
  _ ← (if optimize_pose cfg then
         old ← get_input "pose";
         _ ← set_target "pose" old;
         weight ← lift (getitem input_params "pose");
         v ← embedding weight ids;
         set_input "pose" v
       else mret ());
  if optimize_camera cfg then
    old ← get_input "extrinsic";
    _ ← set_target "extrinsic" old;
    weight ← lift (getitem input_params "cam_trans");
    v ← embedding weight ids;
    dst ← get_input "extrinsic";
    s ← deref v;
    c ← deref dst;
    match c, s with
    | TCube c, TMat s => c' ← lift (setitem_translation c s); assign dst (TCube c')
    | _, _ => raise RuntimeError
    end
  else mret ().

End replace.

(** What a dict of references denotes. *)
Definition value_of (σ : store) (d : gmap string positive) (key : string)
    : option tensor :=
  l ← d !! key; heap σ !! l.

(** Entry [[b, i, j]] of a rank-3 tensor. *)
Definition entry (c : list (list (list Q))) (b i j : nat) : option Q :=
  m ← c !! b; row ← m !! i; row !! j.

(** A step that leaves the two dicts alone and only adds objects. *)
Definition allocates (σ σ' : store) : Prop :=
  heap σ ⊆ heap σ' ∧ inputs σ' = inputs σ ∧ targets σ' = targets σ.

(** A step that adds objects and rebinds at most the keys [ins] of
    [inputs] and [tgs] of [targets]. *)
Definition frame (ins tgs : list string) (σ σ' : store) : Prop :=
  heap σ ⊆ heap σ'
  ∧ (∀ k, k ∉ ins → inputs σ' !! k = inputs σ !! k)
  ∧ (∀ k, k ∉ tgs → targets σ' !! k = targets σ !! k).

(** *** A batch of two frames, used in the examples below

    Frames 1 and 2 of a dataset of three frames. The tracked (dataset)
    extrinsics are the identity rotation with the translations
    [(1/2, 0, 3)] and [(0, 1/4, 3)]; the learned tables hold other values. *)

Definition extrinsic_of (tx ty tz : Q) : list (list Q) :=
  [[1; 0; 0; tx]; [0; 1; 0; ty]; [0; 0; 1; tz]; [0; 0; 0; 1]]%Q.

Definition dataset_extrinsic : list (list (list Q)) :=
  [extrinsic_of (1#2) 0 3; extrinsic_of 0 (1#4) 3]%Q.

Definition dataset_expression : list (list Q) := [[5; 6]; [7; 8]]%Q.

Definition batch0 : store :=
  Store (<[1%positive := TLong [1; 2]]>
           (<[2%positive := TCube dataset_extrinsic]>
              (<[3%positive := TMat dataset_expression]> ∅)))
        (<["id" := 1%positive]>
           (<["extrinsic" := 2%positive]>
              (<["expression" := 3%positive]> ∅)))
        ∅.

Definition input_params0 : gmap string (list (list Q)) :=
  <["frame_latent" := [[10]; [11]; [12]]%Q]>
    (<["expression" := [[20; 20]; [21; 21]; [22; 22]]%Q]>
       (<["cam_trans" := [[1; 2; 3]; [4; 5; 6]; [7; 8; 9]]%Q]> ∅)).

Definition cfg_flags (latent expression pose camera : bool) : config :=
  Config "run" None None 2 latent expression pose camera 10 1 1 5 5 3.

End Inputs.


(** ** The substitution, phase by phase *)

Module Substitution.

Import Inputs.

Section phases.

Variable cfg : config.
Variable input_params : gmap string (list (list Q)).
Variable ids : positive.

(** Lines 233-234. *)
Definition latent_phase : M unit :=
  if optimize_latent cfg then
    weight ← lift (getitem input_params "frame_latent");
    v ← embedding weight ids;
    set_input "frame_latent" v
  else mret ().

(** Lines 236-237 and 239-240, for the key [expression] or [pose]. *)
Definition supervised_phase (flag : bool) (key : string) : M unit :=
  if flag then
    old ← get_input key;
    _ ← set_target key old;
    weight ← lift (getitem input_params key);
    v ← embedding weight ids;
    set_input key v
  else mret ().

(** Lines 241-243. *)
Definition camera_phase : M unit :=
  if optimize_camera cfg then
    old ← get_input "extrinsic";
    _ ← set_target "extrinsic" old;
    weight ← lift (getitem input_params "cam_trans");
    v ← embedding weight ids;
    dst ← get_input "extrinsic";
    s ← deref v;
    c ← deref dst;
    match c, s with
    | TCube c, TMat s => c' ← lift (setitem_translation c s); assign dst (TCube c')
    | _, _ => raise RuntimeError
    end
  else mret ().

End phases.

(** The ids that line 232 selects, from the ids of the batch. *)
Definition selected_ids (fixed_id : option Z) (batch_ids : list Z) : list Z :=
  if truthy fixed_id then replicate (length batch_ids) (default 0 fixed_id)
  else batch_ids.

(** [rows] are the rows of the table [weight] at the ids [idv]. *)
Definition rows_at (weight : list (list Q)) (idv : list Z) (rows : list (list Q)) : Prop :=
  Forall2 (λ (i : Z) (row : list Q), 0 ≤ i ∧ weight !! Z.to_nat i = Some row) idv rows.

(** Every reference of [inputs] names an object. *)
Definition refs_allocated (σ : store) : Prop :=
  ∀ key l, inputs σ !! key = Some l → is_Some (heap σ !! l).

(** The flag that enables the substitution under a key of [inputs]. *)
Definition flag_of (cfg : config) (key : string) : bool :=
  if bool_decide (key = "frame_latent") then optimize_latent cfg
  else if bool_decide (key = "expression") then optimize_expression cfg
  else if bool_decide (key = "pose") then optimize_pose cfg
  else false.

(** A batch of two frames with tracked poses, and tables for all four
    inputs. *)
Definition batch1 : store :=
  Store (<[1%positive := TLong [2; 0]]>
           (<[2%positive := TCube dataset_extrinsic]>
              (<[3%positive := TMat dataset_expression]>
                 (<[4%positive := TMat [[1; 1; 1]; [2; 2; 2]]%Q]> ∅))))
        (<["id" := 1%positive]>
           (<["extrinsic" := 2%positive]>
              (<["expression" := 3%positive]>
                 (<["pose" := 4%positive]> ∅))))
        ∅.

Definition input_params1 : gmap string (list (list Q)) :=
  <["pose" := [[30; 30; 30]; [31; 31; 31]; [32; 32; 32]]%Q]> input_params0.

End Substitution.

(** ** The tables of the optimizable inputs (training.py, lines 133-157) *)

Module Init.

Import Inputs.

(** The ways in which lines 134-157 fail. ([exn] has no assertion
    failure, so the failures of this part have a type of their own.) *)
Inductive init_error :=
| NegativeSize   (** [torch.zeros] with a negative size: [RuntimeError] *)
| RowsDiffer     (** [torch.cat] along axis 1 on different row counts: [RuntimeError] *)
| WeightShape    (** [nn.Embedding]: the assertion on the shape of [_weight] *)
| NoColumn.      (** index 3 on an axis of size at most 3: [IndexError] *)

Inductive built (A : Type) :=
| Built (a : A)
| Failed (e : init_error).
Arguments Built {A} a.
Arguments Failed {A} e.

#[global] Instance built_ret : MRet built := λ A a, Built a.
#[global] Instance built_bind : MBind built := λ A B f m,
  match m with
  | Built a => f a
  | Failed e => Failed e
  end.

(** A matrix is the list of its rows; the width of a matrix without rows
    is not represented. *)

(** [torch.zeros(rows, cols)] *)
Definition zeros (rows : nat) (cols : Z) : built (list (list Q)) :=
  if cols <? 0 then Failed NegativeSize
  else Built (replicate rows (replicate (Z.to_nat cols) 0%Q)).

(** [torch.cat([a, b], 1)] *)
Definition cat_columns (a b : list (list Q)) : built (list (list Q)) :=
  if decide (length a = length b) then Built (zip_with app a b)
  else Failed RowsDiffer.

(** [list(_weight.shape) == [num, dim]] *)
Definition has_shape (num : nat) (dim : Z) (weight : list (list Q)) : bool :=
  bool_decide (length weight = num)
  && forallb (λ row : list Q, Z.of_nat (length row) =? dim) weight.

(** [nn.Embedding(num, dim, _weight=weight)]: the table is [weight]. *)
Definition embedding_from (num : nat) (dim : Z) (weight : list (list Q))
    : built (list (list Q)) :=
  if has_shape num dim weight then Built weight else Failed WeightShape.

(** [m[:3, 3]] on one matrix. *)
Definition translation_of (m : list (list Q)) : built (list Q) :=
  mapM (λ row : list Q,
          match row !! 3%nat with
          | Some v => Built v
          | None => Failed NoColumn
          end) (take 3 m).

(** [init_extrinsic[:, :3, 3]] *)
Definition translations (init_extrinsic : list (list (list Q)))
    : built (list (list Q)) :=
  mapM translation_of init_extrinsic.

Section build.

Variable cfg : config.
(** [len(train_dataset)] and [model_args["dim_expression"]]. *)
Variable num_training_frames : nat.
Variable dim_expression : Z.
(** The table that lines 138-139 make: the uniform draw is a parameter. *)
Variable frame_latent : list (list Q).
(** The tracked parameters of the training set: [get_expression_params],
    [get_pose_params] and [get_extrinsic_params]. *)
Variable init_exp init_pose : list (list Q).
Variable init_extrinsic : list (list (list Q)).

(** Lines 133-157: the tables of [input_params] by name. Without any
    flag nothing is built. *)
Definition build_input_params : built (gmap string (list (list Q))) :=
  if optimize_inputs cfg then
    let input_params : gmap string (list (list Q)) := ∅ in
    input_params ←
      (if optimize_latent cfg
       then Built (<["frame_latent" := frame_latent]> input_params)
       else Built input_params);
    input_params ←
      (if optimize_expression cfg then
         z ← zeros (length init_exp) (dim_expression - 50);
         init_exp ← cat_columns init_exp z;
         expression ← embedding_from num_training_frames dim_expression init_exp;
         Built (<["expression" := expression]> input_params)
       else Built input_params);
    input_params ←
      (if optimize_pose cfg then
         pose ← embedding_from num_training_frames 15 init_pose;
         Built (<["pose" := pose]> input_params)
       else Built input_params);
    if optimize_camera cfg then
      t ← translations init_extrinsic;
      cam_trans ← embedding_from num_training_frames 3 t;
      Built (<["cam_trans" := cam_trans]> input_params)
    else Built input_params
  else Built ∅.

End build.

(** A tracked expression row padded to [dim_expression] entries. *)
Definition padded (dim_expression : Z) (row : list Q) : list Q :=
  row ++ replicate (Z.to_nat (dim_expression - 50)) 0%Q.

(** The translation column of a matrix with at least three rows. *)
Definition column3 (m : list (list Q)) : option (list Q) :=
  mapM (λ row : list Q, row !! 3%nat) (take 3 m).

(** The tracked parameters of the training set are well shaped:
    [[N, 50]], [[N, 15]] and [N] matrices with at least three rows and
    four columns. *)
Definition tracked_ok (num_training_frames : nat)
    (init_exp init_pose : list (list Q)) (init_extrinsic : list (list (list Q)))
    : Prop :=
  length init_exp = num_training_frames
  ∧ Forall (λ row : list Q, length row = 50%nat) init_exp
  ∧ length init_pose = num_training_frames
  ∧ Forall (λ row : list Q, length row = 15%nat) init_pose
  ∧ length init_extrinsic = num_training_frames
  ∧ Forall (λ m : list (list Q),
              (3 ≤ length m)%nat
              ∧ Forall (λ row : list Q, (3 < length row)%nat) m) init_extrinsic.

(** A training set of two frames, and a batch that holds frame 1 and then
    frame 0. *)
Definition tracked_expression : list (list Q) :=
  [replicate 50 1%Q; replicate 50 2%Q].

Definition tracked_pose : list (list Q) :=
  [replicate 15 3%Q; replicate 15 4%Q].

Definition drawn_latent : list (list Q) := [[1 # 2]; [1 # 3]]%Q.

Definition batch_init : store :=
  Store (<[1%positive := TLong [1; 0]]>
           (<[2%positive := TCube [extrinsic_of 0 (1#4) 3; extrinsic_of (1#2) 0 3]%Q]> ∅))
        (<["id" := 1%positive]> (<["extrinsic" := 2%positive]> ∅))
        ∅.

End Init.

(** ** The running-average windows (training.py, lines 304-311) *)

Module Window.

(** [collections.deque(maxlen=...)]. *)
Record deque := Deque { maxlen : Z; items : list Q }.

(** [deque(maxlen=n)]: a negative [maxlen] raises [ValueError]. *)
Definition deque_new (n : Z) : result deque :=
  if n <? 0 then Raise ValueError else Ret (Deque n []).

(** [d.append(v)]: the value goes to the right end; when the deque is
    then longer than [maxlen], the leftmost item is discarded. *)
Definition append (d : deque) (v : Q) : deque :=
  let items' := items d ++ [v] in
  Deque (maxlen d)
        (if maxlen d <? Z.of_nat (length items') then tail items' else items').

Definition Qsum (l : list Q) : Q := foldr Qplus 0%Q l.

(** [np.mean] of a sequence; of the empty sequence it is [nan]. *)
Definition np_mean (l : list Q) : pyfloat :=
  match l with
  | [] => NaN
  | _ => Num (Qsum l / inject_Z (Z.of_nat (length l)))
  end.

(** Lines 307-309, the body of the first loop. *)
Definition push_term (avg_loss_it : Z) (avg_loss_dict : gmap string deque)
    (kv : string * Q) : result (gmap string deque) :=
  let '(key, value) := kv in
  avg_loss_dict ←
    (if decide (avg_loss_dict !! key = None)
     then d ← deque_new avg_loss_it; Ret (<[key := d]> avg_loss_dict)
     else Ret avg_loss_dict);
  d ← getitem avg_loss_dict key;
  Ret (<[key := append d value]> avg_loss_dict).

(** Line 311, the body of the second loop. *)
Definition smooth_term (loss_dict : gmap string pyfloat) (kd : string * deque)
    : gmap string pyfloat :=
  <[kd.1 := np_mean (items kd.2)]> loss_dict.

(** Lines 306-311. [loss_dict] holds the gathered terms of this step
    (what [value.item()] gives); the result is the updated
    [avg_loss_dict] and the [loss_dict] that is logged. A dict is
    traversed in the order of [map_to_list]; the result does not depend
    on the order. *)
Definition update_running_average (avg_loss_it : Z)
    (avg_loss_dict : gmap string deque) (loss_dict : gmap string Q)
    : result (gmap string deque * gmap string pyfloat) :=
  avg_loss_dict ← for_each (push_term avg_loss_it) avg_loss_dict (map_to_list loss_dict);
  Ret (avg_loss_dict,
       foldl smooth_term (Num <$> loss_dict) (map_to_list avg_loss_dict)).

(** The windows after a run of steps, from the empty [avg_loss_dict] of
    line 275, with the [loss_dict] reported by the last step. *)
Fixpoint feed (avg_loss_it : Z) (avg_loss_dict : gmap string deque)
    (last : gmap string pyfloat) (steps : list (gmap string Q))
    : result (gmap string deque * gmap string pyfloat) :=
  match steps with
  | [] => Ret (avg_loss_dict, last)
  | loss_dict :: steps' =>
      '(avg_loss_dict, last) ← update_running_average avg_loss_it avg_loss_dict loss_dict;
      feed avg_loss_it avg_loss_dict last steps'
  end.

(** The values of term [key] in a run of steps, oldest first. *)
Definition pushed (key : string) (steps : list (gmap string Q)) : list Q :=
  omap (λ loss_dict : gmap string Q, loss_dict !! key) steps.

(** The last [n] elements of a list. *)
Definition lastn {A} (n : nat) (l : list A) : list A := drop (length l - n) l.

(** What the first loop leaves in [avg_loss_dict]. *)
Definition push_spec (C : Z) (old : option deque)
    (new : option Q) : option deque :=
  match new with
  | Some v => Some (append (default (Deque C []) old) v)
  | None => old
  end.

(** The windows hold, for every term, the last [C] values pushed so far. *)
Definition windows_of (C : Z) (steps : list (gmap string Q))
    (avg : gmap string deque) : Prop :=
  ∀ k, avg !! k =
       match pushed k steps with
       | [] => None
       | vs => Some (Deque C (lastn (Z.to_nat C) vs))
       end.

End Window.


(** ** The evaluation pass (training.py, lines 372-394) *)

Module Eval.

Import Window.

(** Modelled from the spec: [add_dict_to] of [utils.training_util], which
    is not among the sources; the loss terms of a batch are
    "accumulate[d] into a running sum". *)
Definition add_dict_to (val_loss_dict loss_dict : gmap string Q) : gmap string Q :=
  union_with (λ total value, Some (total + value)%Q) val_loss_dict loss_dict.

(** Lines 372-381 on one worker: the sums of the terms over the batches of
    the worker's shard, and the number of batches. *)
Definition validate_worker (batches : list (gmap string Q)) : gmap string Q * Z :=
  foldl (λ acc loss_dict, (add_dict_to acc.1 loss_dict, acc.2 + 1))
        (∅, 0) batches.

(** Line 387: the count joins the dict under the key [num_batches]. *)
Definition with_num_batches (report : gmap string Q * Z) : gmap string Q :=
  <["num_batches" := inject_Z report.2]> report.1.

(** [accel.gather] on the dicts of the workers, in rank order: under every
    key, the values of all workers. The workers must hold the same keys. *)
Definition gather (dicts : list (gmap string Q)) : result (gmap string (list Q)) :=
  match dicts with
  | [] => Raise RuntimeError
  | d :: _ =>
      if bool_decide (Forall (λ d' : gmap string Q, dom d' = dom d) dicts)
      then Ret (map_imap (λ k _, Some (omap (λ d' : gmap string Q, d' !! k) dicts)) d)
      else Raise RuntimeError
  end.

(** Line 394, the body of the loop: a float divided by the integer 0
    raises. *)
Definition average_term (val_num_batches : Q) (val_loss_dict : gmap string Q)
    (kv : string * list Q) : result (gmap string Q) :=
  if Qeq_bool val_num_batches 0 then Raise ZeroDivisionError
  else Ret (<[kv.1 := (Qsum kv.2 / val_num_batches)%Q]> val_loss_dict).

(** Lines 392-394: the number of batches of all workers and the mean of
    every term. *)
Definition average (gathered : gmap string (list Q)) : result (Q * gmap string Q) :=
  counts ← getitem gathered "num_batches";
  let val_num_batches := Qsum counts in
  val_loss_dict ← for_each (average_term val_num_batches) ∅
                    (map_to_list (delete "num_batches" gathered));
  Ret (val_num_batches, val_loss_dict).

(** Lines 387-394 from the reports [(s_w, n_w)] of the workers. *)
Definition aggregate (reports : list (gmap string Q * Z)) : result (Q * gmap string Q) :=
  gathered ← gather (with_num_batches <$> reports);
  average gathered.

(** Lines 372-394 from the loss terms of every validation batch of every
    worker. *)
Definition evaluate (workers : list (list (gmap string Q))) : result (Q * gmap string Q) :=
  aggregate (validate_worker <$> workers).


Definition batch_counts (reports : list (gmap string Q * Z)) : list Z :=
  snd <$> reports.

Definition Zsum (l : list Z) : Z := foldr Z.add 0 l.


(** Two workers with two validation batches each, used in the example
    below. *)
Definition terms_of (loss rgb : Q) : gmap string Q :=
  <["loss" := loss]> {["loss_rgb" := rgb]}.

Definition workers0 : list (list (gmap string Q)) :=
  [[terms_of 1 2; terms_of 3 4]; [terms_of 5 6; terms_of 7 8]]%Q.

End Eval.

(** ** The collaborators: model, optimizers, schedulers *)

(** What [torch.save] pickles: the entries of the dict literals of lines
    346-362, and the state dicts of the collaborators, which the script
    never looks into. *)
#[local] Unset Elimination Schemes.
Inductive pyval (state : Type) :=
| VInt (z : Z)
| VFloat (q : Q)
| VState (s : state)
| VDict (d : gmap string (pyval state)).
#[local] Set Elimination Schemes.
Arguments VInt {state} z.
Arguments VFloat {state} q.
Arguments VState {state} s.
Arguments VDict {state} d.

(** [nn.Module], [Optimizer] and scheduler objects. [load_state_dict]
    works in place: it gives the object as the call leaves it, also when
    it raises, and what the call returns. For a module it is the call with
    [strict=False], which returns the missing and the unexpected keys. *)
Class Torch := {
  state : Type;
  module : Type;
  optimizer : Type;
  scheduler : Type;
  module_state_dict : module → pyval state;
  module_load_state_dict :
    module → pyval state → module * result (list string * list string);
  optimizer_state_dict : optimizer → pyval state;
  optimizer_load_state_dict : optimizer → pyval state → optimizer * result ();
  scheduler_state_dict : scheduler → pyval state;
  scheduler_load_state_dict : scheduler → pyval state → scheduler * result ()
}.

(** The [accelerate] process context. *)
Record accelerator := Accelerator {
  is_local_main_process : bool;
  num_processes : Z
}.

(** ** Checkpoints: save (lines 342-363) and resume (lines 182-221) *)

Module Ckpt.

Section ckpt.
Context `{Torch}.

(** A file holds a pickled value or bytes that do not unpickle. *)
Inductive file :=
| Pickle (v : pyval state)
| Corrupt.

(** The file system: the files of each directory, by name. A directory is
    identified by its path string. *)
Abbreviation filesystem := (gmap string (gmap string file)).

(** The objects built by lines 126-177. The three of the input side exist
    only when [optimize_inputs] holds; the script touches them only then. *)
Record objects := Objects {
  model : module;
  optimizer_ : optimizer;
  scheduler_ : scheduler;
  input_params : module;
  optimizer_input : optimizer;
  scheduler_input : scheduler
}.

(** What the process writes, in order: the lines of [accel.print] and the
    records of [log_value_dict] on the TensorBoard writer. The running
    statistics and the learning rates depend on the clock and on the
    schedulers: their values are left out. *)
Inductive message :=
| Print (s : string)
| UnexpectedKeys (what : string) (keys : list string)
| MissingKeys (what : string) (keys : list string)
| LoadedFrom (dir : string)
| SavedCheckpoint (it : Z) (dir : string)
| LogValues (tag : string) (it : Z) (values : gmap string pyfloat)
| LogStats (tag : string) (it : Z)
| ProgressLine (it : Z) (total : pyfloat) (terms : gmap string pyfloat)
| ValidationLine (num_eval_samples : Q) (total : Q) (terms : gmap string Q).

Record world := World {
  fs : filesystem;
  objs : objects;
  console : list message
}.

(** Computations on the world. What a computation did before it raised
    stays done. *)
Definition IO (A : Type) : Type := world → result A * world.

#[global] Instance IO_ret : MRet IO := λ A a w, (Ret a, w).
#[global] Instance IO_bind : MBind IO := λ A B f m w,
  match m w with
  | (Ret a, w') => f a w'
  | (Raise e, w') => (Raise e, w')
  end.

Definition lift {A} (r : result A) : IO A := λ w, (r, w).

Definition get_fs : IO filesystem := λ w, (Ret (fs w), w).
Definition get_objs : IO objects := λ w, (Ret (objs w), w).

(** [try: body except: handler] *)
Definition try_except {A} (body handler : IO A) : IO A := λ w,
  match body w with
  | (Ret a, w') => (Ret a, w')
  | (Raise _, w') => handler w'
  end.

Definition when (b : bool) (m : IO ()) : IO () := if b then m else mret ().

(** [os.path.join(a, b)] for a relative [b]. *)
Definition ends_with_slash (a : string) : bool :=
  match String.get (String.length a - 1) a with
  | Some c => bool_decide (c = "/"%char)
  | None => false
  end.

Definition path_join (a b : string) : string :=
  if bool_decide (a = "") || ends_with_slash a then a +:+ b
  else a +:+ "/" +:+ b.

(** [torch.load(os.path.join(dir, name))] *)
Definition torch_load (dir name : string) : IO (pyval state) := λ w,
  match fs w !! dir ≫= (.!! name) with
  | Some (Pickle v) => (Ret v, w)
  | Some Corrupt => (Raise UnpicklingError, w)
  | None => (Raise (FileNotFoundError dir name), w)
  end.

(** [torch.save(v, os.path.join(dir, name))]: the directory must exist. *)
Definition torch_save (v : pyval state) (dir name : string) : IO () := λ w,
  match fs w !! dir with
  | Some files =>
      (Ret (), World (<[dir := <[name := Pickle v]> files]> (fs w)) (objs w) (console w))
  | None => (Raise (FileNotFoundError dir name), w)
  end.

(** Modelled from the spec: [ensure_dir] of [utils.misc_util], which is
    not among the sources; it "must create the destination directory if
    absent". *)
Definition ensure_dir (dir : string) : IO () := λ w,
  match fs w !! dir with
  | Some _ => (Ret (), w)
  | None => (Ret (), World (<[dir := ∅]> (fs w)) (objs w) (console w))
  end.

(** A computation that leaves a component of the world as it was. *)
Definition preserves {X A} (part : world → X) (m : IO A) : Prop :=
  ∀ w r w', m w = (r, w') → part w' = part w.

(** The input store with its optimizer and scheduler. *)
Definition input_side (w : world) : module * optimizer * scheduler :=
  (input_params (objs w), optimizer_input (objs w), scheduler_input (objs w)).

(** A file that is absent or does not unpickle. *)
Definition unreadable (w : world) (dir name : string) : Prop :=
  ∀ v, fs w !! dir ≫= (.!! name) ≠ Some (Pickle v).

Variable accel : accelerator.

(** [accel.print]: only the local main process prints. *)
Definition accel_print (m : message) : IO () := λ w,
  if is_local_main_process accel
  then (Ret (), World (fs w) (objs w) (console w ++ [m]))
  else (Ret (), w).

(** [v[key]] *)
Definition subscript (v : pyval state) (key : string) : result (pyval state) :=
  match v with
  | VDict d => getitem d key
  | VState _ => Raise (KeyError key)
  | _ => Raise TypeError
  end.

(** The counters are used as integers from line 273 on. *)
Definition as_int (v : pyval state) : result Z :=
  match v with
  | VInt z => Ret z
  | _ => Raise TypeError
  end.

(** The calls of [load_state_dict] on the six objects. *)
Definition load_model (v : pyval state) : IO (list string * list string) := λ w,
  let '(m, r) := module_load_state_dict (model (objs w)) v in
  (r, World (fs w)
        (Objects m (optimizer_ (objs w)) (scheduler_ (objs w)) (input_params (objs w))
           (optimizer_input (objs w)) (scheduler_input (objs w)))
        (console w)).

Definition load_optimizer (v : pyval state) : IO () := λ w,
  let '(o, r) := optimizer_load_state_dict (optimizer_ (objs w)) v in
  (r, World (fs w)
        (Objects (model (objs w)) o (scheduler_ (objs w)) (input_params (objs w))
           (optimizer_input (objs w)) (scheduler_input (objs w)))
        (console w)).

Definition load_scheduler (v : pyval state) : IO () := λ w,
  let '(s, r) := scheduler_load_state_dict (scheduler_ (objs w)) v in
  (r, World (fs w)
        (Objects (model (objs w)) (optimizer_ (objs w)) s (input_params (objs w))
           (optimizer_input (objs w)) (scheduler_input (objs w)))
        (console w)).

Definition load_input_params (v : pyval state) : IO (list string * list string) := λ w,
  let '(m, r) := module_load_state_dict (input_params (objs w)) v in
  (r, World (fs w)
        (Objects (model (objs w)) (optimizer_ (objs w)) (scheduler_ (objs w)) m
           (optimizer_input (objs w)) (scheduler_input (objs w)))
        (console w)).

Definition load_optimizer_input (v : pyval state) : IO () := λ w,
  let '(o, r) := optimizer_load_state_dict (optimizer_input (objs w)) v in
  (r, World (fs w)
        (Objects (model (objs w)) (optimizer_ (objs w)) (scheduler_ (objs w))
           (input_params (objs w)) o (scheduler_input (objs w)))
        (console w)).

Definition load_scheduler_input (v : pyval state) : IO () := λ w,
  let '(s, r) := scheduler_load_state_dict (scheduler_input (objs w)) v in
  (r, World (fs w)
        (Objects (model (objs w)) (optimizer_ (objs w)) (scheduler_ (objs w))
           (input_params (objs w)) (optimizer_input (objs w)) s)
        (console w)).

Variable cfg : config.

(** [find_latest_model_path] of [utils.misc_util] is not among the
    sources: it is a parameter here. It gives the directory of the latest
    checkpoint under the checkpoints root, or [None]. *)
Variable find_latest_model_path : filesystem → string → option string.

(** Line 81. The name is bound on the local main process only (line 79):
    elsewhere a read of it raises. *)
Definition checkpoints_dir : result string :=
  if is_local_main_process accel then Ret (path_join (rundir cfg) "checkpoints")
  else Raise (UnboundLocalError "checkpoints_dir").

(** [f"iter_{it}"] *)
Definition iter_name (it : Z) : string := "iter_" +:+ pretty it.

(** Truth value of a path or [None]: the empty string is false. *)
Definition nonempty (p : option string) : option string :=
  match p with
  | Some "" => None
  | _ => p
  end.

(** Lines 183-186. *)
Definition resolve_checkpoint : IO (option string) :=
  match load_iteration cfg with
  | Some k => root ← lift checkpoints_dir; mret (Some (path_join root (iter_name k)))
  | None =>
      match nonempty (load_from cfg) with
      | Some path => mret (Some path)
      | None =>
          root ← lift checkpoints_dir;
          files ← get_fs;
          mret (find_latest_model_path files root)
      end
  end.

(** Lines 188-194: the model weights and the two counters. *)
Definition restore_model (last_ckpt_dir : string) : IO (Z * Z) :=
  model_state ← torch_load last_ckpt_dir "model.pth";
  weights ← lift (subscript model_state "model");
  '(missing_keys, unexpected_keys) ← load_model weights;
  _ ← when (bool_decide (unexpected_keys ≠ []))
        (accel_print (UnexpectedKeys "model_state" unexpected_keys));
  _ ← when (bool_decide (missing_keys ≠ []))
        (accel_print (MissingKeys "model_state" missing_keys));
  it ← lift (subscript model_state "it" ≫= as_int);
  sample_count ← lift (subscript model_state "sample_count" ≫= as_int);
  mret (it, sample_count).

(** Lines 196-198: the optimizer and the scheduler. *)
Definition restore_optimizer (last_ckpt_dir : string) : IO () :=
  optim_state ← torch_load last_ckpt_dir "optimizer.pth";
  o ← lift (subscript optim_state "optimizer");
  _ ← load_optimizer o;
  s ← lift (subscript optim_state "scheduler");
  load_scheduler s.

(** Lines 201-217: the input store, then its optimizer and scheduler. *)
Definition restore_inputs (last_ckpt_dir : string) : IO () :=
  input_state ← torch_load last_ckpt_dir "input.pth";
  try_except
    ('(missing_keys, unexpected_keys) ← load_input_params input_state;
     _ ← when (bool_decide (unexpected_keys ≠ []))
           (accel_print (UnexpectedKeys "input_state" unexpected_keys));
     _ ← when (bool_decide (missing_keys ≠ []))
           (accel_print (MissingKeys "input_state" missing_keys));
     optim_input_state ← torch_load last_ckpt_dir "optimizer_input.pth";
     try_except
       (o ← lift (subscript optim_input_state "optimizer");
        _ ← load_optimizer_input o;
        s ← lift (subscript optim_input_state "scheduler");
        load_scheduler_input s)
       (accel_print (Print "Mismatched optimizer state for input parameters.")))
    (accel_print (Print "Mismatched input parameters state.")).

(** Lines 182-221: the counters to start from. *)
Definition resume : IO (Z * Z) :=
  last_ckpt_dir ← resolve_checkpoint;
  match nonempty last_ckpt_dir with
  | Some last_ckpt_dir =>
      '(it, sample_count) ← restore_model last_ckpt_dir;
      _ ← restore_optimizer last_ckpt_dir;
      _ ← when (optimize_inputs cfg) (restore_inputs last_ckpt_dir);
      _ ← accel_print (LoadedFrom last_ckpt_dir);
      mret (it, sample_count)
  | None => mret (0, 0)
  end.

(** Lines 343-363, the body of the [if]: the checkpoint of iteration [it]. *)
Definition save_checkpoint (it sample_count : Z) (epoch : Q) : IO () :=
  root ← lift checkpoints_dir;
  let ckpt_dir := path_join root (iter_name it) in
  _ ← ensure_dir ckpt_dir;
  o ← get_objs;
  _ ← torch_save
        (VDict (<["it" := VInt it]>
                  (<["sample_count" := VInt sample_count]>
                     (<["epoch" := VFloat epoch]>
                        (<["model" := module_state_dict (model o)]> ∅)))))
        ckpt_dir "model.pth";
  _ ← torch_save
        (VDict (<["optimizer" := optimizer_state_dict (optimizer_ o)]>
                  (<["scheduler" := scheduler_state_dict (scheduler_ o)]> ∅)))
        ckpt_dir "optimizer.pth";
  _ ← when (optimize_inputs cfg)
        (_ ← torch_save (module_state_dict (input_params o)) ckpt_dir "input.pth";
         torch_save
           (VDict (<["optimizer" := optimizer_state_dict (optimizer_input o)]>
                     (<["scheduler" := scheduler_state_dict (scheduler_input o)]> ∅)))
           ckpt_dir "optimizer_input.pth");
  accel_print (SavedCheckpoint it ckpt_dir).

(** The checkpoint directory of iteration [it] (lines 184 and 343). *)
Definition ckpt_dir_of (it : Z) : string :=
  path_join (path_join (rundir cfg) "checkpoints") (iter_name it).


End ckpt.

Abbreviation filesystem := (gmap string (gmap string file)).

End Ckpt.

(** ** A small instance, used in the examples below

    Every collaborator has one number as its state. [load_state_dict]
    takes a pickled state and raises on anything else; it also raises,
    leaving the object as it was, on a negative state, which stands for a
    state of another shape. *)

Module Sample.
Import Ckpt.

Definition load_number {R} (ok : R) (old : Z) (v : pyval Z) : Z * result R :=
  match v with
  | VState s => if s <? 0 then (old, Raise RuntimeError) else (s, Ret ok)
  | _ => (old, Raise TypeError)
  end.

#[global] Instance number_torch : Torch := {|
  state := Z;
  module := Z;
  optimizer := Z;
  scheduler := Z;
  module_state_dict := VState;
  module_load_state_dict := load_number ([], []);
  optimizer_state_dict := VState;
  optimizer_load_state_dict := load_number ();
  scheduler_state_dict := VState;
  scheduler_load_state_dict := load_number ()
|}.

Definition main_process : accelerator := Accelerator true 1.

(** Input optimization enabled (the latent codes), resume from iteration 5. *)
Definition cfg_resume5 : config :=
  Config "run" None (Some 5) 2 true false false false 10 1 1 5 5 3.

Definition no_latest : filesystem → string → option string := λ _ _, None.

Definition model_pth : file :=
  Pickle (VDict (<["it" := VInt 5]>
                   (<["sample_count" := VInt 10]>
                      (<["epoch" := VFloat 5%Q]>
                         (<["model" := VState 7]> ∅))))).

Definition optimizer_pth : file :=
  Pickle (VDict (<["optimizer" := VState 8]> (<["scheduler" := VState 9]> ∅))).

(** Freshly built objects: all states are 0. *)
Definition fresh_objects : objects := Objects 0 0 0 0 0 0.

Definition world_of (files : gmap string file) : world :=
  World {["run/checkpoints/iter_5" := files]} fresh_objects [].

(** A checkpoint without [input.pth]. *)
Definition world_absent : world :=
  world_of (<["model.pth" := model_pth]> {["optimizer.pth" := optimizer_pth]}).

(** A checkpoint whose [input.pth] does not unpickle. *)
Definition world_corrupt : world :=
  world_of (<["model.pth" := model_pth]>
              (<["optimizer.pth" := optimizer_pth]> {["input.pth" := Corrupt]})).

(** A checkpoint whose [input.pth] unpickles to a state that the input
    store rejects. *)
Definition world_mismatch : world :=
  world_of (<["model.pth" := model_pth]>
              (<["optimizer.pth" := optimizer_pth]>
                 {["input.pth" := Pickle (VState (-1))]})).

(** A run in progress: nothing on disk yet, the objects hold trained
    states. *)
Definition world_running : world := World ∅ (Objects 7 8 9 1 2 3) [].



End Sample.

(** Further sample data for the checkpoint examples. *)

Module SampleMore.
Import Ckpt Sample.

(** A process other than the local main one. *)
Definition worker_process : accelerator := Accelerator false 2.

(** No input optimization, resume from iteration 5. *)
Definition cfg_plain : config :=
  Config "run" None (Some 5) 2 false false false false 10 1 1 5 5 3.

(** A checkpoint with [input.pth] and without [optimizer_input.pth]. *)
Definition world_no_input_optimizer : world :=
  world_of (<["model.pth" := model_pth]>
              (<["optimizer.pth" := optimizer_pth]>
                 {["input.pth" := Pickle (VState 4)]})).

(** A checkpoint whose [optimizer_input.pth] holds an optimizer state that
    the optimizer of the input store rejects. *)
Definition world_bad_input_optimizer : world :=
  world_of (<["model.pth" := model_pth]>
              (<["optimizer.pth" := optimizer_pth]>
                 (<["input.pth" := Pickle (VState 4)]>
                    {["optimizer_input.pth" :=
                        Pickle (VDict (<["optimizer" := VState (-1)]>
                                         (<["scheduler" := VState 6]> ∅)))]}))).

End SampleMore.

(** ** The training loop (training.py, lines 272-416) *)

Module Loop.

Import Window Eval Ckpt.

(** [a % n == 0] on integers. *)
Definition divides (a n : Z) : result bool :=
  if n =? 0 then Raise ZeroDivisionError else Ret (a mod n =? 0).

(** [a / b] on integers, a float. *)
Definition true_div (a b : Z) : result Q :=
  if b =? 0 then Raise ZeroDivisionError else Ret (inject_Z a / inject_Z b)%Q.

(** The variables that the loop carries from one iteration to the next.
    The clock ([last_it], [last_time]) is not modelled. *)
Record loop_state := LoopState {
  it : Z;
  sample_count : Z;
  avg_loss_dict : gmap string deque
}.

Section loop.
Context `{Torch}.
Variable accel : accelerator.
Variable cfg : config.
Variable find_latest_model_path : filesystem → string → option string.

(** The collaborators of the loop body: the batches, the sizes of the two
    datasets, the training step (lines 285-305: forward pass, loss,
    backward pass, clipping, the steps of the optimizers and schedulers,
    and the gather of the loss terms; the substitution of line 288 is
    modelled in [Inputs]), and the validation pass of every worker
    (lines 374-384: the loss terms of each validation batch). *)
Variable batch : Type.
Variable train_len val_len : Z.
Variable train_step : objects → batch → Z → objects * gmap string Q.
Variable validate : objects → Z → list (list (gmap string Q)).

(** Lines 285-305. *)
Definition train (b : batch) (it : Z) : IO (gmap string Q) := λ w,
  let '(o, loss_dict) := train_step (objs w) b it in
  (Ret loss_dict, World (fs w) o (console w)).

(** A record on the TensorBoard writer. *)
Definition emit (m : message) : IO () := λ w,
  (Ret (), World (fs w) (objs w) (console w ++ [m])).

(** Lines 314-315. *)
Definition log_block (it : Z) (loss_dict : gmap string pyfloat) : IO () :=
  fire ← lift (divides it (log_it cfg));
  when (fire && is_local_main_process accel)
    (emit (LogValues "train" it loss_dict)).

(** Lines 316-339. *)
Definition show_block (it : Z) (loss_dict : gmap string pyfloat) : IO () :=
  fire ← lift (divides it (show_it cfg));
  when (fire && is_local_main_process accel)
    (_ ← emit (LogStats "running_stat" it);
     _ ← emit (LogStats "learning_rate" it);
     loss_total ← lift (getitem loss_dict "loss");
     accel_print accel (ProgressLine it loss_total (delete "loss" loss_dict))).

(** Lines 342-363. *)
Definition save_block (it sample_count : Z) (epoch : Q) : IO () :=
  fire ← lift (divides it (save_it cfg));
  when (fire && is_local_main_process accel)
    (save_checkpoint accel cfg it sample_count epoch).

(** Lines 366-411. *)
Definition eval_block (it : Z) : IO () :=
  fire ← lift (divides it (eval_it cfg));
  when (fire && (0 <? val_len))
    (o ← get_objs;
     gathered ← lift (gather (with_num_batches <$> (validate_worker <$> validate o it)));
     when (is_local_main_process accel)
       ('(val_num_batches, val_loss_dict) ← lift (average gathered);
        _ ← emit (LogValues "validation" it (Num <$> val_loss_dict));
        loss_total ← lift (getitem val_loss_dict "loss");
        accel_print accel
          (ValidationLine val_num_batches loss_total (delete "loss" val_loss_dict)))).

(** Lines 282-414: one pass through the body of the loop. *)
Definition iteration (b : batch) (st : loop_state) : IO loop_state :=
  epoch ← lift (true_div (sample_count st) train_len);
  loss_dict ← train b (it st);
  '(avg_loss_dict, loss_dict) ←
    lift (update_running_average (avg_loss_it cfg) (avg_loss_dict st) loss_dict);
  _ ← log_block (it st) loss_dict;
  _ ← show_block (it st) loss_dict;
  _ ← save_block (it st) (sample_count st) epoch;
  _ ← eval_block (it st);
  mret (LoopState (it st + 1)
          (sample_count st + batch_size cfg * num_processes accel)
          avg_loss_dict).

(** Lines 281-416. The loader never ends ([InfiniteSampler]): [loader i]
    is its batch number [i]. The loop ends by the [break] of line 416 or by
    an exception. [fuel] bounds the number of batches drawn; the result is
    [None] when the loop is still running after that many, and otherwise
    the final variables with the number of batches consumed. *)
Fixpoint run (fuel : nat) (loader : nat → batch) (i : nat) (st : loop_state)
    : IO (option (loop_state * nat)) :=
  match fuel with
  | O => mret None
  | S fuel' =>
      st' ← iteration (loader i) st;
      if iterations cfg <? it st' then mret (Some (st', S i))
      else run fuel' loader (S i) st'
  end.

(** Lines 182-416, from the objects built by lines 74-181. *)
Definition training_loop (fuel : nat) (loader : nat → batch)
    : IO (option (loop_state * nat)) :=
  '(it, sample_count) ← resume accel cfg find_latest_model_path;
  run fuel loader 0 (LoopState it sample_count ∅).

(** The configurations on which the arithmetic of the loop does not
    raise. *)
Definition config_ok : Prop :=
  log_it cfg ≠ 0 ∧ show_it cfg ≠ 0 ∧ save_it cfg ≠ 0 ∧ eval_it cfg ≠ 0
  ∧ 0 ≤ avg_loss_it cfg ∧ train_len ≠ 0.

(** The collaborators as the script expects them: the loss terms contain
    the total [loss], and the evaluation of the validation pass goes
    through. *)
Definition collaborators_ok : Prop :=
  (∀ o b i, is_Some ((train_step o b i).2 !! "loss"))
  ∧ (∀ o i, ∃ n d, evaluate (validate o i) = Ret (n, d) ∧ is_Some (d !! "loss")).

End loop.

(** *** A small run, used in the examples below

    A fresh start on the local main process, with the collaborators of
    [Sample]: every training step reports the total loss 1 and one more
    term, and the validation pass gives the batches of [workers0]. *)

Import Sample.

Definition cfg_fresh : config :=
  Config "run" None None 2 false false false false 10 1 1 5 5 3.

Definition constant_step (o : objects) (b : ()) (it : Z) : objects * gmap string Q :=
  (o, terms_of 1 2).

Definition constant_validate (o : objects) (it : Z) : list (list (gmap string Q)) :=
  workers0.

Definition every_batch : nat → () := λ _, ().

End Loop.

(** Further sample data for the examples of the loop. *)

Module LoopMore.

(** As [cfg_fresh], with a logging interval of zero. *)
Definition cfg_zero_log : config :=
  Config "run" None None 2 false false false false 10 0 1 5 5 3.

End LoopMore.

(** * Properties *)


(** ** Substitution of the optimizable inputs *)

Section InputsFacts.
Import Inputs.

Lemma bind_Ret {A B} (m : M A) (f : A → M B) σ b σ' :
  (m ≫= f) σ = Ret (b, σ') →
  ∃ a σ1, m σ = Ret (a, σ1) ∧ f a σ1 = Ret (b, σ').
Proof.
  unfold mbind, M_bind. destruct (m σ) as [[a σ1]|e]; [|done].
  intros H. by exists a, σ1.
Qed.

Lemma lift_Ret {A} (r : result A) σ a σ' :
  lift r σ = Ret (a, σ') → r = Ret a ∧ σ' = σ.
Proof. unfold lift. destruct r; [|done]. intros [= -> ->]. done. Qed.

Lemma mapM_Ret {A B} (f : A → result B) (l : list A) (k : list B) :
  mapM f l = Ret k → Forall2 (λ x y, f x = Ret y) l k.
Proof.
  revert k. induction l as [|x l IH]; intros k; simpl.
  - intros [= <-]. constructor.
  - unfold mbind, result_bind. destruct (f x) as [y|] eqn:Hy; [|done].
    destruct (mapM f l) as [k'|] eqn:Hk; [|done].
    intros [= <-]. constructor; [done|]. by apply IH.
Qed.

Lemma allocates_refl σ : allocates σ σ.
Proof. done. Qed.

Lemma allocates_trans σ1 σ2 σ3 :
  allocates σ1 σ2 → allocates σ2 σ3 → allocates σ1 σ3.
Proof.
  intros (? & ? & ?) (? & ? & ?). split_and!; [by etrans|congruence..].
Qed.

Lemma alloc_spec t σ l σ' :
  alloc t σ = Ret (l, σ') →
  heap σ !! l = None ∧ heap σ' = <[l := t]> (heap σ) ∧ allocates σ σ'.
Proof.
  unfold alloc. intros [= <- <-]. simpl.
  assert (Hfresh : heap σ !! fresh (dom (heap σ)) = None).
  { apply not_elem_of_dom, is_fresh. }
  split_and!; [done..|]. split_and!; [|done..]. simpl.
  by apply insert_subseteq.
Qed.

Lemma get_input_spec key σ l σ' :
  get_input key σ = Ret (l, σ') → inputs σ !! key = Some l ∧ σ' = σ.
Proof.
  unfold get_input. intros [Hget ->]%lift_Ret. split; [|done].
  unfold getitem in Hget. by destruct (inputs σ !! key) as [?|]; simplify_eq.
Qed.

Lemma deref_spec l σ t σ' :
  deref l σ = Ret (t, σ') → heap σ !! l = Some t ∧ σ' = σ.
Proof. unfold deref. destruct (heap σ !! l); [|done]. by intros [= -> ->]. Qed.

Lemma embedding_spec weight ids σ v σ' :
  embedding weight ids σ = Ret (v, σ') →
  ∃ idv rows, heap σ !! ids = Some (TLong idv)
    ∧ mapM (embedding_row weight) idv = Ret rows
    ∧ heap σ !! v = None ∧ heap σ' = <[v := TMat rows]> (heap σ)
    ∧ allocates σ σ'.
Proof.
  unfold embedding. intros (t & σ1 & [Ht ->]%deref_spec & Hrest)%bind_Ret.
  destruct t as [idv| |]; [|done..].
  apply bind_Ret in Hrest as (rows & σ1 & [Hrows ->]%lift_Ret & Hrest).
  apply alloc_spec in Hrest as (? & ? & ?). by exists idv, rows.
Qed.

Lemma select_ids_spec fixed_id σ ids σ' :
  select_ids fixed_id σ = Ret (ids, σ') → allocates σ σ'.
Proof.
  unfold select_ids. destruct (truthy fixed_id).
  - intros (id & σ1 & [_ ->]%get_input_spec & Hrest)%bind_Ret.
    apply bind_Ret in Hrest as (t & σ1 & [_ ->]%deref_spec & Hrest).
    by apply alloc_spec in Hrest as (_ & _ & ?).
  - by intros [_ ->]%get_input_spec.
Qed.

Lemma allocates_frame ins tgs σ σ' : allocates σ σ' → frame ins tgs σ σ'.
Proof. intros (? & Hi & Ht). unfold frame. rewrite Hi, Ht. done. Qed.

Lemma frame_trans ins1 tgs1 ins2 tgs2 σ1 σ2 σ3 :
  frame ins1 tgs1 σ1 σ2 → frame ins2 tgs2 σ2 σ3 →
  frame (ins1 ++ ins2) (tgs1 ++ tgs2) σ1 σ3.
Proof.
  intros (Hh1 & Hi1 & Ht1) (Hh2 & Hi2 & Ht2). split_and!.
  - by etrans.
  - intros k [? ?]%not_elem_of_app. rewrite Hi2, Hi1; done.
  - intros k [? ?]%not_elem_of_app. rewrite Ht2, Ht1; done.
Qed.

(** Lines 233-234. *)
Lemma latent_spec (flag : bool) (params : gmap string (list (list Q))) ids σ σ' :
  (if flag then
     weight ← lift (getitem params "frame_latent");
     v ← embedding weight ids;
     set_input "frame_latent" v
   else mret ()) σ = Ret ((), σ') →
  frame ["frame_latent"] [] σ σ'.
Proof.
  destruct flag.
  - intros (w & σ1 & [_ ->]%lift_Ret & Hrest)%bind_Ret.
    apply bind_Ret in Hrest as (v & σ1 & Hemb & Hset).
    apply embedding_spec in Hemb as (? & ? & _ & _ & _ & _ & Hheap & Hin & Htg).
    unfold set_input in Hset. injection Hset as Hσ'; subst σ'.
    split_and!; simpl; [done| |by rewrite Htg].
    intros k [? _]%not_elem_of_cons. rewrite lookup_insert_ne by done. by rewrite Hin.
  - intros [= <-]. done.
Qed.

(** Lines 236-237 and 239-240: the dataset value goes to [targets], the
    learned rows to [inputs]. *)
Lemma supervise_spec key (params : gmap string (list (list Q))) ids σ σ' :
  (old ← get_input key;
   _ ← set_target key old;
   weight ← lift (getitem params key);
   v ← embedding weight ids;
   set_input key v) σ = Ret ((), σ') →
  ∃ old, inputs σ !! key = Some old
    ∧ targets σ' !! key = Some old
    ∧ frame [key] [key] σ σ'.
Proof.
  intros (old & σ1 & [Hold ->]%get_input_spec & Hrest)%bind_Ret.
  apply bind_Ret in Hrest as ([] & σ1 & Htg & Hrest).
  unfold set_target in Htg. injection Htg as Hσ1; subst σ1.
  apply bind_Ret in Hrest as (w & σ2 & [_ ->]%lift_Ret & Hrest).
  apply bind_Ret in Hrest as (v & σ2 & Hemb & Hset).
  apply embedding_spec in Hemb as (? & ? & _ & _ & _ & _ & Hheap & Hin & Htg).
  unfold set_input in Hset. injection Hset as Hσ'; subst σ'. simpl in *.
  exists old. split_and!; [done|by rewrite Htg, lookup_insert_eq|].
  split_and!; simpl; [done|..].
  - intros k [? _]%not_elem_of_cons. rewrite lookup_insert_ne by done. by rewrite Hin.
  - intros k [? _]%not_elem_of_cons. rewrite Htg. by rewrite lookup_insert_ne.
Qed.

Lemma supervise_frame (flag : bool) key (params : gmap string (list (list Q))) ids σ σ' :
  (if flag then
     old ← get_input key;
     _ ← set_target key old;
     weight ← lift (getitem params key);
     v ← embedding weight ids;
     set_input key v
   else mret ()) σ = Ret ((), σ') →
  frame [key] [key] σ σ'.
Proof.
  destruct flag.
  - by intros (? & _ & _ & ?)%supervise_spec.
  - intros [= <-]. done.
Qed.

(** Lines 242-243: [targets] gets the very object that is then written
    in place. *)
Lemma camera_spec (params : gmap string (list (list Q))) ids σ σ' :
  (old ← get_input "extrinsic";
   _ ← set_target "extrinsic" old;
   weight ← lift (getitem params "cam_trans");
   v ← embedding weight ids;
   dst ← get_input "extrinsic";
   s ← deref v;
   c ← deref dst;
   match c, s with
   | TCube c, TMat s => c' ← lift (setitem_translation c s); assign dst (TCube c')
   | _, _ => raise RuntimeError
   end) σ = Ret ((), σ') →
  ∃ dst c s c' v,
    inputs σ !! "extrinsic" = Some dst
    ∧ heap σ !! dst = Some (TCube c)
    ∧ heap σ !! v = None
    ∧ setitem_translation c s = Ret c'
    ∧ heap σ' = <[dst := TCube c']> (<[v := TMat s]> (heap σ))
    ∧ inputs σ' = inputs σ
    ∧ targets σ' = <["extrinsic" := dst]> (targets σ).
Proof.
  intros (old & σ1 & [Hold ->]%get_input_spec & Hrest)%bind_Ret.
  apply bind_Ret in Hrest as ([] & σ1 & Htg & Hrest).
  unfold set_target in Htg. injection Htg as Hσ1; subst σ1.
  apply bind_Ret in Hrest as (w & σ2 & [_ ->]%lift_Ret & Hrest).
  apply bind_Ret in Hrest as (v & σ2 & Hemb & Hrest).
  apply embedding_spec in Hemb as (? & rows & _ & _ & Hv & Hheap & _ & Hin & Htg).
  apply bind_Ret in Hrest as (dst & σ3 & [Hdst ->]%get_input_spec & Hrest).
  apply bind_Ret in Hrest as (s & σ3 & [Hs ->]%deref_spec & Hrest).
  apply bind_Ret in Hrest as (c & σ3 & [Hc ->]%deref_spec & Hrest).
  simpl in *. rewrite Hin in Hdst. simplify_eq.
  rewrite Hheap, lookup_insert_eq in Hs. simplify_eq.
  destruct c as [| |c]; [done..|].
  apply bind_Ret in Hrest as (c' & σ3 & [Hc' ->]%lift_Ret & Hrest).
  unfold assign in Hrest. injection Hrest as Hσ'; subst σ'. simpl.
  assert (v ≠ old) as Hne.
  { intros ->. rewrite Hheap, lookup_insert_eq in Hc. done. }
  rewrite Hheap, lookup_insert_ne in Hc by done.
  exists old, c, rows, c', v. rewrite Hheap, Hin, Htg. done.
Qed.

Lemma broadcast_length {A} (n : nat) (l l' : list A) :
  broadcast n l = Ret l' → length l' = n.
Proof.
  unfold broadcast. case_decide as Hn.
  - by intros [= <-].
  - destruct l as [|x [|? ?]]; [done| |done].
    intros [= <-]. by rewrite length_replicate.
Qed.

Lemma set_translation_entry m t m' (i j : nat) :
  set_translation m t = Ret m' →
  ¬ (i < 3 ∧ j = 3)%nat →
  (m' !! i ≫= (.!! j)) = (m !! i ≫= (.!! j)).
Proof.
  unfold set_translation. destruct (forallb _ _); [|done].
  destruct (broadcast _ t) as [t'|] eqn:Ht; [|done].
  apply broadcast_length in Ht. intros [= <-] Hij.
  rewrite list_lookup_imap. destruct (m !! i) as [row|]; [|done]. simpl.
  destruct (t' !! i) as [v|] eqn:Hv; [|done].
  apply lookup_lt_Some in Hv. rewrite Ht, length_take in Hv.
  apply list_lookup_insert_ne. lia.
Qed.

(** The slice assignment of line 243 leaves every entry outside
    [[:, :3, 3]] as it was. *)
Lemma setitem_translation_entry c s c' (b i j : nat) :
  setitem_translation c s = Ret c' →
  ¬ (i < 3 ∧ j = 3)%nat →
  entry c' b i j = entry c b i j.
Proof.
  unfold setitem_translation, entry.
  destruct (broadcast (length c) s) as [s'|] eqn:Hs; [|done].
  apply broadcast_length in Hs. simpl.
  intros Hall%mapM_Ret Hij.
  destruct (c' !! b) as [m'|] eqn:Hm'.
  - destruct (Forall2_lookup_r _ _ _ _ _ Hall Hm') as ([m t] & Hmt & Hset).
    apply lookup_zip_with_Some in Hmt as (? & ? & [= <- <-] & -> & _).
    simpl in *. by apply set_translation_entry with t.
  - apply lookup_ge_None in Hm'.
    rewrite <- (Forall2_length _ _ _ Hall), length_zip_with in Hm'.
    rewrite (lookup_ge_None_2 c b) by lia. done.
Qed.

(** Lines 232-240 rebind [frame_latent], [expression] and [pose] and add
    objects; nothing else changes. *)
Lemma replace_optimizable_inputs_inv cfg params fixed_id σ σ' :
  replace_optimizable_inputs cfg params fixed_id σ = Ret ((), σ') →
  ∃ ids σ1 σ2 σ3 σ4,
    select_ids fixed_id σ = Ret (ids, σ1)
    ∧ frame ["frame_latent"] [] σ1 σ2
    ∧ (if optimize_expression cfg then
         ∃ old, inputs σ2 !! "expression" = Some old
                ∧ targets σ3 !! "expression" = Some old
       else True)
    ∧ frame ["expression"] ["expression"] σ2 σ3
    ∧ (if optimize_pose cfg then
         ∃ old, inputs σ3 !! "pose" = Some old ∧ targets σ4 !! "pose" = Some old
       else True)
    ∧ frame ["pose"] ["pose"] σ3 σ4
    ∧ (if optimize_camera cfg then
         ∃ dst c s c' v,
           inputs σ4 !! "extrinsic" = Some dst
           ∧ heap σ4 !! dst = Some (TCube c)
           ∧ heap σ4 !! v = None
           ∧ setitem_translation c s = Ret c'
           ∧ heap σ' = <[dst := TCube c']> (<[v := TMat s]> (heap σ4))
           ∧ inputs σ' = inputs σ4
           ∧ targets σ' = <["extrinsic" := dst]> (targets σ4)
       else σ' = σ4).
Proof.
  unfold replace_optimizable_inputs.
  intros (ids & σ1 & Hids & Hrest)%bind_Ret.
  apply bind_Ret in Hrest as ([] & σ2 & Hlat & Hrest).
  apply bind_Ret in Hrest as ([] & σ3 & Hexp & Hrest).
  apply bind_Ret in Hrest as ([] & σ4 & Hpose & Hcam).
  exists ids, σ1, σ2, σ3, σ4. split_and!.
  - done.
  - by eapply latent_spec.
  - destruct (optimize_expression cfg); [|done].
    apply supervise_spec in Hexp as (old & ? & ? & _). by exists old.
  - by eapply supervise_frame.
  - destruct (optimize_pose cfg); [|done].
    apply supervise_spec in Hpose as (old & ? & ? & _). by exists old.
  - by eapply supervise_frame.
  - destruct (optimize_camera cfg).
    + by apply camera_spec in Hcam.
    + by injection Hcam.
Qed.

Lemma not_in_keys (k : string) (l : list string) :
  bool_decide (k ∉ l) = true → k ∉ l.
Proof. apply bool_decide_eq_true_1. Qed.

(** C10. With camera optimization enabled, the substitution writes the
    extrinsic tensor in place and changes no entry outside the translation
    column [[:, :3, 3]]: the rotation block and the bottom row are as
    before. *)
Theorem camera_overwrites_translation_only cfg params fixed_id σ σ' l c :
  optimize_camera cfg = true →
  inputs σ !! "extrinsic" = Some l →
  heap σ !! l = Some (TCube c) →
  replace_optimizable_inputs cfg params fixed_id σ = Ret ((), σ') →
  ∃ c', inputs σ' !! "extrinsic" = Some l
    ∧ heap σ' !! l = Some (TCube c')
    ∧ ∀ b i j : nat, ¬ (i < 3 ∧ j = 3)%nat → entry c' b i j = entry c b i j.
Proof.
  intros Hcam Hl Hc
    (ids & σ1 & σ2 & σ3 & σ4 & Hids & Hlat & _ & Hexp & _ & Hpose & Hwrite)%replace_optimizable_inputs_inv.
  rewrite Hcam in Hwrite.
  destruct Hwrite as (dst & c0 & s & c' & v & Hdst & Hc0 & _ & Hset & Hheap & Hin & _).
  apply select_ids_spec, (allocates_frame [] []) in Hids.
  pose proof (frame_trans _ _ _ _ _ _ _
                (frame_trans _ _ _ _ _ _ _
                   (frame_trans _ _ _ _ _ _ _ Hids Hlat) Hexp) Hpose)
    as (Hsub & Hkeep & _).
  rewrite Hkeep, Hl in Hdst by (by apply not_in_keys). simplify_eq.
  rewrite (lookup_weaken _ _ _ _ Hc Hsub) in Hc0. simplify_eq.
  exists c'. split_and!.
  - rewrite Hin, Hkeep by (by apply not_in_keys). done.
  - by rewrite Hheap, lookup_insert_eq.
  - intros b i j Hij. by apply setitem_translation_entry with s.
Qed.

Lemma camera_overwrites_translation_only_witness :
  ∃ c', inputs batch0 !! "extrinsic" = Some 2%positive
    ∧ ∃ σ', replace_optimizable_inputs (cfg_flags true true false true)
              input_params0 None batch0 = Ret ((), σ')
      ∧ inputs σ' !! "extrinsic" = Some 2%positive
      ∧ heap σ' !! 2%positive = Some (TCube c')
      ∧ ∀ b i j : nat, ¬ (i < 3 ∧ j = 3)%nat →
          entry c' b i j = entry dataset_extrinsic b i j.
Proof.
  destruct (replace_optimizable_inputs (cfg_flags true true false true)
              input_params0 None batch0) as [[[] σ']|] eqn:Hrun;
    [|by vm_compute in Hrun].
  destruct (camera_overwrites_translation_only
              (cfg_flags true true false true) input_params0 None batch0 σ'
              2%positive dataset_extrinsic) as (c' & ? & ? & ?);
    [reflexivity | reflexivity | reflexivity | exact Hrun |].
  exists c'. split; [reflexivity|]. exists σ'. done.
Defined.

(** The dataset values of the supervised vectors do reach [targets]:
    line 236 keeps the old object and line 237 binds a new one. *)
Lemma expression_target_is_dataset_value cfg params fixed_id σ σ' t :
  optimize_expression cfg = true →
  value_of σ (inputs σ) "expression" = Some t →
  (optimize_camera cfg = true →
   inputs σ !! "expression" ≠ inputs σ !! "extrinsic") →
  replace_optimizable_inputs cfg params fixed_id σ = Ret ((), σ') →
  value_of σ' (targets σ') "expression" = Some t.
Proof.
  intros Hflag (old & Hold & Ht)%bind_Some Halias
    (ids & σ1 & σ2 & σ3 & σ4 & Hids & Hlat & Hexp & Hfexp & _ & Hpose & Hwrite)%replace_optimizable_inputs_inv.
  rewrite Hflag in Hexp. destruct Hexp as (old' & Hold' & Htg).
  apply select_ids_spec, (allocates_frame [] []) in Hids.
  pose proof (frame_trans _ _ _ _ _ _ _ Hids Hlat) as (Hsub2 & Hkeep2 & _).
  rewrite Hkeep2, Hold in Hold' by (by apply not_in_keys). simplify_eq.
  pose proof (frame_trans _ _ _ _ _ _ _
                (frame_trans _ _ _ _ _ _ _
                   (frame_trans _ _ _ _ _ _ _ Hids Hlat) Hfexp) Hpose)
    as (Hsub & Hkeep & _).
  destruct Hpose as (_ & _ & Hkeept).
  assert (Ht4 : heap σ4 !! old' = Some t) by exact (lookup_weaken _ _ _ _ Ht Hsub).
  assert (Htg4 : targets σ4 !! "expression" = Some old').
  { rewrite Hkeept by (by apply not_in_keys). done. }
  unfold value_of. destruct (optimize_camera cfg).
  - destruct Hwrite as (dst & c0 & s & c' & v & Hdst & _ & Hv & _ & Hheap & _ & Htg').
    rewrite Htg', lookup_insert_ne, Htg4 by done. simpl.
    rewrite Hkeep in Hdst by (by apply not_in_keys).
    rewrite Hheap, !lookup_insert_ne; [done|congruence|].
    intros ->. specialize (Halias eq_refl). congruence.
  - subst σ'. by rewrite Htg4.
Qed.

(** The same for the pose: lines 239-240 keep the dataset pose for
    [targets] and bind the learned rows to [inputs]. *)
Lemma pose_target_is_dataset_value cfg params fixed_id σ σ' t :
  optimize_pose cfg = true →
  value_of σ (inputs σ) "pose" = Some t →
  (optimize_camera cfg = true → inputs σ !! "pose" ≠ inputs σ !! "extrinsic") →
  replace_optimizable_inputs cfg params fixed_id σ = Ret ((), σ') →
  value_of σ' (targets σ') "pose" = Some t.
Proof.
  intros Hflag (old & Hold & Ht)%bind_Some Halias
    (ids & σ1 & σ2 & σ3 & σ4 & Hids & Hlat & _ & Hfexp & Hpose & Hfpose & Hwrite)%replace_optimizable_inputs_inv.
  rewrite Hflag in Hpose. destruct Hpose as (old' & Hold' & Htg4).
  apply select_ids_spec, (allocates_frame [] []) in Hids.
  pose proof (frame_trans _ _ _ _ _ _ _
                (frame_trans _ _ _ _ _ _ _ Hids Hlat) Hfexp)
    as (Hsub3 & Hkeep3 & _).
  rewrite Hkeep3, Hold in Hold' by (by apply not_in_keys). simplify_eq.
  pose proof (frame_trans _ _ _ _ _ _ _
                (frame_trans _ _ _ _ _ _ _
                   (frame_trans _ _ _ _ _ _ _ Hids Hlat) Hfexp) Hfpose)
    as (Hsub & Hkeep & _).
  assert (Ht4 : heap σ4 !! old' = Some t) by exact (lookup_weaken _ _ _ _ Ht Hsub).
  unfold value_of. destruct (optimize_camera cfg).
  - destruct Hwrite as (dst & c0 & s & c' & v & Hdst & _ & Hv & _ & Hheap & _ & Htg').
    rewrite Htg', lookup_insert_ne, Htg4 by done. simpl.
    rewrite Hkeep in Hdst by (by apply not_in_keys).
    rewrite Hheap, !lookup_insert_ne; [done|congruence|].
    intros ->. specialize (Halias eq_refl). congruence.
  - subst σ'. by rewrite Htg4.
Qed.

(** The camera branch differs: line 242 stores in [targets] the object
    that line 243 then writes in place, so both dicts name one tensor. *)
Lemma camera_target_is_the_input_object cfg params fixed_id σ σ' :
  optimize_camera cfg = true →
  replace_optimizable_inputs cfg params fixed_id σ = Ret ((), σ') →
  is_Some (inputs σ' !! "extrinsic")
  ∧ targets σ' !! "extrinsic" = inputs σ' !! "extrinsic".
Proof.
  intros Hcam
    (ids & σ1 & σ2 & σ3 & σ4 & _ & _ & _ & _ & _ & _ & Hwrite)%replace_optimizable_inputs_inv.
  rewrite Hcam in Hwrite.
  destruct Hwrite as (dst & c0 & s & c' & v & Hdst & _ & _ & _ & _ & Hin & Htg).
  rewrite Htg, Hin, Hdst, lookup_insert_eq. eauto.
Qed.

(** C2, at a batch of two frames with camera optimization enabled: after
    the substitution [targets['extrinsic']] holds the learned translations
    of the frames, not the dataset extrinsic that [inputs['extrinsic']]
    held before the call. *)
Theorem camera_target_carries_learned_translation :
  ∃ σ', replace_optimizable_inputs (cfg_flags false false false true)
          input_params0 None batch0 = Ret ((), σ')
    ∧ value_of batch0 (inputs batch0) "extrinsic" = Some (TCube dataset_extrinsic)
    ∧ value_of σ' (targets σ') "extrinsic"
      = Some (TCube [extrinsic_of 4 5 6; extrinsic_of 7 8 9])
    ∧ value_of σ' (targets σ') "extrinsic"
      ≠ value_of batch0 (inputs batch0) "extrinsic".
Proof.
  eexists. split; [vm_compute; reflexivity|].
  split_and!; [reflexivity..|]. vm_compute. discriminate.
Qed.

(** [if fixed_id] does not tell [0] from [None]. *)
Lemma fixed_id_zero_is_dropped cfg params :
  replace_optimizable_inputs cfg params (Some 0)
  = replace_optimizable_inputs cfg params None.
Proof. reflexivity. Qed.

(** A non-zero [fixed_id] does replace the id of every row. *)
Lemma fixed_id_nonzero_selects_constant (f : Z) σ l v :
  f ≠ 0 →
  inputs σ !! "id" = Some l →
  heap σ !! l = Some (TLong v) →
  ∃ ids σ', select_ids (Some f) σ = Ret (ids, σ')
    ∧ heap σ' !! ids = Some (TLong (replicate (length v) f)).
Proof.
  intros Hf Hl Hv. unfold select_ids, truthy.
  destruct (Z.eqb_spec f 0) as [|_]; [done|]. simpl.
  unfold get_input, getitem, mbind, M_bind, lift. rewrite Hl. simpl.
  unfold deref. rewrite Hv. simpl. unfold alloc.
  eexists _, _. split; [reflexivity|]. simpl. by rewrite lookup_insert_eq.
Qed.

(** C3, at frame id 0 and a batch whose rows have the ids 1 and 2: with
    [fixed_id = 0] the latent codes looked up are those of frames 1 and 2,
    not twice the code of frame 0. *)
Theorem fixed_id_zero_uses_batch_ids :
  ∃ σ', replace_optimizable_inputs (cfg_flags true false false false)
          input_params0 (Some 0) batch0 = Ret ((), σ')
    ∧ value_of σ' (inputs σ') "frame_latent" = Some (TMat [[11]; [12]]%Q)
    ∧ value_of σ' (inputs σ') "frame_latent" ≠ Some (TMat [[10]; [10]]%Q).
Proof.
  eexists. split; [vm_compute; reflexivity|].
  split; [reflexivity|]. vm_compute. discriminate.
Qed.

End InputsFacts.

(** ** The substitution: what it writes and what it leaves *)

Section SubstitutionFacts.
Import Inputs Substitution.

Lemma replace_optimizable_inputs_phases cfg params fixed_id :
  replace_optimizable_inputs cfg params fixed_id
  = (ids ← select_ids fixed_id;
     _ ← latent_phase cfg params ids;
     _ ← supervised_phase params ids (optimize_expression cfg) "expression";
     _ ← supervised_phase params ids (optimize_pose cfg) "pose";
     camera_phase cfg params ids).
Proof. reflexivity. Qed.

Lemma embedding_row_Ret weight i row :
  embedding_row weight i = Ret row → 0 ≤ i ∧ weight !! Z.to_nat i = Some row.
Proof.
  unfold embedding_row. destruct (Z.ltb_spec i 0); [done|].
  destruct (weight !! Z.to_nat i); [|done]. by intros [= ->].
Qed.

Lemma mapM_rows_at weight idv rows :
  mapM (embedding_row weight) idv = Ret rows → rows_at weight idv rows.
Proof.
  intros Hall%mapM_Ret. eapply Forall2_impl; [exact Hall|].
  intros i row. apply embedding_row_Ret.
Qed.

Lemma select_ids_value fixed_id σ ids σ1 l idv :
  inputs σ !! "id" = Some l →
  heap σ !! l = Some (TLong idv) →
  select_ids fixed_id σ = Ret (ids, σ1) →
  heap σ1 !! ids = Some (TLong (selected_ids fixed_id idv)) ∧ allocates σ σ1.
Proof.
  intros Hl Hidv Hsel. split; [|by eapply select_ids_spec].
  revert Hsel. unfold select_ids, selected_ids. destruct (truthy fixed_id).
  - intros (id & σ0 & [Hid ->]%get_input_spec & Hrest)%bind_Ret.
    apply bind_Ret in Hrest as (t & σ0 & [Ht ->]%deref_spec & Hrest).
    apply alloc_spec in Hrest as (_ & -> & _). simplify_eq.
    by rewrite lookup_insert_eq.
  - intros [Hid ->]%get_input_spec. by simplify_eq.
Qed.

(** The rows that a substitution binds under [key]. *)
Lemma substitute_value (params : gmap string (list (list Q))) key ids σ σ' :
  (weight ← lift (getitem params key);
   v ← embedding weight ids;
   set_input key v) σ = Ret ((), σ') →
  ∃ weight idv rows v,
    params !! key = Some weight
    ∧ heap σ !! ids = Some (TLong idv)
    ∧ mapM (embedding_row weight) idv = Ret rows
    ∧ heap σ !! v = None
    ∧ inputs σ' !! key = Some v
    ∧ heap σ' !! v = Some (TMat rows)
    ∧ frame [key] [] σ σ'.
Proof.
  intros (w & σ1 & [Hw ->]%lift_Ret & Hrest)%bind_Ret.
  apply bind_Ret in Hrest as (v & σ1 & Hemb & Hset).
  apply embedding_spec in Hemb as (idv & rows & Hidv & Hrows & Hv & Hheap & Hsub & Hin & Htg).
  unfold set_input in Hset. injection Hset as Hσ'; subst σ'. simpl.
  exists w, idv, rows, v. split_and!; try done.
  - unfold getitem in Hw. by destruct (params !! key); simplify_eq.
  - apply lookup_insert_eq.
  - by rewrite Hheap, lookup_insert_eq.
  - split_and!; simpl; [done| |by rewrite Htg].
    intros k [? _]%not_elem_of_cons. rewrite lookup_insert_ne by done. by rewrite Hin.
Qed.

Lemma supervised_value (params : gmap string (list (list Q))) key ids σ σ' :
  supervised_phase params ids true key σ = Ret ((), σ') →
  ∃ weight idv rows v,
    params !! key = Some weight
    ∧ heap σ !! ids = Some (TLong idv)
    ∧ mapM (embedding_row weight) idv = Ret rows
    ∧ heap σ !! v = None
    ∧ inputs σ' !! key = Some v
    ∧ heap σ' !! v = Some (TMat rows).
Proof.
  unfold supervised_phase.
  intros (old & σ1 & [Hold ->]%get_input_spec & Hrest)%bind_Ret.
  apply bind_Ret in Hrest as ([] & σ1 & Htg & Hrest).
  unfold set_target in Htg. injection Htg as Hσ1; subst σ1.
  apply substitute_value in Hrest
    as (w & idv & rows & v & ? & ? & ? & ? & ? & ? & _).
  by exists w, idv, rows, v.
Qed.

Lemma supervised_phase_frame (params : gmap string (list (list Q))) flag key ids σ σ' :
  supervised_phase params ids flag key σ = Ret ((), σ') → frame [key] [key] σ σ'.
Proof. apply supervise_frame. Qed.

Lemma latent_phase_frame cfg (params : gmap string (list (list Q))) ids σ σ' :
  latent_phase cfg params ids σ = Ret ((), σ') → frame ["frame_latent"] [] σ σ'.
Proof. apply latent_spec. Qed.

(** What the camera phase does to the store. *)
Lemma camera_phase_spec cfg (params : gmap string (list (list Q))) ids σ σ' :
  camera_phase cfg params ids σ = Ret ((), σ') →
  if optimize_camera cfg then
    ∃ dst c s c' v weight idv,
      inputs σ !! "extrinsic" = Some dst
      ∧ heap σ !! dst = Some (TCube c)
      ∧ heap σ !! v = None
      ∧ params !! "cam_trans" = Some weight
      ∧ heap σ !! ids = Some (TLong idv)
      ∧ mapM (embedding_row weight) idv = Ret s
      ∧ setitem_translation c s = Ret c'
      ∧ heap σ' = <[dst := TCube c']> (<[v := TMat s]> (heap σ))
      ∧ inputs σ' = inputs σ
      ∧ targets σ' = <["extrinsic" := dst]> (targets σ)
  else σ' = σ.
Proof.
  unfold camera_phase. destruct (optimize_camera cfg); [|by intros [= <-]].
  intros (old & σ1 & [Hold ->]%get_input_spec & Hrest)%bind_Ret.
  apply bind_Ret in Hrest as ([] & σ1 & Htg & Hrest).
  unfold set_target in Htg. injection Htg as Hσ1; subst σ1.
  apply bind_Ret in Hrest as (w & σ2 & [Hw ->]%lift_Ret & Hrest).
  apply bind_Ret in Hrest as (v & σ2 & Hemb & Hrest).
  apply embedding_spec in Hemb as (idv & rows & Hidv & Hrows & Hv & Hheap & _ & Hin & Htg).
  apply bind_Ret in Hrest as (dst & σ3 & [Hdst ->]%get_input_spec & Hrest).
  apply bind_Ret in Hrest as (s & σ3 & [Hs ->]%deref_spec & Hrest).
  apply bind_Ret in Hrest as (c & σ3 & [Hc ->]%deref_spec & Hrest).
  simpl in *. rewrite Hin in Hdst. simplify_eq.
  rewrite Hheap, lookup_insert_eq in Hs. simplify_eq.
  destruct c as [| |c]; [done..|].
  apply bind_Ret in Hrest as (c' & σ3 & [Hc' ->]%lift_Ret & Hrest).
  unfold assign in Hrest. injection Hrest as Hσ'; subst σ'. simpl.
  assert (v ≠ old) as Hne.
  { intros ->. rewrite Hheap, lookup_insert_eq in Hc. done. }
  rewrite Hheap, lookup_insert_ne in Hc by done.
  exists old, c, rows, c', v, w, idv. rewrite Hheap, Hin, Htg.
  split_and!; try done.
  unfold getitem in Hw. by destruct (params !! "cam_trans"); simplify_eq.
Qed.

(** The five steps of a call that returns. *)
Lemma replace_optimizable_inputs_steps cfg params fixed_id σ σ' :
  replace_optimizable_inputs cfg params fixed_id σ = Ret ((), σ') →
  ∃ ids σ1 σ2 σ3 σ4,
    select_ids fixed_id σ = Ret (ids, σ1)
    ∧ latent_phase cfg params ids σ1 = Ret ((), σ2)
    ∧ supervised_phase params ids (optimize_expression cfg) "expression" σ2 = Ret ((), σ3)
    ∧ supervised_phase params ids (optimize_pose cfg) "pose" σ3 = Ret ((), σ4)
    ∧ camera_phase cfg params ids σ4 = Ret ((), σ').
Proof.
  rewrite replace_optimizable_inputs_phases.
  intros (ids & σ1 & Hids & Hrest)%bind_Ret.
  apply bind_Ret in Hrest as ([] & σ2 & Hlat & Hrest).
  apply bind_Ret in Hrest as ([] & σ3 & Hexp & Hrest).
  apply bind_Ret in Hrest as ([] & σ4 & Hpose & Hcam).
  by exists ids, σ1, σ2, σ3, σ4.
Qed.

Lemma frame_keeps_input ins tgs σ σ' key :
  frame ins tgs σ σ' → bool_decide (key ∉ ins) = true →
  inputs σ' !! key = inputs σ !! key.
Proof. intros (_ & Hin & _) Hk. by apply Hin, not_in_keys. Qed.

Lemma frame_keeps_object ins tgs σ σ' l t :
  frame ins tgs σ σ' → heap σ !! l = Some t → heap σ' !! l = Some t.
Proof. intros (Hsub & _ & _) Hl. by eapply lookup_weaken. Qed.

(** The camera phase leaves every object but the extrinsic as it was. *)
Lemma camera_phase_keeps cfg (params : gmap string (list (list Q))) ids σ σ' l t :
  camera_phase cfg params ids σ = Ret ((), σ') →
  heap σ !! l = Some t →
  inputs σ !! "extrinsic" ≠ Some l →
  heap σ' !! l = Some t ∧ inputs σ' = inputs σ.
Proof.
  intros Hcam%camera_phase_spec Hl Hne. destruct (optimize_camera cfg).
  - destruct Hcam as (dst & c & s & c' & v & ? & ? & Hdst & _ & Hv & _ & _ & _ & _ & Hheap & Hin & _).
    split; [|done]. rewrite Hheap, !lookup_insert_ne; [done|congruence|congruence].
  - by subst σ'.
Qed.

(** The steps before the camera phase, together. *)
Lemma before_camera_frame cfg params fixed_id σ ids σ1 σ2 σ3 σ4 :
  select_ids fixed_id σ = Ret (ids, σ1) →
  latent_phase cfg params ids σ1 = Ret ((), σ2) →
  supervised_phase params ids (optimize_expression cfg) "expression" σ2 = Ret ((), σ3) →
  supervised_phase params ids (optimize_pose cfg) "pose" σ3 = Ret ((), σ4) →
  frame ["frame_latent"; "expression"; "pose"] ["expression"; "pose"] σ σ4.
Proof.
  intros Hids%select_ids_spec%(allocates_frame [] []) Hlat%latent_phase_frame
    Hexp%supervised_phase_frame Hpose%supervised_phase_frame.
  exact (frame_trans _ _ _ _ _ _ _
           (frame_trans _ _ _ _ _ _ _
              (frame_trans _ _ _ _ _ _ _ Hids Hlat) Hexp) Hpose).
Qed.

(** The call writes into one object only, the extrinsic tensor; it
    rebinds at most [frame_latent], [expression] and [pose] in [inputs] and
    [expression], [pose] and [extrinsic] in [targets]. In particular
    [inputs['id']] and the dataset tensors of the expression and the pose
    are as before. *)
Theorem substitution_writes_only_the_extrinsic cfg params fixed_id σ σ' :
  replace_optimizable_inputs cfg params fixed_id σ = Ret ((), σ') →
  (∀ l t, heap σ !! l = Some t → inputs σ !! "extrinsic" ≠ Some l →
          heap σ' !! l = Some t)
  ∧ (∀ key, key ∉ ["frame_latent"; "expression"; "pose"] →
            inputs σ' !! key = inputs σ !! key)
  ∧ (∀ key, key ∉ ["expression"; "pose"; "extrinsic"] →
            targets σ' !! key = targets σ !! key).
Proof.
  intros (ids & σ1 & σ2 & σ3 & σ4 & Hids & Hlat & Hexp & Hpose & Hcam)%replace_optimizable_inputs_steps.
  pose proof (before_camera_frame _ _ _ _ _ _ _ _ _ Hids Hlat Hexp Hpose)
    as (Hsub & Hin & Htg).
  split_and!.
  - intros l t Hl Hne.
    eapply (camera_phase_keeps _ _ _ _ _ l t Hcam); [by eapply lookup_weaken|].
    rewrite Hin; [done|]. by apply not_in_keys.
  - intros key Hkey. apply camera_phase_spec in Hcam.
    destruct (optimize_camera cfg).
    + destruct Hcam as (? & ? & ? & ? & ? & ? & ? & _ & _ & _ & _ & _ & _ & _ & _ & Hin' & _).
      rewrite Hin'. by apply Hin.
    + subst σ'. by apply Hin.
  - intros key Hkey. apply camera_phase_spec in Hcam.
    apply not_elem_of_cons in Hkey as [He Hkey].
    apply not_elem_of_cons in Hkey as [Hp Hkey].
    apply not_elem_of_cons in Hkey as [Hk2 _].
    assert (Hk1 : key ∉ ["expression"; "pose"]).
    { apply not_elem_of_cons. split; [done|].
      apply not_elem_of_cons. split; [done|]. apply not_elem_of_nil. }
    destruct (optimize_camera cfg).
    + destruct Hcam as (? & ? & ? & ? & ? & ? & ? & _ & _ & _ & _ & _ & _ & _ & _ & _ & Htg').
      rewrite Htg', lookup_insert_ne by done. by apply Htg.
    + subst σ'. by apply Htg.
Qed.

Lemma substitution_writes_only_the_extrinsic_witness :
  ∃ σ',
    replace_optimizable_inputs (cfg_flags true true true true) input_params1 None batch1
    = Ret ((), σ')
    ∧ (∀ l t, heap batch1 !! l = Some t → inputs batch1 !! "extrinsic" ≠ Some l →
              heap σ' !! l = Some t)
    ∧ (∀ key, key ∉ ["frame_latent"; "expression"; "pose"] →
              inputs σ' !! key = inputs batch1 !! key)
    ∧ (∀ key, key ∉ ["expression"; "pose"; "extrinsic"] →
              targets σ' !! key = targets batch1 !! key).
Proof.
  destruct (replace_optimizable_inputs (cfg_flags true true true true)
              input_params1 None batch1) as [[[] σ']|] eqn:Hrun;
    [|by vm_compute in Hrun].
  exists σ'. split; [reflexivity|].
  exact (substitution_writes_only_the_extrinsic _ _ _ _ _ Hrun).
Defined.

(** With the flag of [frame_latent], [expression] or [pose] set, the call
    leaves under that key of [inputs] a new tensor whose rows are the rows
    of the table at the selected ids: the ids of the batch, or the constant
    [fixed_id] when it is given and not 0. *)
Theorem substituted_input_holds_table_rows cfg params fixed_id σ σ' key l idv :
  flag_of cfg key = true →
  inputs σ !! "id" = Some l →
  heap σ !! l = Some (TLong idv) →
  refs_allocated σ →
  replace_optimizable_inputs cfg params fixed_id σ = Ret ((), σ') →
  ∃ weight rows,
    params !! key = Some weight
    ∧ rows_at weight (selected_ids fixed_id idv) rows
    ∧ value_of σ' (inputs σ') key = Some (TMat rows).
Proof.
  intros Hflag Hl Hidv Hrefs
    (ids & σ1 & σ2 & σ3 & σ4 & Hids & Hlat & Hexp & Hpose & Hcam)%replace_optimizable_inputs_steps.
  destruct (select_ids_value _ _ _ _ _ _ Hl Hidv Hids) as [Hsel (Hsub1 & _ & _)].
  pose proof (before_camera_frame _ _ _ _ _ _ _ _ _ Hids Hlat Hexp Hpose) as Hall.
  pose proof (latent_phase_frame _ _ _ _ _ Hlat) as Hf12.
  pose proof (supervised_phase_frame _ _ _ _ _ _ Hexp) as Hf23.
  pose proof (supervised_phase_frame _ _ _ _ _ _ Hpose) as Hf34.
  assert (Htail : ∀ v t, inputs σ4 !! key = Some v → heap σ4 !! v = Some t →
                         heap σ !! v = None →
                         value_of σ' (inputs σ') key = Some t).
  { intros v t Hk Hv Hfresh.
    destruct (camera_phase_keeps _ _ _ _ _ v t Hcam Hv) as [Hv' Hin'].
    - rewrite (frame_keeps_input _ _ _ _ "extrinsic" Hall) by done.
      intros Hx. destruct (Hrefs _ _ Hx) as [? ?]. congruence.
    - unfold value_of. rewrite Hin', Hk. done. }
  unfold flag_of in Hflag. repeat case_bool_decide; subst.
  - unfold latent_phase in Hlat. rewrite Hflag in Hlat.
    apply substitute_value in Hlat
      as (w & idv' & rows & v & Hw & Hidv' & Hrows & Hv & Hkv & Hvt & _).
    rewrite Hsel in Hidv'. simplify_eq.
    exists w, rows. split_and!; [done|by apply mapM_rows_at|].
    apply (Htail v).
    + rewrite (frame_keeps_input _ _ _ _ "frame_latent" Hf34) by done.
      by rewrite (frame_keeps_input _ _ _ _ "frame_latent" Hf23).
    + eapply frame_keeps_object; [exact Hf34|]. by eapply frame_keeps_object.
    + by eapply lookup_weaken_None.
  - rewrite Hflag in Hexp.
    apply supervised_value in Hexp
      as (w & idv' & rows & v & Hw & Hidv' & Hrows & Hv & Hkv & Hvt).
    rewrite (frame_keeps_object _ _ _ _ _ _ Hf12 Hsel) in Hidv'. simplify_eq.
    exists w, rows. split_and!; [done|by apply mapM_rows_at|].
    apply (Htail v).
    + by rewrite (frame_keeps_input _ _ _ _ "expression" Hf34).
    + by eapply frame_keeps_object.
    + destruct Hf12 as (Hsub2 & _ & _).
      eapply lookup_weaken_None; [|exact Hsub1]. by eapply lookup_weaken_None.
  - rewrite Hflag in Hpose.
    apply supervised_value in Hpose
      as (w & idv' & rows & v & Hw & Hidv' & Hrows & Hv & Hkv & Hvt).
    rewrite (frame_keeps_object _ _ _ _ _ _ Hf23
               (frame_keeps_object _ _ _ _ _ _ Hf12 Hsel)) in Hidv'. simplify_eq.
    exists w, rows. split_and!; [done|by apply mapM_rows_at|].
    apply (Htail v); [done..|].
    destruct Hf12 as (Hsub2 & _ & _), Hf23 as (Hsub3 & _ & _).
    eapply lookup_weaken_None; [|exact Hsub1].
    eapply lookup_weaken_None; [|exact Hsub2]. by eapply lookup_weaken_None.
  - done.
Qed.

Lemma batch1_refs_allocated : refs_allocated batch1.
Proof.
  intros key l Hkey. unfold batch1 in Hkey. simpl in Hkey.
  repeat (apply lookup_insert_Some in Hkey as [[_ <-]|[_ Hkey]];
          [by vm_compute; eauto|]).
  by rewrite lookup_empty in Hkey.
Qed.

Lemma substituted_input_holds_table_rows_witness :
  ∃ σ' weight rows,
    replace_optimizable_inputs (cfg_flags true true true true) input_params1
      (Some 1) batch1 = Ret ((), σ')
    ∧ input_params1 !! "pose" = Some weight
    ∧ rows_at weight (selected_ids (Some 1) [2; 0]) rows
    ∧ value_of σ' (inputs σ') "pose" = Some (TMat rows).
Proof.
  destruct (replace_optimizable_inputs (cfg_flags true true true true)
              input_params1 (Some 1) batch1) as [[[] σ']|] eqn:Hrun;
    [|by vm_compute in Hrun].
  destruct (substituted_input_holds_table_rows (cfg_flags true true true true)
              input_params1 (Some 1) batch1 σ' "pose" 1%positive [2; 0])
    as (weight & rows & ? & ? & ?);
    [reflexivity | reflexivity | reflexivity | exact batch1_refs_allocated
    | exact Hrun |].
  by exists σ', weight, rows.
Defined.

Lemma broadcast_same {A} (n : nat) (l : list A) :
  length l = n → broadcast n l = Ret l.
Proof. intros Hn. unfold broadcast. by rewrite decide_True. Qed.

(** [m[:3, 3] = t] with three values puts them into column 3 of the first
    three rows. *)
Lemma set_translation_value m t m' (i : nat) :
  set_translation m t = Ret m' →
  length t = 3%nat → (3 ≤ length m)%nat → (i < 3)%nat →
  (m' !! i ≫= (.!! 3%nat)) = t !! i.
Proof.
  unfold set_translation. intros Hset Ht Hm Hi.
  destruct (forallb _ _) eqn:Hcols; [|done].
  rewrite broadcast_same in Hset by (rewrite length_take; lia).
  simpl in Hset. injection Hset as <-.
  rewrite list_lookup_imap.
  destruct (lookup_lt_is_Some_2 m i) as [row Hrow]; [lia|].
  destruct (lookup_lt_is_Some_2 t i) as [v Hv]; [lia|].
  rewrite Hrow, Hv. simpl. apply list_lookup_insert_eq.
  assert (Hin : row ∈ take 3 m).
  { apply list_elem_of_lookup. exists i. by rewrite lookup_take_lt. }
  rewrite forallb_forall in Hcols. apply list_elem_of_In, Hcols in Hin.
  by apply Nat.ltb_lt in Hin.
Qed.

Lemma setitem_translation_value c s c' (b i : nat) t :
  setitem_translation c s = Ret c' →
  length s = length c →
  Forall (λ m : list (list Q), (3 ≤ length m)%nat) c →
  s !! b = Some t → length t = 3%nat → (i < 3)%nat →
  entry c' b i 3 = t !! i.
Proof.
  unfold setitem_translation, entry. intros Hset Hlen Hrows Ht Hlt Hi.
  rewrite broadcast_same in Hset by done. simpl in Hset.
  apply mapM_Ret in Hset.
  destruct (lookup_lt_is_Some_2 c b) as [m Hm].
  { rewrite <- Hlen. by eapply lookup_lt_Some. }
  assert (Hmt : zip c s !! b = Some (m, t)).
  { apply lookup_zip_with_Some. by exists m, t. }
  destruct (Forall2_lookup_l _ _ _ _ _ Hset Hmt) as (m' & -> & Hm').
  simpl in *. apply (set_translation_value m t m' i Hm' Hlt); [|done].
  by eapply (Forall_lookup_1 _ _ _ _ Hrows).
Qed.

Lemma rows_at_length weight idv rows : rows_at weight idv rows → length rows = length idv.
Proof. intros Hall. symmetry. by eapply Forall2_length. Qed.

Lemma rows_at_width weight idv rows (n : nat) :
  Forall (λ row : list Q, length row = n) weight →
  rows_at weight idv rows →
  Forall (λ row : list Q, length row = n) rows.
Proof.
  intros Hw Hall. apply Forall_forall. intros row [b Hb]%list_elem_of_lookup.
  destruct (Forall2_lookup_r _ _ _ _ _ Hall Hb) as (i & _ & _ & Hi).
  by eapply (Forall_lookup_1 _ _ _ _ Hw).
Qed.

Lemma selected_ids_length fixed_id idv :
  length (selected_ids fixed_id idv) = length idv.
Proof. unfold selected_ids. destruct (truthy fixed_id); [|done]. apply length_replicate. Qed.

(** With camera optimization enabled, a table of translations of width 3
    and a batch of extrinsics with as many frames as ids, the translation
    column [[b, :3, 3]] of the extrinsic after the call is the row of the
    table at the selected id of frame [b]. *)
Theorem camera_translation_is_learned cfg params fixed_id σ σ' l idv dst c weight :
  optimize_camera cfg = true →
  inputs σ !! "id" = Some l →
  heap σ !! l = Some (TLong idv) →
  inputs σ !! "extrinsic" = Some dst →
  heap σ !! dst = Some (TCube c) →
  params !! "cam_trans" = Some weight →
  length idv = length c →
  Forall (λ m : list (list Q), (3 ≤ length m)%nat) c →
  Forall (λ row : list Q, length row = 3%nat) weight →
  replace_optimizable_inputs cfg params fixed_id σ = Ret ((), σ') →
  ∃ c' rows,
    heap σ' !! dst = Some (TCube c')
    ∧ rows_at weight (selected_ids fixed_id idv) rows
    ∧ ∀ (b i : nat) row, rows !! b = Some row → (i < 3)%nat →
        entry c' b i 3 = row !! i.
Proof.
  intros Hflag Hl Hidv Hdst Hc Hw Hlen Hrows Hwidth
    (ids & σ1 & σ2 & σ3 & σ4 & Hids & Hlat & Hexp & Hpose & Hcam)%replace_optimizable_inputs_steps.
  destruct (select_ids_value _ _ _ _ _ _ Hl Hidv Hids) as [Hsel (Hsub1 & _ & _)].
  pose proof (before_camera_frame _ _ _ _ _ _ _ _ _ Hids Hlat Hexp Hpose) as Hall.
  pose proof (latent_phase_frame _ _ _ _ _ Hlat) as Hf12.
  pose proof (supervised_phase_frame _ _ _ _ _ _ Hexp) as Hf23.
  pose proof (supervised_phase_frame _ _ _ _ _ _ Hpose) as Hf34.
  apply camera_phase_spec in Hcam. rewrite Hflag in Hcam.
  destruct Hcam as (dst' & c0 & s & c' & v & w & idv' & Hdst' & Hc0 & Hv & Hw' & Hidv'
                    & Hs & Hset & Hheap & _ & _).
  rewrite (frame_keeps_input _ _ _ _ "extrinsic" Hall), Hdst in Hdst' by done.
  injection Hdst' as <-.
  rewrite (frame_keeps_object _ _ _ _ _ _ Hall Hc) in Hc0.
  rewrite (frame_keeps_object _ _ _ _ _ _ Hf34
             (frame_keeps_object _ _ _ _ _ _ Hf23
                (frame_keeps_object _ _ _ _ _ _ Hf12 Hsel))) in Hidv'.
  simplify_eq. apply mapM_rows_at in Hs.
  exists c', s. split_and!; [by rewrite Hheap, lookup_insert_eq|done|].
  intros b i row Hb Hi.
  apply (setitem_translation_value c0 s c' b i row Hset); try done.
  - by rewrite (rows_at_length _ _ _ Hs), selected_ids_length.
  - eapply (Forall_lookup_1 _ _ _ _ (rows_at_width _ _ _ _ Hwidth Hs)). exact Hb.
Qed.

Lemma camera_translation_is_learned_witness :
  ∃ σ' c' rows,
    replace_optimizable_inputs (cfg_flags true true true true) input_params1
      None batch1 = Ret ((), σ')
    ∧ heap σ' !! 2%positive = Some (TCube c')
    ∧ rows_at [[1; 2; 3]; [4; 5; 6]; [7; 8; 9]]%Q (selected_ids None [2; 0]) rows
    ∧ ∀ (b i : nat) row, rows !! b = Some row → (i < 3)%nat →
        entry c' b i 3 = row !! i.
Proof.
  destruct (replace_optimizable_inputs (cfg_flags true true true true)
              input_params1 None batch1) as [[[] σ']|] eqn:Hrun;
    [|by vm_compute in Hrun].
  destruct (camera_translation_is_learned (cfg_flags true true true true)
              input_params1 None batch1 σ' 1%positive [2; 0] 2%positive
              dataset_extrinsic [[1; 2; 3]; [4; 5; 6]; [7; 8; 9]]%Q)
    as (c' & rows & ? & ? & ?);
    [reflexivity | reflexivity | reflexivity | reflexivity | reflexivity
    | reflexivity | reflexivity
    | repeat constructor; simpl; lia
    | repeat constructor
    | exact Hrun |].
  by exists σ', c', rows.
Defined.

Lemma expression_target_is_dataset_value_witness :
  ∃ σ',
    replace_optimizable_inputs (cfg_flags true true true true) input_params1
      None batch1 = Ret ((), σ')
    ∧ value_of σ' (targets σ') "expression" = Some (TMat dataset_expression).
Proof.
  destruct (replace_optimizable_inputs (cfg_flags true true true true)
              input_params1 None batch1) as [[[] σ']|] eqn:Hrun;
    [|by vm_compute in Hrun].
  exists σ'. split; [reflexivity|].
  apply (expression_target_is_dataset_value (cfg_flags true true true true)
           input_params1 None batch1 σ' (TMat dataset_expression)).
  - reflexivity.
  - reflexivity.
  - intros _. vm_compute. discriminate.
  - exact Hrun.
Defined.

Lemma pose_target_is_dataset_value_witness :
  ∃ σ',
    replace_optimizable_inputs (cfg_flags true true true true) input_params1
      None batch1 = Ret ((), σ')
    ∧ value_of σ' (targets σ') "pose" = Some (TMat [[1; 1; 1]; [2; 2; 2]]%Q).
Proof.
  destruct (replace_optimizable_inputs (cfg_flags true true true true)
              input_params1 None batch1) as [[[] σ']|] eqn:Hrun;
    [|by vm_compute in Hrun].
  exists σ'. split; [reflexivity|].
  apply (pose_target_is_dataset_value (cfg_flags true true true true)
           input_params1 None batch1 σ' (TMat [[1; 1; 1]; [2; 2; 2]]%Q)).
  - reflexivity.
  - reflexivity.
  - intros _. vm_compute. discriminate.
  - exact Hrun.
Defined.

Lemma camera_target_is_the_input_object_witness :
  ∃ σ',
    replace_optimizable_inputs (cfg_flags true true true true) input_params1
      None batch1 = Ret ((), σ')
    ∧ is_Some (inputs σ' !! "extrinsic")
    ∧ targets σ' !! "extrinsic" = inputs σ' !! "extrinsic".
Proof.
  destruct (replace_optimizable_inputs (cfg_flags true true true true)
              input_params1 None batch1) as [[[] σ']|] eqn:Hrun;
    [|by vm_compute in Hrun].
  exists σ'. split; [reflexivity|].
  apply (camera_target_is_the_input_object (cfg_flags true true true true)
           input_params1 None batch1 σ').
  - reflexivity.
  - exact Hrun.
Defined.









End SubstitutionFacts.

(** ** The tables of the optimizable inputs at initialization *)

Section InitFacts.
Import Inputs Substitution Init.

Lemma built_bind_Built {A B} (m : built A) (f : A → built B) (b : B) :
  m ≫= f = Built b → ∃ a, m = Built a ∧ f a = Built b.
Proof. unfold mbind, built_bind. destruct m as [a|]; [|done]. by exists a. Qed.

Lemma mapM_Built {A B} (f : A → built B) (l : list A) (k : list B) :
  mapM f l = Built k ↔ Forall2 (λ x y, f x = Built y) l k.
Proof.
  split.
  - revert k. induction l as [|x l IH]; intros k; simpl.
    + intros [= <-]. constructor.
    + unfold mbind, built_bind. destruct (f x) as [y|] eqn:Hy; [|done].
      destruct (mapM f l) as [k'|] eqn:Hk; [|done].
      intros [= <-]. constructor; [done|]. by apply IH.
  - induction 1 as [|x y l k Hxy _ IH]; [done|].
    change (mapM f (x :: l)) with (y' ← f x; k' ← mapM f l; mret (y' :: k')).
    by rewrite Hxy, IH.
Qed.

Lemma translation_of_column3 (m : list (list Q)) (row : list Q) :
  translation_of m = Built row ↔ column3 m = Some row.
Proof.
  unfold translation_of, column3. rewrite mapM_Built, mapM_Some.
  split; intros Hall; (eapply Forall2_impl; [exact Hall|]);
    intros r v; simpl; destruct (r !! 3%nat); intros Heq; by simplify_eq.
Qed.

Lemma column3_total (m : list (list Q)) :
  (3 ≤ length m)%nat →
  Forall (λ row : list Q, (3 < length row)%nat) m →
  ∃ row, column3 m = Some row ∧ length row = 3%nat.
Proof.
  intros Hrows Hcols.
  assert (Hall : Forall (λ r : list Q, is_Some (r !! 3%nat)) (take 3 m)).
  { apply Forall_take. eapply Forall_impl; [exact Hcols|].
    intros r Hr. by apply lookup_lt_is_Some_2. }
  assert (Hex : ∃ row, Forall2 (λ (r : list Q) v, r !! 3%nat = Some v) (take 3 m) row).
  { induction Hall as [|r rs [v Hv] _ [row IH]]; [by exists []|].
    exists (v :: row). by constructor. }
  destruct Hex as [row Hrow]. exists row. split.
  - unfold column3. by apply mapM_Some.
  - rewrite <- (Forall2_length _ _ _ Hrow), length_take. lia.
Qed.

Lemma translations_total (init_extrinsic : list (list (list Q))) :
  Forall (λ m : list (list Q),
            (3 ≤ length m)%nat
            ∧ Forall (λ row : list Q, (3 < length row)%nat) m) init_extrinsic →
  ∃ t, translations init_extrinsic = Built t
    ∧ Forall2 (λ m row, column3 m = Some row) init_extrinsic t
    ∧ Forall (λ row : list Q, length row = 3%nat) t.
Proof.
  intros Hall. unfold translations.
  induction Hall as [|m ms [Hrows Hcols] _ (t & Hrun & Hcol & Hlen)].
  - exists []. by repeat constructor.
  - destruct (column3_total m Hrows Hcols) as (row & Hrow & Hlen3).
    exists (row :: t). split_and!; [|by constructor..].
    change (mapM translation_of (m :: ms))
      with (y ← translation_of m; k ← mapM translation_of ms; mret (y :: k)).
    by rewrite (proj2 (translation_of_column3 m row) Hrow), Hrun.
Qed.

Lemma forallb_Forall {A} (f : A → bool) (l : list A) :
  forallb f l = true ↔ Forall (λ x, f x = true) l.
Proof.
  induction l as [|x l IH]; simpl.
  - split; [constructor|done].
  - by rewrite andb_true_iff, IH, Forall_cons.
Qed.

Lemma has_shape_spec (num : nat) (dim : Z) (weight : list (list Q)) :
  has_shape num dim weight = true
  ↔ length weight = num
    ∧ Forall (λ row : list Q, Z.of_nat (length row) = dim) weight.
Proof.
  unfold has_shape. rewrite andb_true_iff, bool_decide_eq_true, forallb_Forall.
  split; intros [Hn Hw]; (split; [done|]); (eapply Forall_impl; [exact Hw|]);
    intros row; simpl; apply Z.eqb_eq.
Qed.

Lemma has_shape_intro (num : nat) (dim : Z) (weight : list (list Q)) :
  length weight = num →
  Forall (λ row : list Q, Z.of_nat (length row) = dim) weight →
  has_shape num dim weight = true.
Proof. intros Hn Hw. by apply has_shape_spec. Qed.

Lemma has_shape_elim (num : nat) (dim : Z) (weight : list (list Q)) :
  has_shape num dim weight = true →
  length weight = num
  ∧ Forall (λ row : list Q, Z.of_nat (length row) = dim) weight.
Proof. apply has_shape_spec. Qed.

Lemma zip_with_padding (dim_expression : Z) (init_exp : list (list Q)) :
  zip_with app init_exp
    (replicate (length init_exp) (replicate (Z.to_nat (dim_expression - 50)) 0%Q))
  = padded dim_expression <$> init_exp.
Proof. induction init_exp as [|row rows IH]; [done|]. simpl. by rewrite IH. Qed.

Lemma built_bind_Built_l {A B} (a : A) (f : A → built B) : Built a ≫= f = f a.
Proof. done. Qed.

(** The expression branch (lines 141-149) on well-shaped input. *)
Lemma expression_table (num : nat) (dim_expression : Z) (init_exp : list (list Q))
    (input_params : gmap string (list (list Q))) :
  length init_exp = num →
  Forall (λ row : list Q, length row = 50%nat) init_exp →
  50 ≤ dim_expression →
  (z ← zeros (length init_exp) (dim_expression - 50);
   init_exp' ← cat_columns init_exp z;
   expression ← embedding_from num dim_expression init_exp';
   Built (<["expression" := expression]> input_params))
  = Built (<["expression" := padded dim_expression <$> init_exp]> input_params).
Proof.
  intros Hn Hw Hdim. unfold zeros.
  destruct (Z.ltb_spec (dim_expression - 50) 0) as [|_]; [lia|].
  rewrite built_bind_Built_l. unfold cat_columns.
  rewrite decide_True by (by rewrite length_replicate).
  rewrite built_bind_Built_l, zip_with_padding.
  unfold embedding_from. rewrite has_shape_intro; [done|by rewrite length_fmap|].
  apply Forall_fmap. eapply Forall_impl; [exact Hw|].
  intros row Hrow. simpl. unfold padded.
  rewrite length_app, length_replicate, Hrow. lia.
Qed.

(** With well-shaped tracked parameters and [dim_expression >= 50], lines
    133-157 do not fail, and every table that is built starts from the
    tracked values: the expression rows are the tracked rows followed by
    [dim_expression - 50] zeros, the pose rows are the tracked poses, and
    the camera rows are the translation columns [[:3, 3]] of the tracked
    extrinsics. *)
Theorem tables_start_from_tracked_parameters (cfg : config) (num : nat)
    (dim_expression : Z) (frame_latent init_exp init_pose : list (list Q))
    (init_extrinsic : list (list (list Q))) :
  tracked_ok num init_exp init_pose init_extrinsic →
  50 ≤ dim_expression →
  ∃ params,
    build_input_params cfg num dim_expression frame_latent init_exp init_pose
      init_extrinsic = Built params
    ∧ (optimize_latent cfg = true → params !! "frame_latent" = Some frame_latent)
    ∧ (optimize_expression cfg = true →
       params !! "expression" = Some (padded dim_expression <$> init_exp))
    ∧ (optimize_pose cfg = true → params !! "pose" = Some init_pose)
    ∧ (optimize_camera cfg = true →
       ∃ t, params !! "cam_trans" = Some t
         ∧ Forall2 (λ m row, column3 m = Some row) init_extrinsic t).
Proof.
  intros (Hne & Hwe & Hnp & Hwp & Hnx & Hwx) Hdim.
  pose proof (λ p, expression_table num dim_expression init_exp p Hne Hwe Hdim) as Hexp.
  assert (Hpose : embedding_from num 15 init_pose = Built init_pose).
  { unfold embedding_from. rewrite has_shape_intro; [done..|].
    eapply Forall_impl; [exact Hwp|]. intros row Hrow. simpl in *. lia. }
  destruct (translations_total init_extrinsic Hwx) as (t & Ht & Hcol & Hlen).
  assert (Hcam : embedding_from num 3 t = Built t).
  { unfold embedding_from. rewrite has_shape_intro; [done| |].
    - by rewrite <- (Forall2_length _ _ _ Hcol).
    - eapply Forall_impl; [exact Hlen|]. intros row Hrow. simpl in *. lia. }
  unfold build_input_params, optimize_inputs.
  destruct (optimize_latent cfg), (optimize_expression cfg), (optimize_pose cfg),
    (optimize_camera cfg); cbv [orb];
    repeat (rewrite ?built_bind_Built_l, ?Hexp, ?Hpose, ?Ht, ?Hcam; cbv beta iota);
    (eexists; split; [reflexivity|]);
    split_and!; intros Hflag; try discriminate Hflag; try (by simplify_map_eq);
    (exists t; split; [by simplify_map_eq|done]).
Qed.

(** [dim_expression] below 50 is not rejected as such: with expression
    optimization on, the construction fails at [torch.zeros], which is
    given a negative size. *)
Theorem expression_dimension_below_50_fails (cfg : config) (num : nat)
    (dim_expression : Z) (frame_latent init_exp init_pose : list (list Q))
    (init_extrinsic : list (list (list Q))) :
  optimize_expression cfg = true →
  dim_expression < 50 →
  build_input_params cfg num dim_expression frame_latent init_exp init_pose
    init_extrinsic = Failed NegativeSize.
Proof.
  intros Hflag Hdim. unfold build_input_params, optimize_inputs, zeros.
  rewrite Hflag, orb_true_r. simpl.
  destruct (Z.ltb_spec (dim_expression - 50) 0) as [_|]; [|lia].
  by destruct (optimize_latent cfg).
Qed.

(** What a successful construction says about the camera table. *)
Lemma build_cam_trans (cfg : config) (num : nat) (dim_expression : Z)
    (frame_latent init_exp init_pose : list (list Q))
    (init_extrinsic : list (list (list Q))) params :
  optimize_camera cfg = true →
  build_input_params cfg num dim_expression frame_latent init_exp init_pose
    init_extrinsic = Built params →
  ∃ t, params !! "cam_trans" = Some t
    ∧ translations init_extrinsic = Built t
    ∧ has_shape num 3 t = true.
Proof.
  intros Hflag. unfold build_input_params, optimize_inputs.
  rewrite Hflag, orb_true_r.
  intros (p1 & _ & Hrest)%built_bind_Built.
  apply built_bind_Built in Hrest as (p2 & _ & Hrest).
  apply built_bind_Built in Hrest as (p3 & _ & Hrest).
  apply built_bind_Built in Hrest as (t & Ht & Hrest).
  apply built_bind_Built in Hrest as (e & He & Hrest).
  injection Hrest as <-. unfold embedding_from in He.
  destruct (has_shape num 3 t) eqn:Hshape; [|done]. injection He as <-.
  exists t. by rewrite lookup_insert_eq.
Qed.

(** Writing into a matrix its own translation column changes nothing. *)
Lemma set_translation_own_column (m : list (list Q)) (row : list Q) :
  column3 m = Some row → length row = 3%nat → set_translation m row = Ret m.
Proof.
  unfold column3. intros Hcol%mapM_Some Hlen.
  pose proof (Forall2_length _ _ _ Hcol) as Hlen3.
  unfold set_translation.
  assert (Hcols : forallb (λ r : list Q, (3 <? length r)%nat) (take 3 m) = true).
  { apply forallb_Forall, Forall_forall. intros r [i Hi]%list_elem_of_lookup.
    destruct (Forall2_lookup_l _ _ _ _ _ Hcol Hi) as (v & _ & Hv).
    apply Nat.ltb_lt. by eapply lookup_lt_Some. }
  rewrite Hcols, broadcast_same by done. simpl. f_equal.
  apply list_eq. intros i. rewrite list_lookup_imap.
  destruct (m !! i) as [r|] eqn:Hr; [|done]. simpl. f_equal.
  destruct (row !! i) as [v|] eqn:Hv; [|done].
  assert (Hi : (i < 3)%nat) by (rewrite <- Hlen; by eapply lookup_lt_Some).
  assert (Hr' : take 3 m !! i = Some r) by (by rewrite lookup_take_lt).
  destruct (Forall2_lookup_l _ _ _ _ _ Hcol Hr') as (v' & Hv' & Hrv).
  rewrite Hv in Hv'. injection Hv' as <-. by apply list_insert_id.
Qed.

Lemma setitem_translation_own_columns (c : list (list (list Q))) (s : list (list Q)) :
  Forall2 (λ m row, column3 m = Some row ∧ length row = 3%nat) c s →
  setitem_translation c s = Ret c.
Proof.
  intros Hall. unfold setitem_translation.
  rewrite broadcast_same by (symmetry; by eapply Forall2_length). simpl.
  induction Hall as [|m row c s [Hcol Hlen] _ IH]; [done|].
  change (mapM ?f (zip (m :: c) (row :: s)))
    with (y ← set_translation m row; k ← mapM f (zip c s); mret (y :: k)).
  by rewrite (set_translation_own_column m row Hcol Hlen), IH.
Qed.

(** The extrinsic after a call with camera optimization on. *)
Lemma substituted_translations cfg params fixed_id σ σ' l idv dst c :
  optimize_camera cfg = true →
  inputs σ !! "id" = Some l →
  heap σ !! l = Some (TLong idv) →
  inputs σ !! "extrinsic" = Some dst →
  heap σ !! dst = Some (TCube c) →
  replace_optimizable_inputs cfg params fixed_id σ = Ret ((), σ') →
  ∃ weight s c',
    params !! "cam_trans" = Some weight
    ∧ rows_at weight (selected_ids fixed_id idv) s
    ∧ setitem_translation c s = Ret c'
    ∧ heap σ' !! dst = Some (TCube c').
Proof.
  intros Hflag Hl Hidv Hdst Hc
    (ids & σ1 & σ2 & σ3 & σ4 & Hids & Hlat & Hexp & Hpose & Hcam)%replace_optimizable_inputs_steps.
  destruct (select_ids_value _ _ _ _ _ _ Hl Hidv Hids) as [Hsel (Hsub1 & _ & _)].
  pose proof (before_camera_frame _ _ _ _ _ _ _ _ _ Hids Hlat Hexp Hpose) as Hall.
  pose proof (latent_phase_frame _ _ _ _ _ Hlat) as Hf12.
  pose proof (supervised_phase_frame _ _ _ _ _ _ Hexp) as Hf23.
  pose proof (supervised_phase_frame _ _ _ _ _ _ Hpose) as Hf34.
  apply camera_phase_spec in Hcam. rewrite Hflag in Hcam.
  destruct Hcam as (dst' & c0 & s & c' & v & w & idv' & Hdst' & Hc0 & Hv & Hw' & Hidv'
                    & Hs & Hset & Hheap & _ & _).
  rewrite (frame_keeps_input _ _ _ _ "extrinsic" Hall), Hdst in Hdst' by done.
  injection Hdst' as <-.
  rewrite (frame_keeps_object _ _ _ _ _ _ Hall Hc) in Hc0.
  rewrite (frame_keeps_object _ _ _ _ _ _ Hf34
             (frame_keeps_object _ _ _ _ _ _ Hf23
                (frame_keeps_object _ _ _ _ _ _ Hf12 Hsel))) in Hidv'.
  simplify_eq. apply mapM_rows_at in Hs.
  exists w, s, c'. split_and!; [done..|]. by rewrite Hheap, lookup_insert_eq.
Qed.

(** Before the first optimizer step the camera substitution is the
    identity: with the table built by lines 154-157 and a batch whose
    extrinsics are the tracked extrinsics of its frames, the extrinsic
    tensor after the call holds the values it held before. *)
Theorem initial_camera_is_the_tracked_camera (cfg : config) (num : nat)
    (dim_expression : Z) (frame_latent init_exp init_pose : list (list Q))
    (init_extrinsic : list (list (list Q))) params σ σ' l idv dst c :
  optimize_camera cfg = true →
  build_input_params cfg num dim_expression frame_latent init_exp init_pose
    init_extrinsic = Built params →
  inputs σ !! "id" = Some l →
  heap σ !! l = Some (TLong idv) →
  inputs σ !! "extrinsic" = Some dst →
  heap σ !! dst = Some (TCube c) →
  Forall2 (λ (i : Z) (m : list (list Q)),
             0 ≤ i ∧ init_extrinsic !! Z.to_nat i = Some m) idv c →
  replace_optimizable_inputs cfg params None σ = Ret ((), σ') →
  heap σ' !! dst = Some (TCube c).
Proof.
  intros Hflag Hbuild Hl Hidv Hdst Hc Hbatch Hrun.
  destruct (build_cam_trans _ _ _ _ _ _ _ _ Hflag Hbuild)
    as (t & Ht & Htrans & [_ Hwidth]%has_shape_elim).
  apply mapM_Built in Htrans.
  destruct (substituted_translations _ _ _ _ _ _ _ _ _ Hflag Hl Hidv Hdst Hc Hrun)
    as (w & s & c' & Hw & Hs & Hset & Hheap).
  rewrite Ht in Hw. injection Hw as <-.
  change (selected_ids None idv) with idv in Hs.
  rewrite setitem_translation_own_columns in Hset.
  { injection Hset as <-. done. }
  apply Forall2_same_length_lookup. split.
  { rewrite <- (Forall2_length _ _ _ Hbatch). symmetry. by eapply rows_at_length. }
  intros b m row Hm Hrow.
  destruct (Forall2_lookup_r _ _ _ _ _ Hbatch Hm) as (i & Hi & Hpos & Hmi).
  destruct (Forall2_lookup_l _ _ _ _ _ Hs Hi) as (row' & Hrow' & _ & Hti).
  rewrite Hrow in Hrow'. injection Hrow' as <-.
  destruct (Forall2_lookup_l _ _ _ _ _ Htrans Hmi) as (row' & Hti' & Hcol).
  rewrite Hti in Hti'. injection Hti' as <-.
  split; [by apply translation_of_column3|].
  pose proof (Forall_lookup_1 _ _ _ _ Hwidth Hti) as Hlen. simpl in Hlen. lia.
Qed.

Lemma sample_tracked_ok :
  tracked_ok 2 tracked_expression tracked_pose dataset_extrinsic.
Proof. unfold tracked_ok. split_and!; repeat constructor; simpl; lia. Qed.

Lemma tables_start_from_tracked_parameters_witness :
  ∃ params,
    build_input_params (cfg_flags true true true true) 2 52 drawn_latent
      tracked_expression tracked_pose dataset_extrinsic = Built params
    ∧ (true = true → params !! "frame_latent" = Some drawn_latent)
    ∧ (true = true →
       params !! "expression" = Some (padded 52 <$> tracked_expression))
    ∧ (true = true → params !! "pose" = Some tracked_pose)
    ∧ (true = true →
       ∃ t, params !! "cam_trans" = Some t
         ∧ Forall2 (λ m row, column3 m = Some row) dataset_extrinsic t).
Proof.
  apply (tables_start_from_tracked_parameters (cfg_flags true true true true) 2 52
           drawn_latent tracked_expression tracked_pose dataset_extrinsic
           sample_tracked_ok).
  lia.
Defined.

Lemma expression_dimension_below_50_fails_witness :
  build_input_params (cfg_flags false true false false) 2 40 drawn_latent
    tracked_expression tracked_pose dataset_extrinsic = Failed NegativeSize.
Proof.
  apply (expression_dimension_below_50_fails (cfg_flags false true false false) 2 40
           drawn_latent tracked_expression tracked_pose dataset_extrinsic).
  - reflexivity.
  - lia.
Defined.

Lemma initial_camera_is_the_tracked_camera_witness :
  ∃ params σ',
    build_input_params (cfg_flags false false false true) 2 52 drawn_latent
      tracked_expression tracked_pose dataset_extrinsic = Built params
    ∧ replace_optimizable_inputs (cfg_flags false false false true) params None
        batch_init = Ret ((), σ')
    ∧ heap σ' !! 2%positive
      = Some (TCube [extrinsic_of 0 (1#4) 3; extrinsic_of (1#2) 0 3]%Q).
Proof.
  eexists _, _. split; [vm_compute; reflexivity|].
  split; [vm_compute; reflexivity|].
  eapply (initial_camera_is_the_tracked_camera (cfg_flags false false false true) 2 52
            drawn_latent tracked_expression tracked_pose dataset_extrinsic _
            batch_init _ 1%positive [1; 0] 2%positive).
  - reflexivity.
  - vm_compute. reflexivity.
  - reflexivity.
  - reflexivity.
  - reflexivity.
  - reflexivity.
  - repeat (constructor; [split; [lia|reflexivity]|]). constructor.
  - vm_compute. reflexivity.
Defined.

End InitFacts.

(** ** The running-average windows *)

Section WindowFacts.
Import Window.


Lemma lastn_snoc {A} (n : nat) (l : list A) (x : A) :
  lastn n (l ++ [x]) =
  if decide (n < length (lastn n l ++ [x]))%nat
  then tail (lastn n l ++ [x]) else lastn n l ++ [x].
Proof.
  unfold lastn. rewrite length_app, length_app, length_drop. simpl.
  case_decide as Hn.
  - assert (Hle : (n ≤ length l)%nat) by lia.
    replace (length l + 1 - n)%nat with ((length l - n) + 1)%nat by lia.
    rewrite <- drop_drop.
    rewrite drop_app_le by lia.
    by destruct (drop (length l - n) l ++ [x]).
  - replace (length l + 1 - n)%nat with 0%nat by lia.
    replace (length l - n)%nat with 0%nat by lia. done.
Qed.

Lemma append_lastn (C : Z) (vs : list Q) (v : Q) :
  0 ≤ C →
  append (Deque C (lastn (Z.to_nat C) vs)) v = Deque C (lastn (Z.to_nat C) (vs ++ [v])).
Proof.
  intros HC. unfold append. simpl. f_equal.
  rewrite lastn_snoc.
  destruct (Z.ltb_spec C (Z.of_nat (length (lastn (Z.to_nat C) vs ++ [v]))));
    case_decide; done || lia.
Qed.

Lemma for_each_push_term (C : Z) (l : list (string * Q)) :
  0 ≤ C → NoDup l.*1 → ∀ avg : gmap string deque,
  ∃ avg' : gmap string deque,
    for_each (push_term C) avg l = Ret avg' ∧
    ∀ k, avg' !! k = push_spec C (avg !! k) ((list_to_map l : gmap string Q) !! k).
Proof.
  intros HC. induction l as [|[k0 v0] l IH]; intros Hnd avg.
  - exists avg. split; [done|]. intros k. simpl. by rewrite lookup_empty.
  - apply NoDup_cons in Hnd as [Hk0 Hnd].
    set (avg1 := <[k0 := append (default (Deque C []) (avg !! k0)) v0]> avg).
    assert (Hstep : push_term C avg (k0, v0) = Ret avg1).
    { unfold push_term, deque_new. destruct (Z.ltb_spec C 0); [lia|].
      case_decide as Hlk; simpl.
      - unfold getitem. rewrite lookup_insert_eq. simpl.
        unfold avg1. rewrite Hlk. simpl. by rewrite insert_insert_eq.
      - unfold getitem. destruct (avg !! k0) as [d|] eqn:Hd; [|done]. simpl.
        done. }
    destruct (IH Hnd avg1) as (avg' & Hrun & Hlook).
    exists avg'. split.
    + cbn [for_each]. rewrite Hstep. exact Hrun.
    + intros k. rewrite Hlook. simpl. destruct (decide (k = k0)) as [->|Hne].
      * rewrite (not_elem_of_list_to_map_1 _ _ Hk0), lookup_insert_eq.
        unfold avg1. by rewrite lookup_insert_eq.
      * rewrite (lookup_insert_ne _ k0 k) by done.
        unfold avg1. by rewrite lookup_insert_ne.
Qed.

Lemma foldl_smooth_term (l : list (string * deque)) :
  NoDup l.*1 → ∀ (base : gmap string pyfloat) k,
  foldl smooth_term base l !! k =
  match (list_to_map l : gmap string deque) !! k with
  | Some d => Some (np_mean (items d))
  | None => base !! k
  end.
Proof.
  induction l as [|[k0 d0] l IH]; intros Hnd base k.
  - simpl. by rewrite lookup_empty.
  - apply NoDup_cons in Hnd as [Hk0 Hnd]. simpl. rewrite IH by done.
    unfold smooth_term. simpl. destruct (decide (k = k0)) as [->|Hne].
    + by rewrite (not_elem_of_list_to_map_1 _ _ Hk0), !lookup_insert_eq.
    + by rewrite !(lookup_insert_ne _ k0 k).
Qed.

Lemma pushed_snoc k steps (loss_dict : gmap string Q) :
  pushed k (steps ++ [loss_dict]) =
  pushed k steps ++ match loss_dict !! k with Some v => [v] | None => [] end.
Proof. unfold pushed. rewrite omap_app. simpl. by destruct (loss_dict !! k). Qed.

Lemma update_running_average_spec C steps avg (loss_dict : gmap string Q) :
  0 ≤ C → windows_of C steps avg →
  ∃ avg', update_running_average C avg loss_dict
          = Ret (avg', (λ d, np_mean (items d)) <$> avg')
          ∧ windows_of C (steps ++ [loss_dict]) avg'.
Proof.
  intros HC Hinv. unfold update_running_average.
  destruct (for_each_push_term C (map_to_list loss_dict) HC
              (NoDup_fst_map_to_list _) avg) as (avg' & -> & Hlook).
  rewrite list_to_map_to_list in Hlook.
  assert (Hinv' : windows_of C (steps ++ [loss_dict]) avg').
  { intros k. rewrite Hlook, pushed_snoc, (Hinv k).
    destruct (loss_dict !! k) as [v|]; simpl.
    - destruct (pushed k steps) as [|v0 vs]; simpl.
      + f_equal. exact (append_lastn C [] v HC).
      + f_equal. exact (append_lastn C (v0 :: vs) v HC).
    - by rewrite app_nil_r. }
  exists avg'. split; [|done]. simpl. f_equal. f_equal.
  apply map_eq. intros k.
  rewrite foldl_smooth_term by apply NoDup_fst_map_to_list.
  rewrite list_to_map_to_list, !lookup_fmap.
  destruct (avg' !! k) as [d|] eqn:Hk; [done|].
  rewrite Hlook in Hk.
  by destruct (loss_dict !! k).
Qed.

(** With a capacity that is not negative the update does not raise, and
    every term of the step is reported. *)
Lemma update_running_average_total C avg (loss_dict : gmap string Q) :
  0 ≤ C →
  ∃ avg' rep, update_running_average C avg loss_dict = Ret (avg', rep)
    ∧ ∀ k, is_Some (loss_dict !! k) → is_Some (rep !! k).
Proof.
  intros HC. unfold update_running_average.
  destruct (for_each_push_term C (map_to_list loss_dict) HC
              (NoDup_fst_map_to_list _) avg) as (avg' & -> & Hlook).
  rewrite list_to_map_to_list in Hlook.
  eexists _, _. split; [reflexivity|]. intros k [v Hv].
  rewrite foldl_smooth_term by apply NoDup_fst_map_to_list.
  rewrite list_to_map_to_list, Hlook, Hv. simpl. eauto.
Qed.

Lemma feed_spec C steps2 : 0 ≤ C → ∀ steps1 avg last,
  windows_of C steps1 avg →
  ∃ avg' rep, feed C avg last steps2 = Ret (avg', rep)
    ∧ windows_of C (steps1 ++ steps2) avg'
    ∧ (steps2 ≠ [] → rep = (λ d, np_mean (items d)) <$> avg').
Proof.
  intros HC. induction steps2 as [|ld steps2 IH]; intros steps1 avg last Hinv.
  - exists avg, last. rewrite app_nil_r. done.
  - destruct (update_running_average_spec C steps1 avg ld HC Hinv) as (avg1 & Hupd & Hinv1).
    destruct (IH (steps1 ++ [ld]) avg1 ((λ d, np_mean (items d)) <$> avg1) Hinv1)
      as (avg' & rep & Hfeed & Hinv' & Hrep).
    exists avg', rep. simpl. rewrite Hupd. simpl. rewrite Hfeed.
    rewrite <- app_assoc in Hinv'. split_and!; [done..|].
    intros _. destruct steps2; [|by apply Hrep].
    simpl in Hfeed. by inversion Hfeed.
Qed.



End WindowFacts.

(** ** The running-average windows: the edges *)

Section WindowEdges.
Import Window.






(** A negative [avg_loss_it] is not rejected at startup: the first step
    that reports a term raises [ValueError], when line 308 builds the
    deque. *)
Theorem negative_capacity_raises (C : Z) (loss_dict : gmap string Q) :
  C < 0 →
  loss_dict ≠ ∅ →
  update_running_average C ∅ loss_dict = Raise ValueError.
Proof.
  intros HC Hne. unfold update_running_average.
  destruct (map_to_list loss_dict) as [|[k v] l] eqn:Hl.
  - by apply map_to_list_empty_iff in Hl.
  - assert (Hpush : push_term C ∅ (k, v) = Raise ValueError).
    { unfold push_term, deque_new. rewrite lookup_empty.
      destruct (Z.ltb_spec C 0); [|lia]. by destruct (decide _). }
    cbn [for_each]. by rewrite Hpush.
Qed.

Lemma negative_capacity_raises_witness :
  update_running_average (-1) ∅ ({["loss" := 1%Q]} : gmap string Q) = Raise ValueError.
Proof.
  apply negative_capacity_raises.
  - lia.
  - apply (bool_decide_unpack _). vm_compute. exact I.
Defined.

(** With [avg_loss_it = 0] every window stays empty, and every term is
    reported as [nan]. *)
Theorem zero_capacity_reports_nan (steps : list (gmap string Q)) (key : string) :
  pushed key steps ≠ [] →
  ∃ avg_loss_dict loss_dict,
    feed 0 ∅ ∅ steps = Ret (avg_loss_dict, loss_dict)
    ∧ items <$> avg_loss_dict !! key = Some []
    ∧ loss_dict !! key = Some NaN.
Proof.
  intros Hne.
  destruct (feed_spec 0 steps (Z.le_refl 0) [] ∅ ∅) as (avg & rep & Hfeed & Hinv & Hrep).
  { intros k. by rewrite lookup_empty. }
  simpl in Hinv. exists avg, rep. split; [done|].
  assert (Hsteps : steps ≠ []) by (by intros ->).
  assert (Hk : avg !! key = Some (Deque 0 [])).
  { rewrite (Hinv key). destruct (pushed key steps) as [|v vs] eqn:Hvs; [done|].
    do 2 f_equal. unfold lastn. simpl Z.to_nat. rewrite Nat.sub_0_r.
    apply drop_all. }
  split.
  - by rewrite Hk.
  - by rewrite (Hrep Hsteps), lookup_fmap, Hk.
Qed.

Lemma zero_capacity_reports_nan_witness :
  ∃ avg_loss_dict loss_dict,
    feed 0 ∅ ∅ [ {["loss" := 1%Q]}; {["loss" := 2%Q]} ] = Ret (avg_loss_dict, loss_dict)
    ∧ items <$> avg_loss_dict !! "loss" = Some []
    ∧ loss_dict !! "loss" = Some NaN.
Proof.
  apply (zero_capacity_reports_nan [ {["loss" := 1%Q]}; {["loss" := 2%Q]} ] "loss").
  vm_compute. discriminate.
Defined.

End WindowEdges.

(** ** Checkpoints *)

Section CkptFacts.
Import Ckpt.
Context `{Torch}.
Variable accel : accelerator.
Variable cfg : config.
Variable find_latest_model_path : filesystem → string → option string.

Lemma IO_bind_eq {A B} (m : IO A) (f : A → IO B) w :
  (m ≫= f) w = match m w with
               | (Ret a, w') => f a w'
               | (Raise e, w') => (Raise e, w')
               end.
Proof. reflexivity. Qed.

Section preserves.
Context {X : Type} (part : world → X).

Lemma preserves_bind {A B} (m : IO A) (f : A → IO B) :
  preserves part m → (∀ a, preserves part (f a)) → preserves part (m ≫= f).
Proof.
  intros Hm Hf w r w'. rewrite IO_bind_eq.
  destruct (m w) as [[a|e] w1] eqn:Hmw.
  - intros Hfa. rewrite (Hf a _ _ _ Hfa). by eapply Hm.
  - intros [= <- <-]. by eapply Hm.
Qed.

Lemma preserves_ret {A} (a : A) : preserves part (mret a : IO A).
Proof. by intros w r w' [= <- <-]. Qed.

Lemma preserves_lift {A} (r : result A) : preserves part (lift r).
Proof. by intros w r' w' [= <- <-]. Qed.

Lemma preserves_torch_load dir name : preserves part (torch_load dir name).
Proof.
  intros w r w'. unfold torch_load.
  destruct (fs w !! dir ≫= _) as [[v|]|]; by intros [= <- <-].
Qed.

Lemma preserves_when b (m : IO ()) : preserves part m → preserves part (when b m).
Proof. destruct b; [done|]. intros _. apply preserves_ret. Qed.

Lemma preserves_try_except {A} (body handler : IO A) :
  preserves part body → preserves part handler →
  preserves part (try_except body handler).
Proof.
  intros Hb Hh w r w'. unfold try_except.
  destruct (body w) as [[a|e] w1] eqn:Hbw.
  - intros [= <- <-]. by eapply Hb.
  - intros Hhw. rewrite (Hh _ _ _ Hhw). by eapply Hb.
Qed.

End preserves.

Lemma accel_print_fs m : preserves fs (accel_print accel m).
Proof.
  intros w r w'. unfold accel_print.
  destruct (is_local_main_process accel); by intros [= <- <-].
Qed.

Lemma accel_print_input_side m : preserves input_side (accel_print accel m).
Proof.
  intros w r w'. unfold accel_print.
  destruct (is_local_main_process accel); by intros [= <- <-].
Qed.

Lemma load_model_fs v : preserves fs (load_model v).
Proof.
  intros w r w'. unfold load_model.
  destruct (module_load_state_dict _ _). by intros [= <- <-].
Qed.

Lemma load_model_input_side v : preserves input_side (load_model v).
Proof.
  intros w r w'. unfold load_model.
  destruct (module_load_state_dict _ _). by intros [= <- <-].
Qed.

Lemma load_optimizer_fs v : preserves fs (load_optimizer v).
Proof.
  intros w r w'. unfold load_optimizer.
  destruct (optimizer_load_state_dict _ _). by intros [= <- <-].
Qed.

Lemma load_optimizer_input_side v : preserves input_side (load_optimizer v).
Proof.
  intros w r w'. unfold load_optimizer.
  destruct (optimizer_load_state_dict _ _). by intros [= <- <-].
Qed.

Lemma load_scheduler_fs v : preserves fs (load_scheduler v).
Proof.
  intros w r w'. unfold load_scheduler.
  destruct (scheduler_load_state_dict _ _). by intros [= <- <-].
Qed.

Lemma load_scheduler_input_side v : preserves input_side (load_scheduler v).
Proof.
  intros w r w'. unfold load_scheduler.
  destruct (scheduler_load_state_dict _ _). by intros [= <- <-].
Qed.

Ltac preserves_steps :=
  repeat first
    [ apply preserves_bind; [|intros ?]
    | apply preserves_torch_load | apply preserves_lift
    | apply preserves_when | apply preserves_ret
    | apply accel_print_fs | apply accel_print_input_side
    | apply load_model_fs | apply load_model_input_side
    | apply load_optimizer_fs | apply load_optimizer_input_side
    | apply load_scheduler_fs | apply load_scheduler_input_side
    | match goal with |- preserves _ (let '(_, _) := ?p in _) => destruct p end ].

Lemma restore_model_fs dir : preserves fs (restore_model accel dir).
Proof. unfold restore_model. preserves_steps. Qed.

Lemma restore_model_input_side dir : preserves input_side (restore_model accel dir).
Proof. unfold restore_model. preserves_steps. Qed.

Lemma restore_optimizer_fs dir : preserves fs (restore_optimizer dir).
Proof. unfold restore_optimizer. preserves_steps. Qed.

Lemma restore_optimizer_input_side dir : preserves input_side (restore_optimizer dir).
Proof. unfold restore_optimizer. preserves_steps. Qed.

Lemma resolve_checkpoint_world w r w' :
  resolve_checkpoint accel cfg find_latest_model_path w = (r, w') → w' = w.
Proof.
  unfold resolve_checkpoint, checkpoints_dir.
  destruct (load_iteration cfg), (nonempty (load_from cfg)),
    (is_local_main_process accel); by intros [= <- <-].
Qed.

Lemma torch_load_unreadable w dir name :
  unreadable w dir name → ∃ e, torch_load dir name w = (Raise e, w).
Proof.
  intros Hbad. unfold torch_load.
  destruct (fs w !! dir ≫= _) as [[v|]|] eqn:Hf; [|eauto..].
  by destruct (Hbad v).
Qed.

(** C7. A checkpoint directory was resolved and its [optimizer.pth] is
    missing or does not unpickle: the resume raises. It does not return,
    and so it does not return the counters [(0, 0)] of a fresh start. *)
Theorem unreadable_optimizer_aborts_resume (w : world) (last : option string)
    (dir : string) :
  resolve_checkpoint accel cfg find_latest_model_path w = (Ret last, w) →
  nonempty last = Some dir →
  unreadable w dir "optimizer.pth" →
  ∃ e w', resume accel cfg find_latest_model_path w = (Raise e, w').
Proof.
  intros Hres Hdir Hbad. unfold resume.
  rewrite IO_bind_eq, Hres, Hdir, IO_bind_eq.
  destruct (restore_model accel dir w) as [[[it sample_count]|e] w1] eqn:Hmodel;
    [|by eauto].
  apply restore_model_fs in Hmodel.
  rewrite IO_bind_eq. unfold restore_optimizer at 1. rewrite IO_bind_eq.
  destruct (torch_load_unreadable w1 dir "optimizer.pth") as (e & ->); [|by eauto].
  intros v. rewrite Hmodel. apply Hbad.
Qed.

Lemma torch_load_readable w dir name v :
  fs w !! dir ≫= (.!! name) = Some (Pickle v) →
  torch_load dir name w = (Ret v, w).
Proof. intros Hf. unfold torch_load. by rewrite Hf. Qed.

(** C1, as the code has it. Input optimization is enabled, the model and
    the optimizer were restored from the resolved checkpoint, and
    [input.pth] unpickles to a state on which [load_state_dict] of the input
    store raises: the resume returns the restored counters, the input store
    is as the failed call left it, its optimizer and scheduler are
    untouched, and the local main process prints the warning. *)
Theorem mismatched_input_state_degrades_resume (w w1 w2 : world)
    (last : option string) (dir : string) (it sample_count : Z)
    (v : pyval state) (ip : module) (e : exn) :
  optimize_inputs cfg = true →
  resolve_checkpoint accel cfg find_latest_model_path w = (Ret last, w) →
  nonempty last = Some dir →
  restore_model accel dir w = (Ret (it, sample_count), w1) →
  restore_optimizer dir w1 = (Ret (), w2) →
  fs w !! dir ≫= (.!! "input.pth") = Some (Pickle v) →
  module_load_state_dict (input_params (objs w)) v = (ip, Raise e) →
  ∃ w', resume accel cfg find_latest_model_path w = (Ret (it, sample_count), w')
    ∧ input_params (objs w') = ip
    ∧ optimizer_input (objs w') = optimizer_input (objs w)
    ∧ scheduler_input (objs w') = scheduler_input (objs w)
    ∧ (is_local_main_process accel = true →
       Print "Mismatched input parameters state." ∈ console w').
Proof.
  intros Hopt Hres Hdir Hmodel Hoptim Hfile Hload.
  pose proof (restore_model_fs _ _ _ _ Hmodel) as Hfs1.
  pose proof (restore_optimizer_fs _ _ _ _ Hoptim) as Hfs2.
  pose proof (restore_model_input_side _ _ _ _ Hmodel) as Hin1.
  pose proof (restore_optimizer_input_side _ _ _ _ Hoptim) as Hin2.
  rewrite Hin1 in Hin2. unfold input_side in Hin2. injection Hin2 as Hip Hoi Hsi.
  assert (Hinputs : restore_inputs accel dir w2
    = accel_print accel (Print "Mismatched input parameters state.")
        (World (fs w2)
           (Objects (model (objs w2)) (optimizer_ (objs w2)) (scheduler_ (objs w2))
              ip (optimizer_input (objs w2)) (scheduler_input (objs w2)))
           (console w2))).
  { unfold restore_inputs. rewrite IO_bind_eq.
    rewrite (torch_load_readable w2 dir "input.pth" v) by (by rewrite Hfs2, Hfs1).
    unfold try_except. rewrite IO_bind_eq.
    unfold load_input_params at 1. rewrite Hip, Hload. done. }
  unfold resume.
  rewrite IO_bind_eq, Hres, Hdir, IO_bind_eq, Hmodel, IO_bind_eq, Hoptim.
  rewrite IO_bind_eq, Hopt. simpl when. rewrite Hinputs.
  unfold accel_print. destruct (is_local_main_process accel); simpl.
  - eexists. split; [reflexivity|]. simpl. split_and!; [done..|].
    intros _. set_solver.
  - eexists. split; [reflexivity|]. simpl. done.
Qed.








Lemma ensure_dir_spec dir w :
  ∃ w' files, ensure_dir dir w = (Ret (), w')
    ∧ fs w' !! dir = Some files ∧ objs w' = objs w ∧ console w' = console w.
Proof.
  unfold ensure_dir. destruct (fs w !! dir) as [files|] eqn:Hdir.
  - by exists w, files.
  - eexists _, ∅. split; [reflexivity|]. simpl. by rewrite lookup_insert_eq.
Qed.

Lemma torch_save_spec v dir name files w :
  fs w !! dir = Some files →
  torch_save v dir name w
  = (Ret (), World (<[dir := <[name := Pickle v]> files]> (fs w)) (objs w) (console w)).
Proof. intros Hdir. unfold torch_save. by rewrite Hdir. Qed.

(** What lines 343-363 leave on disk. *)
Lemma save_checkpoint_files (it sample_count : Z) (epoch : Q) (w : world) :
  is_local_main_process accel = true →
  ∃ w1 files,
    save_checkpoint accel cfg it sample_count epoch w = (Ret (), w1)
    ∧ fs w1 !! ckpt_dir_of cfg it = Some files
    ∧ files !! "model.pth"
      = Some (Pickle (VDict (<["it" := VInt it]>
                               (<["sample_count" := VInt sample_count]>
                                  (<["epoch" := VFloat epoch]>
                                     (<["model" := module_state_dict (model (objs w))]> ∅))))))
    ∧ files !! "optimizer.pth"
      = Some (Pickle (VDict (<["optimizer" := optimizer_state_dict (optimizer_ (objs w))]>
                               (<["scheduler" := scheduler_state_dict (scheduler_ (objs w))]> ∅))))
    ∧ (optimize_inputs cfg = true →
       files !! "input.pth" = Some (Pickle (module_state_dict (input_params (objs w)))))
    ∧ objs w1 = objs w
    ∧ console w1 = console w ++ [SavedCheckpoint it (ckpt_dir_of cfg it)].
Proof.
  intros Hmain. unfold save_checkpoint, checkpoints_dir.
  rewrite Hmain, IO_bind_eq. unfold lift at 1. cbv beta iota zeta.
  fold (ckpt_dir_of cfg it). generalize (ckpt_dir_of cfg it). intros dir.
  rewrite IO_bind_eq.
  destruct (ensure_dir_spec dir w) as (w0 & files0 & -> & Hdir0 & Hobjs & Hcons).
  rewrite IO_bind_eq. unfold get_objs at 1. rewrite IO_bind_eq, Hobjs.
  rewrite (torch_save_spec _ _ _ _ _ Hdir0), IO_bind_eq.
  erewrite torch_save_spec by (simpl; apply lookup_insert_eq).
  simpl fs. rewrite insert_insert_eq, IO_bind_eq.
  destruct (optimize_inputs cfg); simpl when.
  - rewrite IO_bind_eq.
    erewrite torch_save_spec by (simpl; apply lookup_insert_eq).
    simpl fs. rewrite insert_insert_eq.
    erewrite torch_save_spec by (simpl; apply lookup_insert_eq).
    simpl fs. rewrite insert_insert_eq.
    unfold accel_print. rewrite Hmain.
    eexists _, _. split; [reflexivity|]. simpl.
    split; [apply lookup_insert_eq|]. rewrite Hcons.
    split_and!; [by simplify_map_eq..| |done|done]. intros _. by simplify_map_eq.
  - unfold mret, IO_ret, accel_print. rewrite Hmain.
    eexists _, _. split; [reflexivity|]. simpl.
    split; [apply lookup_insert_eq|]. rewrite Hcons.
    split_and!; [by simplify_map_eq..|done|done|done].
Qed.


End CkptFacts.

Section RoundTrip.
Import Ckpt.
Context `{Torch}.


End RoundTrip.

Section SampleRuns.
Import Ckpt Sample.

Lemma mismatched_input_state_degrades_resume_witness :
  ∃ w', resume main_process cfg_resume5 no_latest world_mismatch = (Ret (5, 10), w')
    ∧ input_params (objs w') = 0
    ∧ optimizer_input (objs w') = 0
    ∧ scheduler_input (objs w') = 0
    ∧ (true = true → Print "Mismatched input parameters state." ∈ console w').
Proof.
  eapply (mismatched_input_state_degrades_resume main_process cfg_resume5
            no_latest world_mismatch _ _ (Some "run/checkpoints/iter_5")
            "run/checkpoints/iter_5" 5 10 (VState (-1)) 0 RuntimeError);
    vm_compute; reflexivity.
Defined.

(** C1, as stated, fails: the model and the optimizer are restored from
    the checkpoint, and the resume raises when [input.pth] is absent and
    when it does not unpickle. *)
Lemma unreadable_input_file_aborts_resume :
  (∃ w1 w2,
      restore_model main_process "run/checkpoints/iter_5" world_absent = (Ret (5, 10), w1)
      ∧ restore_optimizer "run/checkpoints/iter_5" w1 = (Ret (), w2))
  ∧ fs world_absent !! "run/checkpoints/iter_5" ≫= (.!! "input.pth") = None
  ∧ (∃ w', resume main_process cfg_resume5 no_latest world_absent
           = (Raise (FileNotFoundError "run/checkpoints/iter_5" "input.pth"), w'))
  ∧ fs world_corrupt !! "run/checkpoints/iter_5" ≫= (.!! "input.pth") = Some Corrupt
  ∧ (∃ w', resume main_process cfg_resume5 no_latest world_corrupt
           = (Raise UnpicklingError, w')).
Proof.
  split_and!.
  - eexists _, _. split; vm_compute; reflexivity.
  - vm_compute. reflexivity.
  - eexists. vm_compute. reflexivity.
  - vm_compute. reflexivity.
  - eexists. vm_compute. reflexivity.
Qed.


Lemma unreadable_optimizer_aborts_resume_witness :
  ∃ e w', resume main_process cfg_resume5 no_latest
            (world_of {["model.pth" := model_pth]}) = (Raise e, w').
Proof.
  apply (unreadable_optimizer_aborts_resume main_process cfg_resume5 no_latest
           (world_of {["model.pth" := model_pth]})
           (Some "run/checkpoints/iter_5") "run/checkpoints/iter_5").
  - vm_compute. reflexivity.
  - reflexivity.
  - intros v. vm_compute. discriminate.
Defined.

End SampleRuns.


(** ** Resume and save: what else they do and do not *)

Section ResumeFacts.
Import Ckpt.
Context `{Torch}.
Variable accel : accelerator.
Variable cfg : config.
Variable find_latest_model_path : filesystem → string → option string.

Lemma resolve_checkpoint_preserves {X} (part : world → X) :
  preserves part (resolve_checkpoint accel cfg find_latest_model_path).
Proof. intros w r w' Hres. by rewrite (resolve_checkpoint_world _ _ _ _ _ _ Hres). Qed.

Lemma load_input_params_fs v : preserves fs (load_input_params v).
Proof.
  intros w r w'. unfold load_input_params.
  destruct (module_load_state_dict _ _). by intros [= <- <-].
Qed.

Lemma load_optimizer_input_fs v : preserves fs (load_optimizer_input v).
Proof.
  intros w r w'. unfold load_optimizer_input.
  destruct (optimizer_load_state_dict _ _). by intros [= <- <-].
Qed.

Lemma load_scheduler_input_fs v : preserves fs (load_scheduler_input v).
Proof.
  intros w r w'. unfold load_scheduler_input.
  destruct (scheduler_load_state_dict _ _). by intros [= <- <-].
Qed.

Lemma restore_inputs_fs dir : preserves fs (restore_inputs accel dir).
Proof.
  unfold restore_inputs.
  repeat first
    [ apply preserves_bind; [|intros ?]
    | apply preserves_try_except
    | apply preserves_torch_load | apply preserves_lift
    | apply preserves_when | apply preserves_ret
    | apply accel_print_fs | apply load_input_params_fs
    | apply load_optimizer_input_fs | apply load_scheduler_input_fs
    | match goal with |- preserves _ (let '(_, _) := ?p in _) => destruct p end ].
Qed.

(** The resume only reads the disk: whether it returns or raises, no file
    and no directory is created, changed or removed. *)
Theorem resume_never_writes (w w' : world) (r : result (Z * Z)) :
  resume accel cfg find_latest_model_path w = (r, w') →
  fs w' = fs w.
Proof.
  revert w r w'. change (preserves fs (resume accel cfg find_latest_model_path)).
  unfold resume. apply preserves_bind; [apply resolve_checkpoint_preserves|].
  intros last. destruct (nonempty last) as [dir|]; [|apply preserves_ret].
  apply preserves_bind; [apply restore_model_fs|]. intros [it sample_count].
  apply preserves_bind; [apply restore_optimizer_fs|]. intros _.
  apply preserves_bind; [apply preserves_when, restore_inputs_fs|]. intros _.
  apply preserves_bind; [apply accel_print_fs|]. intros _.
  apply preserves_ret.
Qed.

(** Without input optimization the resume does not touch the input store,
    its optimizer or its scheduler, whatever the checkpoint holds. *)
Theorem resume_without_inputs_keeps_input_side (w w' : world) (r : result (Z * Z)) :
  optimize_inputs cfg = false →
  resume accel cfg find_latest_model_path w = (r, w') →
  input_side w' = input_side w.
Proof.
  intros Hopt. revert w r w'.
  change (preserves input_side (resume accel cfg find_latest_model_path)).
  unfold resume. rewrite Hopt.
  apply preserves_bind; [apply resolve_checkpoint_preserves|].
  intros last. destruct (nonempty last) as [dir|]; [|apply preserves_ret].
  apply preserves_bind; [apply restore_model_input_side|]. intros [it sample_count].
  apply preserves_bind; [apply restore_optimizer_input_side|]. intros _.
  apply preserves_bind; [apply preserves_ret|]. intros _.
  apply preserves_bind; [apply accel_print_input_side|]. intros _.
  apply preserves_ret.
Qed.

(** A checkpoint directory was resolved and its [model.pth] is missing or
    does not unpickle: the resume raises at line 188, before any object is
    changed. *)
Theorem unreadable_model_aborts_resume (w : world) (last : option string)
    (dir : string) :
  resolve_checkpoint accel cfg find_latest_model_path w = (Ret last, w) →
  nonempty last = Some dir →
  unreadable w dir "model.pth" →
  ∃ e, resume accel cfg find_latest_model_path w = (Raise e, w).
Proof.
  intros Hres Hdir Hbad. unfold resume.
  rewrite IO_bind_eq, Hres, Hdir, IO_bind_eq.
  unfold restore_model at 1. rewrite IO_bind_eq.
  destruct (torch_load_unreadable w dir "model.pth" Hbad) as (e & ->).
  by exists e.
Qed.

(** On a process that is not the local main one, the name
    [checkpoints_dir] is not bound (lines 79-81): unless a non-empty
    [load_from] is given without [load_iteration], lines 184-186 raise
    before anything is loaded, also when there is nothing to resume. *)
Theorem resume_off_main_process_raises (w : world) :
  is_local_main_process accel = false →
  is_Some (load_iteration cfg) ∨ nonempty (load_from cfg) = None →
  resume accel cfg find_latest_model_path w
  = (Raise (UnboundLocalError "checkpoints_dir"), w).
Proof.
  intros Hmain Hcase. unfold resume, resolve_checkpoint, checkpoints_dir.
  rewrite Hmain. destruct Hcase as [[k ->]| Hfrom].
  - reflexivity.
  - destruct (load_iteration cfg); [reflexivity|]. by rewrite Hfrom.
Qed.

Lemma when_print_spec (b : bool) (m : message) (w : world) :
  ∃ w', when b (accel_print accel m) w = (Ret (), w')
    ∧ fs w' = fs w ∧ objs w' = objs w
    ∧ console w' = console w
        ++ (if b && is_local_main_process accel then [m] else []).
Proof.
  unfold when, accel_print.
  destruct b, (is_local_main_process accel); simpl;
    first [ by (exists w; rewrite app_nil_r) | by eexists ].
Qed.

Lemma accel_print_spec (m : message) (w : world) :
  ∃ w', accel_print accel m w = (Ret (), w')
    ∧ fs w' = fs w ∧ objs w' = objs w
    ∧ console w' = console w ++ (if is_local_main_process accel then [m] else []).
Proof. exact (when_print_spec true m w). Qed.

(** The end of a resume with input optimization, from the three restore
    steps. *)
Lemma resume_with_inputs (w w1 w2 w3 : world) (last : option string) (dir : string)
    (it sample_count : Z) :
  optimize_inputs cfg = true →
  resolve_checkpoint accel cfg find_latest_model_path w = (Ret last, w) →
  nonempty last = Some dir →
  restore_model accel dir w = (Ret (it, sample_count), w1) →
  restore_optimizer dir w1 = (Ret (), w2) →
  restore_inputs accel dir w2 = (Ret (), w3) →
  ∃ w', resume accel cfg find_latest_model_path w = (Ret (it, sample_count), w')
    ∧ fs w' = fs w3 ∧ objs w' = objs w3
    ∧ console w' = console w3
        ++ (if is_local_main_process accel then [LoadedFrom dir] else []).
Proof.
  intros Hopt Hres Hdir Hmodel Hoptim Hinputs. unfold resume.
  rewrite IO_bind_eq, Hres, Hdir, IO_bind_eq, Hmodel, IO_bind_eq, Hoptim.
  rewrite IO_bind_eq, Hopt. simpl when. rewrite Hinputs, IO_bind_eq.
  destruct (accel_print_spec (LoadedFrom dir) w3) as (w' & -> & ? & ? & ?).
  by exists w'.
Qed.

(** The input store was restored, but [optimizer_input.pth] is missing or
    does not unpickle: line 209 is inside the outer [try], so the resume
    goes on. The input store keeps the restored state, its optimizer and
    scheduler stay as built, and the message printed is that of the outer
    handler. *)
Theorem unreadable_input_optimizer_degrades_resume (w w1 w2 : world)
    (last : option string) (dir : string) (it sample_count : Z)
    (v : pyval state) (ip : module) (keys : list string * list string) :
  optimize_inputs cfg = true →
  resolve_checkpoint accel cfg find_latest_model_path w = (Ret last, w) →
  nonempty last = Some dir →
  restore_model accel dir w = (Ret (it, sample_count), w1) →
  restore_optimizer dir w1 = (Ret (), w2) →
  fs w !! dir ≫= (.!! "input.pth") = Some (Pickle v) →
  module_load_state_dict (input_params (objs w)) v = (ip, Ret keys) →
  unreadable w dir "optimizer_input.pth" →
  ∃ w', resume accel cfg find_latest_model_path w = (Ret (it, sample_count), w')
    ∧ input_params (objs w') = ip
    ∧ optimizer_input (objs w') = optimizer_input (objs w)
    ∧ scheduler_input (objs w') = scheduler_input (objs w)
    ∧ (is_local_main_process accel = true →
       Print "Mismatched input parameters state." ∈ console w').
Proof.
  intros Hopt Hres Hdir Hmodel Hoptim Hfile Hload Hbad.
  pose proof (restore_model_fs _ _ _ _ _ Hmodel) as Hfs1.
  pose proof (restore_optimizer_fs _ _ _ _ Hoptim) as Hfs2.
  pose proof (restore_model_input_side _ _ _ _ _ Hmodel) as Hin1.
  pose proof (restore_optimizer_input_side _ _ _ _ Hoptim) as Hin2.
  rewrite Hin1 in Hin2. unfold input_side in Hin2. injection Hin2 as Hip Hoi Hsi.
  destruct keys as [missing unexpected].
  set (wA := World (fs w2)
               (Objects (model (objs w2)) (optimizer_ (objs w2)) (scheduler_ (objs w2))
                  ip (optimizer_input (objs w2)) (scheduler_input (objs w2)))
               (console w2)).
  destruct (when_print_spec (bool_decide (unexpected ≠ []))
              (UnexpectedKeys "input_state" unexpected) wA)
    as (wB & HrunB & HfsB & HobjsB & _).
  destruct (when_print_spec (bool_decide (missing ≠ []))
              (MissingKeys "input_state" missing) wB)
    as (wC & HrunC & HfsC & HobjsC & _).
  destruct (torch_load_unreadable wC dir "optimizer_input.pth") as (e & HloadC).
  { intros v'. rewrite HfsC, HfsB. simpl. rewrite Hfs2, Hfs1. apply Hbad. }
  destruct (accel_print_spec (Print "Mismatched input parameters state.") wC)
    as (wD & HrunD & HfsD & HobjsD & HconsD).
  assert (Hinputs : restore_inputs accel dir w2 = (Ret (), wD)).
  { unfold restore_inputs. rewrite IO_bind_eq.
    rewrite (torch_load_readable w2 dir "input.pth" v) by (by rewrite Hfs2, Hfs1).
    unfold try_except. rewrite IO_bind_eq.
    unfold load_input_params at 1. rewrite Hip, Hload. fold wA.
    rewrite IO_bind_eq, HrunB, IO_bind_eq, HrunC, IO_bind_eq, HloadC. exact HrunD. }
  destruct (resume_with_inputs w w1 w2 wD last dir it sample_count
              Hopt Hres Hdir Hmodel Hoptim Hinputs)
    as (w' & Hrun & _ & Hobjs & Hcons).
  exists w'. split; [done|].
  rewrite Hobjs, HobjsD, HobjsC, HobjsB. simpl. split_and!; [done..|].
  intros Hmain. rewrite Hcons, HconsD, Hmain. set_solver.
Qed.

(** The input store was restored, and [load_state_dict] of its optimizer
    raises on the saved state: the inner handler prints its message and the
    resume goes on. The input store keeps the restored state, the optimizer
    is as the failed call left it, and the scheduler is not loaded at all. *)
Theorem mismatched_input_optimizer_degrades_resume (w w1 w2 : world)
    (last : option string) (dir : string) (it sample_count : Z)
    (v p ov : pyval state) (ip : module) (keys : list string * list string)
    (oi : optimizer) (e : exn) :
  optimize_inputs cfg = true →
  resolve_checkpoint accel cfg find_latest_model_path w = (Ret last, w) →
  nonempty last = Some dir →
  restore_model accel dir w = (Ret (it, sample_count), w1) →
  restore_optimizer dir w1 = (Ret (), w2) →
  fs w !! dir ≫= (.!! "input.pth") = Some (Pickle v) →
  module_load_state_dict (input_params (objs w)) v = (ip, Ret keys) →
  fs w !! dir ≫= (.!! "optimizer_input.pth") = Some (Pickle p) →
  subscript p "optimizer" = Ret ov →
  optimizer_load_state_dict (optimizer_input (objs w)) ov = (oi, Raise e) →
  ∃ w', resume accel cfg find_latest_model_path w = (Ret (it, sample_count), w')
    ∧ input_params (objs w') = ip
    ∧ optimizer_input (objs w') = oi
    ∧ scheduler_input (objs w') = scheduler_input (objs w)
    ∧ (is_local_main_process accel = true →
       Print "Mismatched optimizer state for input parameters." ∈ console w').
Proof.
  intros Hopt Hres Hdir Hmodel Hoptim Hfile Hload Hfile2 Hsub Hload2.
  pose proof (restore_model_fs _ _ _ _ _ Hmodel) as Hfs1.
  pose proof (restore_optimizer_fs _ _ _ _ Hoptim) as Hfs2.
  pose proof (restore_model_input_side _ _ _ _ _ Hmodel) as Hin1.
  pose proof (restore_optimizer_input_side _ _ _ _ Hoptim) as Hin2.
  rewrite Hin1 in Hin2. unfold input_side in Hin2. injection Hin2 as Hip Hoi Hsi.
  destruct keys as [missing unexpected].
  set (wA := World (fs w2)
               (Objects (model (objs w2)) (optimizer_ (objs w2)) (scheduler_ (objs w2))
                  ip (optimizer_input (objs w2)) (scheduler_input (objs w2)))
               (console w2)).
  destruct (when_print_spec (bool_decide (unexpected ≠ []))
              (UnexpectedKeys "input_state" unexpected) wA)
    as (wB & HrunB & HfsB & HobjsB & _).
  destruct (when_print_spec (bool_decide (missing ≠ []))
              (MissingKeys "input_state" missing) wB)
    as (wC & HrunC & HfsC & HobjsC & _).
  set (wD := World (fs wC)
               (Objects (model (objs w2)) (optimizer_ (objs w2)) (scheduler_ (objs w2))
                  ip oi (scheduler_input (objs w2)))
               (console wC)).
  destruct (accel_print_spec
              (Print "Mismatched optimizer state for input parameters.") wD)
    as (wE & HrunE & HfsE & HobjsE & HconsE).
  assert (Hinputs : restore_inputs accel dir w2 = (Ret (), wE)).
  { unfold restore_inputs. rewrite IO_bind_eq.
    rewrite (torch_load_readable w2 dir "input.pth" v) by (by rewrite Hfs2, Hfs1).
    unfold try_except at 1. rewrite IO_bind_eq.
    unfold load_input_params at 1. rewrite Hip, Hload. fold wA.
    rewrite IO_bind_eq, HrunB, IO_bind_eq, HrunC, IO_bind_eq.
    rewrite (torch_load_readable wC dir "optimizer_input.pth" p)
      by (by rewrite HfsC, HfsB; simpl; rewrite Hfs2, Hfs1).
    unfold try_except. rewrite IO_bind_eq. unfold lift at 1. rewrite Hsub.
    rewrite IO_bind_eq. unfold load_optimizer_input at 1.
    rewrite HobjsC, HobjsB. simpl. rewrite Hoi, Hload2.
    fold wD. by rewrite HrunE. }
  destruct (resume_with_inputs w w1 w2 wE last dir it sample_count
              Hopt Hres Hdir Hmodel Hoptim Hinputs)
    as (w' & Hrun & _ & Hobjs & Hcons).
  exists w'. split; [done|].
  rewrite Hobjs, HobjsE. unfold wD. simpl. split_and!; [done..|].
  intros Hmain. rewrite Hcons, HconsE, Hmain. set_solver.
Qed.

(** ** Saving *)

Lemma path_join_inj (a : string) : Inj (=) (=) (path_join a).
Proof.
  intros b b'. unfold path_join.
  destruct (bool_decide (a = "") || ends_with_slash a); intros Heq.
  - by apply (inj (String.app a)) in Heq.
  - apply (inj (String.app a)) in Heq. by apply (inj (String.app "/")) in Heq.
Qed.

Lemma ckpt_dir_of_inj : Inj (=) (=) (ckpt_dir_of cfg).
Proof.
  intros it it' Heq. unfold ckpt_dir_of, iter_name in Heq.
  apply path_join_inj in Heq. apply (inj (String.app "iter_")) in Heq.
  by apply (inj pretty) in Heq.
Qed.

Lemma preserves_torch_save {X} (part : world → X) v dir name :
  (∀ w files, part (World (<[dir := files]> (fs w)) (objs w) (console w)) = part w) →
  preserves part (torch_save v dir name).
Proof.
  intros Hpart w r w'. unfold torch_save.
  destruct (fs w !! dir); intros [= <- <-]; [apply Hpart|done].
Qed.

(** Lines 343-363 change the directory [iter_{it}] and nothing else on
    disk, and leave the objects as they are. *)
Lemma save_checkpoint_frame (it sample_count : Z) (epoch : Q) (d : string) :
  d ≠ ckpt_dir_of cfg it →
  preserves (λ w, (fs w !! d, objs w)) (save_checkpoint accel cfg it sample_count epoch).
Proof.
  intros Hd. unfold save_checkpoint, checkpoints_dir.
  destruct (is_local_main_process accel) eqn:Hmain.
  - intros w r w'. rewrite IO_bind_eq. unfold lift at 1. cbv beta iota zeta.
    fold (ckpt_dir_of cfg it). revert w r w'.
    assert (Hsave : ∀ v name,
              preserves (λ w, (fs w !! d, objs w)) (torch_save v (ckpt_dir_of cfg it) name)).
    { intros v name. apply preserves_torch_save. intros w files. simpl.
      by rewrite lookup_insert_ne. }
    apply (preserves_bind (λ w, (fs w !! d, objs w))).
    { intros w r w'. unfold ensure_dir.
      destruct (fs w !! ckpt_dir_of cfg it); intros [= <- <-]; [done|].
      simpl. by rewrite lookup_insert_ne. }
    intros _. apply preserves_bind; [by intros w r w' [= <- <-]|]. intros o.
    apply preserves_bind; [apply Hsave|]. intros _.
    apply preserves_bind; [apply Hsave|]. intros _.
    apply preserves_bind.
    { apply preserves_when, preserves_bind; [apply Hsave|]. intros _. apply Hsave. }
    intros _. intros w r w'. unfold accel_print. rewrite Hmain. by intros [= <- <-].
  - intros w r w'. rewrite IO_bind_eq. unfold lift at 1. by intros [= <- <-].
Qed.

(** Saving the checkpoint of one iteration leaves the checkpoint
    directory of every other iteration of the run exactly as it was:
    checkpoints of distinct iterations never overwrite one another. *)
Theorem save_keeps_other_checkpoints (it it' sample_count : Z) (epoch : Q)
    (w w' : world) (r : result ()) :
  it ≠ it' →
  save_checkpoint accel cfg it' sample_count epoch w = (r, w') →
  fs w' !! ckpt_dir_of cfg it = fs w !! ckpt_dir_of cfg it.
Proof.
  intros Hne Hsave.
  assert (Hd : ckpt_dir_of cfg it ≠ ckpt_dir_of cfg it').
  { intros Heq. by apply ckpt_dir_of_inj in Heq. }
  apply (save_checkpoint_frame it' sample_count epoch _ Hd) in Hsave.
  by injection Hsave.
Qed.





End ResumeFacts.

Section StateRoundTrip.
Import Ckpt.
Context `{Torch}.


End StateRoundTrip.

Section ResumeRuns.
Import Ckpt Sample SampleMore.

Lemma resume_never_writes_witness :
  ∃ r w', resume main_process cfg_resume5 no_latest world_mismatch = (r, w')
    ∧ fs w' = fs world_mismatch.
Proof.
  eexists _, _. split; [vm_compute; reflexivity|].
  eapply (resume_never_writes main_process cfg_resume5 no_latest world_mismatch).
  vm_compute. reflexivity.
Defined.

Lemma resume_without_inputs_keeps_input_side_witness :
  ∃ r w', resume main_process cfg_plain no_latest world_mismatch = (r, w')
    ∧ input_side w' = input_side world_mismatch.
Proof.
  eexists _, _. split; [vm_compute; reflexivity|].
  eapply (resume_without_inputs_keeps_input_side main_process cfg_plain no_latest
            world_mismatch); [reflexivity|].
  vm_compute. reflexivity.
Defined.

Lemma unreadable_model_aborts_resume_witness :
  ∃ e, resume main_process cfg_resume5 no_latest
         (world_of {["optimizer.pth" := optimizer_pth]})
       = (Raise e, world_of {["optimizer.pth" := optimizer_pth]}).
Proof.
  apply (unreadable_model_aborts_resume main_process cfg_resume5 no_latest
           (world_of {["optimizer.pth" := optimizer_pth]})
           (Some "run/checkpoints/iter_5") "run/checkpoints/iter_5").
  - vm_compute. reflexivity.
  - reflexivity.
  - intros v. vm_compute. discriminate.
Defined.

Lemma resume_off_main_process_raises_witness :
  resume worker_process cfg_resume5 no_latest world_absent
  = (Raise (UnboundLocalError "checkpoints_dir"), world_absent).
Proof.
  apply (resume_off_main_process_raises worker_process cfg_resume5 no_latest
           world_absent); [reflexivity|]. left. by eexists.
Defined.

Lemma unreadable_input_optimizer_degrades_resume_witness :
  ∃ w', resume main_process cfg_resume5 no_latest world_no_input_optimizer
        = (Ret (5, 10), w')
    ∧ input_params (objs w') = 4
    ∧ optimizer_input (objs w') = 0
    ∧ scheduler_input (objs w') = 0
    ∧ (true = true → Print "Mismatched input parameters state." ∈ console w').
Proof.
  eapply (unreadable_input_optimizer_degrades_resume main_process cfg_resume5
            no_latest world_no_input_optimizer _ _ (Some "run/checkpoints/iter_5")
            "run/checkpoints/iter_5" 5 10 (VState 4) 4 ([], []));
    try (vm_compute; reflexivity).
  intros v. vm_compute. discriminate.
Defined.

Lemma mismatched_input_optimizer_degrades_resume_witness :
  ∃ w', resume main_process cfg_resume5 no_latest world_bad_input_optimizer
        = (Ret (5, 10), w')
    ∧ input_params (objs w') = 4
    ∧ optimizer_input (objs w') = 0
    ∧ scheduler_input (objs w') = 0
    ∧ (true = true →
       Print "Mismatched optimizer state for input parameters." ∈ console w').
Proof.
  eapply (mismatched_input_optimizer_degrades_resume main_process cfg_resume5
            no_latest world_bad_input_optimizer _ _ (Some "run/checkpoints/iter_5")
            "run/checkpoints/iter_5" 5 10 (VState 4)
            (VDict (<["optimizer" := VState (-1)]> (<["scheduler" := VState 6]> ∅)))
            (VState (-1)) 4 ([], []) 0 RuntimeError);
    vm_compute; reflexivity.
Defined.

Lemma save_keeps_other_checkpoints_witness :
  ∃ w', save_checkpoint main_process cfg_resume5 10 20 10%Q world_absent = (Ret (), w')
    ∧ fs w' !! ckpt_dir_of cfg_resume5 5 = fs world_absent !! ckpt_dir_of cfg_resume5 5.
Proof.
  eexists. split; [vm_compute; reflexivity|].
  eapply (save_keeps_other_checkpoints main_process cfg_resume5 5 10 20 10%Q
            world_absent); [done|].
  vm_compute. reflexivity.
Defined.


End ResumeRuns.

(** ** The evaluation pass *)

Section EvalFacts.
Import Window Eval.


Lemma Qsum_inject_Z (l : list Z) : (Qsum (inject_Z <$> l) == inject_Z (Zsum l))%Q.
Proof.
  induction l as [|x l IH]; [done|].
  unfold Qsum, Zsum in *. simpl. by rewrite IH, inject_Z_plus.
Qed.

Lemma omap_fmap_compose {A B C} (f : B → option C) (g : A → B) (l : list A) :
  omap f (g <$> l) = omap (f ∘ g) l.
Proof.
  induction l as [|x l IH]; [done|]. csimpl. by rewrite IH.
Qed.






Lemma gather_spec (d : gmap string Q) (rest : list (gmap string Q)) :
  Forall (λ d' : gmap string Q, dom d' = dom d) rest →
  ∃ gathered, gather (d :: rest) = Ret gathered
    ∧ ∀ k, gathered !! k
           = (d !! k) ≫= λ _, Some (omap (λ d' : gmap string Q, d' !! k) (d :: rest)).
Proof.
  intros Hdom. unfold gather. rewrite bool_decide_eq_true_2 by (by constructor).
  eexists. split; [reflexivity|]. intros k. by rewrite map_lookup_imap.
Qed.

Lemma for_each_average_term (n : Q) (l : list (string * list Q)) :
  ¬ (n == 0)%Q → NoDup l.*1 → ∀ base : gmap string Q,
  ∃ d, for_each (average_term n) base l = Ret d
    ∧ ∀ k, d !! k = match (list_to_map l : gmap string (list Q)) !! k with
                    | Some vs => Some (Qsum vs / n)%Q
                    | None => base !! k
                    end.
Proof.
  intros Hn.
  assert (Hstep : ∀ base kv,
             average_term n base kv = Ret (<[kv.1 := (Qsum kv.2 / n)%Q]> base)).
  { intros base kv. unfold average_term.
    destruct (Qeq_bool n 0) eqn:Hz; [by apply Qeq_bool_iff in Hz|done]. }
  induction l as [|[k0 vs0] l IH]; intros Hnd base.
  - exists base. split; [done|]. intros k. simpl. by rewrite lookup_empty.
  - rewrite fmap_cons in Hnd. apply NoDup_cons in Hnd as [Hk0 Hnd].
    destruct (IH Hnd (<[k0 := (Qsum vs0 / n)%Q]> base)) as (d & Hrun & Hlook).
    exists d. split.
    + cbn [for_each]. rewrite Hstep. exact Hrun.
    + intros k. rewrite Hlook. simpl. destruct (decide (k = k0)) as [->|Hne].
      * by rewrite (not_elem_of_list_to_map_1 _ _ Hk0), !lookup_insert_eq.
      * by rewrite !(lookup_insert_ne _ k0 k).
Qed.


Lemma lookup_num_batches (r : gmap string Q * Z) :
  with_num_batches r !! "num_batches" = Some (inject_Z r.2).
Proof. apply lookup_insert_eq. Qed.

Lemma lookup_term key (r : gmap string Q * Z) :
  key ≠ "num_batches" → with_num_batches r !! key = r.1 !! key.
Proof. intros Hk. unfold with_num_batches. by rewrite lookup_insert_ne. Qed.

Lemma with_num_batches_counts (reports : list (gmap string Q * Z)) :
  omap (λ d' : gmap string Q, d' !! "num_batches") (with_num_batches <$> reports)
  = inject_Z <$> batch_counts reports.
Proof.
  induction reports as [|r reports IH]; [done|]. csimpl.
  rewrite lookup_num_batches. by rewrite IH.
Qed.








End EvalFacts.

(** ** The evaluation: the keys of the result *)

Section EvalKeys.
Import Window Eval.

(** Line 392 pops [num_batches] before the means are taken: it is not
    among the averaged terms. *)
Lemma average_keys (gathered : gmap string (list Q)) (counts : list Q) :
  gathered !! "num_batches" = Some counts →
  ¬ (Qsum counts == 0)%Q →
  ∃ d, average gathered = Ret (Qsum counts, d)
    ∧ dom d = dom gathered ∖ {["num_batches"]}.
Proof.
  intros Hcounts Hn. unfold average, getitem. rewrite Hcounts. simpl.
  destruct (for_each_average_term (Qsum counts)
              (map_to_list (delete "num_batches" gathered)) Hn
              (NoDup_fst_map_to_list _) ∅) as (d & -> & Hlook).
  exists d. split; [done|]. apply set_eq. intros k.
  rewrite elem_of_dom, Hlook, list_to_map_to_list, elem_of_difference, elem_of_dom.
  rewrite elem_of_singleton.
  destruct (decide (k = "num_batches")) as [->|Hk].
  - rewrite lookup_delete_eq, lookup_empty. split; [by intros [? ?]|by intros [_ ?]].
  - rewrite lookup_delete_ne by done.
    destruct (gathered !! k); [|rewrite lookup_empty]; split; try done; eauto.
    + intros [[? ?] _]. done.
Qed.

(** The result of the evaluation has one mean for every loss term that
    the workers report, and nothing else: the batch counter that travels
    with the terms through the gather is not in it. *)
Theorem evaluation_reports_the_terms_only (workers : list (list (gmap string Q)))
    (terms : gset string) :
  Forall (λ report : gmap string Q * Z, dom report.1 = terms)
         (validate_worker <$> workers) →
  "num_batches" ∉ terms →
  Zsum (batch_counts (validate_worker <$> workers)) ≠ 0 →
  ∃ n d, evaluate workers = Ret (n, d) ∧ dom d = terms.
Proof.
  unfold evaluate. generalize (validate_worker <$> workers).
  intros reports Hdom Hres Hn.
  destruct reports as [|r reports]; [done|].
  apply Forall_cons in Hdom as [Hr Hdom].
  destruct (gather_spec (with_num_batches r) (with_num_batches <$> reports))
    as (gathered & Hgather & Hlook).
  { apply Forall_fmap. eapply Forall_impl; [exact Hdom|]. intros r' Hr'. simpl.
    unfold with_num_batches. rewrite !dom_insert_L. congruence. }
  unfold aggregate. rewrite fmap_cons, Hgather. simpl.
  destruct (average_keys gathered (inject_Z <$> batch_counts (r :: reports)))
    as (d & -> & Hd).
  { rewrite Hlook, lookup_num_batches, <- fmap_cons, with_num_batches_counts. done. }
  { rewrite Qsum_inject_Z. intros Hz. apply Hn.
    revert Hz. generalize (Zsum (batch_counts (r :: reports))). intros z Hz.
    unfold Qeq in Hz. simpl in Hz. lia. }
  eexists _, d. split; [reflexivity|].
  assert (Hg : dom gathered = {["num_batches"]} ∪ terms).
  { apply set_eq. intros k. rewrite elem_of_dom, Hlook, <- Hr.
    rewrite elem_of_union, elem_of_singleton, elem_of_dom.
    destruct (decide (k = "num_batches")) as [->|Hk].
    - rewrite lookup_num_batches. simpl. split; eauto.
    - rewrite lookup_term by done.
      destruct (r.1 !! k) as [s|] eqn:Hs; simpl.
      + split; eauto.
      + split; [by intros [? ?]|]. by intros [?|[? ?]]. }
  rewrite Hd, Hg. apply set_eq. intros k.
  rewrite elem_of_difference, elem_of_union, elem_of_singleton. split.
  - by intros [[?|?] ?].
  - intros Hk. split; [by right|]. by intros ->.
Qed.

Lemma evaluation_reports_the_terms_only_witness :
  ∃ n d, evaluate workers0 = Ret (n, d) ∧ dom d = ({["loss"; "loss_rgb"]} : gset string).
Proof.
  apply (evaluation_reports_the_terms_only workers0 {["loss"; "loss_rgb"]}).
  - repeat constructor; vm_compute; reflexivity.
  - apply (bool_decide_unpack _). vm_compute. exact I.
  - vm_compute. discriminate.
Defined.

End EvalKeys.

(** ** The training loop *)

Section LoopFacts.
Import Window Eval Ckpt Loop.
Context `{Torch}.
Variable accel : accelerator.
Variable cfg : config.
Variable find_latest_model_path : filesystem → string → option string.
Variable batch : Type.
Variable train_len val_len : Z.
Variable train_step : objects → batch → Z → objects * gmap string Q.
Variable validate : objects → Z → list (list (gmap string Q)).

Lemma divides_nonzero (a n : Z) : n ≠ 0 → divides a n = Ret (a mod n =? 0).
Proof. intros Hn. unfold divides. by destruct (Z.eqb_spec n 0). Qed.

Lemma log_block_spec (it : Z) (loss_dict : gmap string pyfloat) (w : world) :
  log_it cfg ≠ 0 →
  ∃ w', log_block accel cfg it loss_dict w = (Ret (), w')
    ∧ fs w' = fs w ∧ objs w' = objs w
    ∧ console w' = console w
        ++ (if (it mod log_it cfg =? 0) && is_local_main_process accel
            then [LogValues "train" it loss_dict] else []).
Proof.
  intros Hn. unfold log_block. rewrite IO_bind_eq, divides_nonzero by done.
  unfold lift at 1. cbv beta iota.
  destruct ((it mod log_it cfg =? 0) && is_local_main_process accel); simpl.
  - eexists. split; [reflexivity|]. done.
  - exists w. by rewrite app_nil_r.
Qed.

Lemma show_block_spec (it : Z) (loss_dict : gmap string pyfloat) total (w : world) :
  show_it cfg ≠ 0 →
  loss_dict !! "loss" = Some total →
  ∃ w', show_block accel cfg it loss_dict w = (Ret (), w')
    ∧ fs w' = fs w ∧ objs w' = objs w
    ∧ console w' = console w
        ++ (if (it mod show_it cfg =? 0) && is_local_main_process accel
            then [LogStats "running_stat" it; LogStats "learning_rate" it;
                  ProgressLine it total (delete "loss" loss_dict)]
            else []).
Proof.
  intros Hn Hloss. unfold show_block. rewrite IO_bind_eq, divides_nonzero by done.
  unfold lift at 1. cbv beta iota.
  destruct (it mod show_it cfg =? 0), (is_local_main_process accel) eqn:Hmain; simpl;
    try (exists w; by rewrite app_nil_r).
  unfold mbind, IO_bind, emit, lift, getitem, accel_print. simpl.
  rewrite Hloss, Hmain. eexists. split; [reflexivity|]. simpl.
  by rewrite <- !app_assoc.
Qed.

Lemma save_block_spec (it sample_count : Z) (epoch : Q) (w : world) :
  save_it cfg ≠ 0 →
  ∃ w', save_block accel cfg it sample_count epoch w = (Ret (), w')
    ∧ objs w' = objs w
    ∧ console w' = console w
        ++ (if (it mod save_it cfg =? 0) && is_local_main_process accel
            then [SavedCheckpoint it (ckpt_dir_of cfg it)] else [])
    ∧ ((it mod save_it cfg =? 0) && is_local_main_process accel = true →
       ∃ files, fs w' !! ckpt_dir_of cfg it = Some files
                ∧ is_Some (files !! "model.pth")).
Proof.
  intros Hn. unfold save_block. rewrite IO_bind_eq, divides_nonzero by done.
  unfold lift at 1. cbv beta iota.
  destruct (it mod save_it cfg =? 0), (is_local_main_process accel) eqn:Hmain; simpl;
    try (exists w; by rewrite app_nil_r).
  destruct (save_checkpoint_files accel cfg it sample_count epoch w Hmain)
    as (w1 & files & -> & Hdir & Hmodel & _ & _ & Hobjs & Hcons).
  exists w1. split_and!; [done..|]. intros _. exists files. rewrite Hmodel. eauto.
Qed.

Lemma evaluate_inv (workers : list (list (gmap string Q))) n d :
  evaluate workers = Ret (n, d) →
  ∃ gathered, gather (with_num_batches <$> (validate_worker <$> workers)) = Ret gathered
              ∧ average gathered = Ret (n, d).
Proof.
  unfold evaluate, aggregate.
  destruct (gather _) as [gathered|]; [|done]. intros Havg. by exists gathered.
Qed.

Lemma eval_block_spec (it : Z) n d total (w : world) :
  eval_it cfg ≠ 0 →
  evaluate (validate (objs w) it) = Ret (n, d) →
  d !! "loss" = Some total →
  ∃ w', eval_block accel cfg val_len validate it w = (Ret (), w')
    ∧ fs w' = fs w ∧ objs w' = objs w
    ∧ console w' = console w
        ++ (if (it mod eval_it cfg =? 0) && (0 <? val_len)
               && is_local_main_process accel
            then [LogValues "validation" it (Num <$> d);
                  ValidationLine n total (delete "loss" d)]
            else []).
Proof.
  intros Hn (gathered & Hgather & Havg)%evaluate_inv Hloss.
  unfold eval_block. rewrite IO_bind_eq, divides_nonzero by done.
  unfold lift at 1. cbv beta iota.
  destruct (it mod eval_it cfg =? 0), (0 <? val_len); simpl;
    try (exists w; by rewrite app_nil_r).
  unfold mbind, IO_bind, get_objs, lift. rewrite Hgather.
  destruct (is_local_main_process accel) eqn:Hmain; simpl.
  - rewrite Havg. unfold emit, getitem, accel_print. simpl.
    rewrite Hloss, Hmain. eexists. split; [reflexivity|]. simpl.
    by rewrite <- !app_assoc.
  - exists w. by rewrite app_nil_r.
Qed.

(** One pass through the body: it does not raise, it advances the two
    counters, and it writes what the four periodic conditions let through, in the order
    of the source. *)
Lemma iteration_spec (b : batch) (st : loop_state) (w : world) :
  config_ok cfg train_len →
  collaborators_ok batch train_step validate →
  ∃ st' w' loss_dict total n d vtotal,
    iteration accel cfg batch train_len val_len train_step validate b st w
    = (Ret st', w')
    ∧ it st' = it st + 1
    ∧ sample_count st' = sample_count st + batch_size cfg * num_processes accel
    ∧ console w' = console w
        ++ (if (it st mod log_it cfg =? 0) && is_local_main_process accel
            then [LogValues "train" (it st) loss_dict] else [])
        ++ (if (it st mod show_it cfg =? 0) && is_local_main_process accel
            then [LogStats "running_stat" (it st); LogStats "learning_rate" (it st);
                  ProgressLine (it st) total (delete "loss" loss_dict)]
            else [])
        ++ (if (it st mod save_it cfg =? 0) && is_local_main_process accel
            then [SavedCheckpoint (it st) (ckpt_dir_of cfg (it st))] else [])
        ++ (if (it st mod eval_it cfg =? 0) && (0 <? val_len)
               && is_local_main_process accel
            then [LogValues "validation" (it st) (Num <$> d);
                  ValidationLine n vtotal (delete "loss" d)]
            else [])
    ∧ ((it st mod save_it cfg =? 0) && is_local_main_process accel = true →
       ∃ files, fs w' !! ckpt_dir_of cfg (it st) = Some files
                ∧ is_Some (files !! "model.pth")).
Proof.
  intros (Hlog & Hshow & Hsave & Heval & Havg & Hlen) [Hloss Hval].
  unfold iteration. rewrite IO_bind_eq. unfold lift at 1, true_div.
  destruct (Z.eqb_spec train_len 0) as [|_]; [done|]. cbv beta iota.
  rewrite IO_bind_eq. unfold train at 1.
  specialize (Hloss (objs w) b (it st)).
  destruct (train_step (objs w) b (it st)) as [o ld0]. simpl in Hloss.
  destruct (update_running_average_total (avg_loss_it cfg) (avg_loss_dict st) ld0 Havg)
    as (avg' & rep & Hupd & Hrep).
  destruct (Hrep "loss" Hloss) as [total Htotal].
  rewrite IO_bind_eq, Hupd. unfold lift at 1. cbv beta iota.
  set (w1 := World (fs w) o (console w)).
  destruct (log_block_spec (it st) rep w1 Hlog) as (w2 & Hrun2 & Hfs2 & Hobjs2 & Hcons2).
  rewrite IO_bind_eq, Hrun2.
  destruct (show_block_spec (it st) rep total w2 Hshow Htotal)
    as (w3 & Hrun3 & Hfs3 & Hobjs3 & Hcons3).
  rewrite IO_bind_eq, Hrun3.
  destruct (save_block_spec (it st) (sample_count st)
              (inject_Z (sample_count st) / inject_Z train_len)%Q w3 Hsave)
    as (w4 & Hrun4 & Hobjs4 & Hcons4 & Hdir4).
  rewrite IO_bind_eq, Hrun4.
  destruct (Hval (objs w4) (it st)) as (n & d & Hev & [vtotal Hvtotal]).
  destruct (eval_block_spec (it st) n d vtotal w4 Heval Hev Hvtotal)
    as (w5 & Hrun5 & Hfs5 & Hobjs5 & Hcons5).
  rewrite IO_bind_eq, Hrun5.
  eexists _, w5, rep, total, n, d, vtotal. split; [reflexivity|]. simpl.
  split_and!; [done..| |].
  - rewrite Hcons5, Hcons4, Hcons3, Hcons2. simpl. by rewrite <- !app_assoc.
  - intros Hfire. rewrite Hfs5. by apply Hdir4.
Qed.



Lemma resume_fresh (w : world) (last : option string) :
  resolve_checkpoint accel cfg find_latest_model_path w = (Ret last, w) →
  nonempty last = None →
  resume accel cfg find_latest_model_path w = (Ret (0, 0), w).
Proof. intros Hres Hnone. unfold resume. by rewrite IO_bind_eq, Hres, Hnone. Qed.

(** C9. On a fresh start (no checkpoint resolved) the counter is 0, and
    with positive intervals the four periodic conditions hold at [it = 0]: on the local
    main process the first iteration logs the training losses, prints the
    progress line, saves the checkpoint in the directory [iter_0], and,
    when the validation set is not empty, evaluates. *)
Theorem first_iteration_fires_every_action (loader : nat → batch) (w : world)
    (last : option string) :
  0 < log_it cfg → 0 < show_it cfg → 0 < save_it cfg → 0 < eval_it cfg →
  0 ≤ avg_loss_it cfg → train_len ≠ 0 →
  collaborators_ok batch train_step validate →
  is_local_main_process accel = true →
  resolve_checkpoint accel cfg find_latest_model_path w = (Ret last, w) →
  nonempty last = None →
  (divides 0 (log_it cfg) = Ret true ∧ divides 0 (show_it cfg) = Ret true
   ∧ divides 0 (save_it cfg) = Ret true ∧ divides 0 (eval_it cfg) = Ret true)
  ∧ ∃ r w' loss_dict total n d vtotal files,
      training_loop accel cfg find_latest_model_path batch train_len val_len
        train_step validate 1 loader w = (Ret r, w')
      ∧ console w' = console w
          ++ [LogValues "train" 0 loss_dict;
              LogStats "running_stat" 0; LogStats "learning_rate" 0;
              ProgressLine 0 total (delete "loss" loss_dict);
              SavedCheckpoint 0 (ckpt_dir_of cfg 0)]
          ++ (if 0 <? val_len
              then [LogValues "validation" 0 (Num <$> d);
                    ValidationLine n vtotal (delete "loss" d)]
              else [])
      ∧ fs w' !! ckpt_dir_of cfg 0 = Some files
      ∧ is_Some (files !! "model.pth").
Proof.
  intros Hlog Hshow Hsave Heval Havg Hlen Hcol Hmain Hres Hnone. split.
  - rewrite !divides_nonzero by lia. done.
  - destruct (iteration_spec (loader 0%nat) (LoopState 0 0 ∅) w)
      as (st1 & w1 & ld & total & n & d & vtotal & Hrun & _ & _ & Hcons & Hdir);
      [by (repeat split; lia)|done|].
    simpl in Hcons, Hdir. rewrite Hmain in Hcons, Hdir.
    rewrite ?Zmod_0_l in Hcons, Hdir. simpl in Hcons, Hdir.
    rewrite ?andb_true_r in Hcons.
    destruct Hdir as (files & Hfiles & Hmodel); [done|].
    unfold training_loop. rewrite IO_bind_eq, (resume_fresh w last Hres Hnone).
    cbn [run]. rewrite IO_bind_eq, Hrun.
    destruct (iterations cfg <? it st1);
      (eexists _, w1, ld, total, n, d, vtotal, files;
       split; [reflexivity|]; split_and!; [|done..]);
      rewrite Hcons; reflexivity.
Qed.

End LoopFacts.

Section LoopRuns.
Import Ckpt Sample Loop.

Lemma sample_config_ok : config_ok cfg_fresh 2.
Proof. repeat split; simpl; lia. Qed.

Lemma sample_collaborators_ok :
  collaborators_ok () constant_step constant_validate.
Proof.
  split.
  - intros o b i. vm_compute. eauto.
  - intros o i. eexists _, _. split; [vm_compute; reflexivity|]. vm_compute. eauto.
Qed.


Lemma first_iteration_fires_every_action_witness :
  (divides 0 1 = Ret true ∧ divides 0 1 = Ret true
   ∧ divides 0 5 = Ret true ∧ divides 0 5 = Ret true)
  ∧ ∃ r w' loss_dict total n d vtotal files,
      training_loop main_process cfg_fresh no_latest () 2 4
        constant_step constant_validate 1 every_batch world_running = (Ret r, w')
      ∧ console w' = []
          ++ [LogValues "train" 0 loss_dict;
              LogStats "running_stat" 0; LogStats "learning_rate" 0;
              ProgressLine 0 total (delete "loss" loss_dict);
              SavedCheckpoint 0 "run/checkpoints/iter_0"]
          ++ [LogValues "validation" 0 (Num <$> d);
              ValidationLine n vtotal (delete "loss" d)]
      ∧ fs w' !! "run/checkpoints/iter_0" = Some files
      ∧ is_Some (files !! "model.pth").
Proof.
  apply (first_iteration_fires_every_action main_process cfg_fresh no_latest ()
           2 4 constant_step constant_validate every_batch world_running None).
  - simpl. lia.
  - simpl. lia.
  - simpl. lia.
  - simpl. lia.
  - simpl. lia.
  - lia.
  - exact sample_collaborators_ok.
  - reflexivity.
  - reflexivity.
  - reflexivity.
Defined.

End LoopRuns.

(** ** The loop: counters, checkpoints of a run, edges *)

Section LoopMoreFacts.
Import Window Eval Ckpt Loop.
Context `{Torch}.
Variable accel : accelerator.
Variable cfg : config.
Variable batch : Type.
Variable train_len val_len : Z.
Variable train_step : objects → batch → Z → objects * gmap string Q.
Variable validate : objects → Z → list (list (gmap string Q)).

(** One pass through the body, around the save of lines 342-363: the
    training step gives the objects, the save is the only step that writes
    to disk, and nothing after the training step changes the objects. *)
Lemma iteration_steps (b : batch) (st : loop_state) (w : world) :
  config_ok cfg train_len →
  collaborators_ok batch train_step validate →
  ∃ avg' w3 w4 w5,
    iteration accel cfg batch train_len val_len train_step validate b st w
    = (Ret (LoopState (it st + 1)
              (sample_count st + batch_size cfg * num_processes accel) avg'), w5)
    ∧ fs w3 = fs w
    ∧ objs w3 = (train_step (objs w) b (it st)).1
    ∧ (if (it st mod save_it cfg =? 0) && is_local_main_process accel
       then save_checkpoint accel cfg (it st) (sample_count st)
              (inject_Z (sample_count st) / inject_Z train_len)%Q w3 = (Ret (), w4)
       else w4 = w3)
    ∧ fs w5 = fs w4
    ∧ objs w5 = objs w3.
Proof.
  intros (Hlog & Hshow & Hsave & Heval & Havg & Hlen) [Hloss Hval].
  unfold Loop.iteration. rewrite IO_bind_eq. unfold lift at 1, true_div.
  destruct (Z.eqb_spec train_len 0) as [|_]; [done|]. cbv beta iota.
  rewrite IO_bind_eq. unfold train at 1.
  specialize (Hloss (objs w) b (it st)).
  destruct (train_step (objs w) b (it st)) as [o ld0]. simpl in Hloss.
  destruct (update_running_average_total (avg_loss_it cfg) (avg_loss_dict st) ld0 Havg)
    as (avg' & rep & Hupd & Hrep).
  destruct (Hrep "loss" Hloss) as [total Htotal].
  rewrite IO_bind_eq, Hupd. unfold lift at 1. cbv beta iota.
  set (w1 := World (fs w) o (console w)).
  destruct (log_block_spec accel cfg (it st) rep w1 Hlog)
    as (w2 & Hrun2 & Hfs2 & Hobjs2 & _).
  rewrite IO_bind_eq, Hrun2.
  destruct (show_block_spec accel cfg (it st) rep total w2 Hshow Htotal)
    as (w3 & Hrun3 & Hfs3 & Hobjs3 & _).
  rewrite IO_bind_eq, Hrun3.
  assert (Hsaved : ∃ w4,
            save_block accel cfg (it st) (sample_count st)
              (inject_Z (sample_count st) / inject_Z train_len)%Q w3 = (Ret (), w4)
            ∧ (if (it st mod save_it cfg =? 0) && is_local_main_process accel
               then save_checkpoint accel cfg (it st) (sample_count st)
                      (inject_Z (sample_count st) / inject_Z train_len)%Q w3
                    = (Ret (), w4)
               else w4 = w3)
            ∧ objs w4 = objs w3).
  { unfold save_block. rewrite IO_bind_eq, divides_nonzero by done.
    unfold lift at 1. cbv beta iota.
    destruct (it st mod save_it cfg =? 0), (is_local_main_process accel) eqn:Hmain;
      simpl; try (by exists w3).
    destruct (save_checkpoint_files accel cfg (it st) (sample_count st)
                (inject_Z (sample_count st) / inject_Z train_len)%Q w3 Hmain)
      as (w4 & files & Hrun4 & _ & _ & _ & _ & Hobjs4 & _).
    by exists w4. }
  destruct Hsaved as (w4 & Hrun4 & Hsave4 & Hobjs4).
  rewrite IO_bind_eq, Hrun4.
  destruct (Hval (objs w4) (it st)) as (n & d & Hev & [vtotal Hvtotal]).
  destruct (eval_block_spec accel cfg val_len validate (it st) n d vtotal w4
              Heval Hev Hvtotal)
    as (w5 & Hrun5 & Hfs5 & Hobjs5 & _).
  rewrite IO_bind_eq, Hrun5.
  exists avg', w3, w4, w5. split; [reflexivity|].
  split_and!; [by rewrite Hfs3, Hfs2|by rewrite Hobjs3, Hobjs2|done|done|].
  by rewrite Hobjs5, Hobjs4.
Qed.

(** An iteration other than [k] leaves the checkpoint directory of
    iteration [k] as it was. *)
Lemma iteration_keeps_checkpoint (b : batch) (st st' : loop_state) (w w' : world)
    (k : Z) :
  config_ok cfg train_len →
  collaborators_ok batch train_step validate →
  iteration accel cfg batch train_len val_len train_step validate b st w = (Ret st', w') →
  k ≠ it st →
  fs w' !! ckpt_dir_of cfg k = fs w !! ckpt_dir_of cfg k.
Proof.
  intros Hcfg Hcol Hrun Hk.
  destruct (iteration_steps b st w Hcfg Hcol)
    as (avg' & w3 & w4 & w5 & Hrun' & Hfs3 & _ & Hsave & Hfs5 & _).
  rewrite Hrun' in Hrun. injection Hrun as _ <-.
  rewrite Hfs5, <- Hfs3.
  destruct ((it st mod save_it cfg =? 0) && is_local_main_process accel);
    [|by rewrite Hsave].
  assert (Hd : ckpt_dir_of cfg k ≠ ckpt_dir_of cfg (it st)).
  { intros Heq. by apply ckpt_dir_of_inj in Heq. }
  apply (save_checkpoint_frame accel cfg _ _ _ _ Hd) in Hsave. by injection Hsave.
Qed.

(** The loop to its [break], with an invariant of the iterations. *)
Lemma run_invariant (P : loop_state → world → Prop) (loader : nat → batch) :
  config_ok cfg train_len →
  collaborators_ok batch train_step validate →
  (∀ b st w st' w',
      it st ≤ iterations cfg → P st w →
      iteration accel cfg batch train_len val_len train_step validate b st w = (Ret st', w') →
      P st' w') →
  ∀ (fuel i : nat) (st : loop_state) (w : world),
    it st ≤ iterations cfg →
    P st w →
    (Z.to_nat (iterations cfg - it st + 1) ≤ fuel)%nat →
    ∃ st' w',
      run accel cfg batch train_len val_len train_step validate fuel loader i st w
      = (Ret (Some (st', (i + Z.to_nat (iterations cfg - it st + 1))%nat)), w')
      ∧ P st' w'
      ∧ it st' = iterations cfg + 1.
Proof.
  intros Hcfg Hcol Hstep. induction fuel as [|fuel IH]; intros i st w Hle HP Hfuel.
  - lia.
  - destruct (iteration_steps (loader i) st w Hcfg Hcol)
      as (avg' & ? & ? & w1 & Hrun & _).
    pose proof (Hstep _ _ _ _ _ Hle HP Hrun) as HP1.
    cbn [Loop.run]. rewrite IO_bind_eq, Hrun. cbn [it].
    destruct (Z.ltb_spec (iterations cfg) (it st + 1)) as [Hbreak|Hgo].
    + replace (Z.to_nat (iterations cfg - it st + 1)) with 1%nat by lia.
      replace (i + 1)%nat with (S i) by lia.
      eexists _, w1. split; [reflexivity|]. split; [done|]. simpl. lia.
    + set (st1 := LoopState _ _ _) in *.
      destruct (IH (S i) st1 w1) as (st' & w' & Hrun' & HP' & Hit'); [done|done|simpl; lia|].
      exists st', w'. split; [|done]. rewrite Hrun'. simpl.
      do 4 f_equal. lia.
Qed.


(** On the local main process, an iteration whose counter is a multiple of
    [save_it] leaves in [iter_{it}] a [model.pth] that records the two
    counters as they were when the iteration began (lines 413-414 come
    after the save), with the model as the training step of this
    iteration left it. *)
Theorem saved_checkpoint_holds_counters_of_its_iteration (b : batch)
    (st : loop_state) (w : world) :
  is_local_main_process accel = true →
  config_ok cfg train_len →
  collaborators_ok batch train_step validate →
  it st mod save_it cfg = 0 →
  ∃ st' w' files,
    iteration accel cfg batch train_len val_len train_step validate b st w = (Ret st', w')
    ∧ it st' = it st + 1
    ∧ fs w' !! ckpt_dir_of cfg (it st) = Some files
    ∧ files !! "model.pth"
      = Some (Pickle
                (VDict (<["it" := VInt (it st)]>
                          (<["sample_count" := VInt (sample_count st)]>
                             (<["epoch" := VFloat (inject_Z (sample_count st)
                                                   / inject_Z train_len)%Q]>
                                (<["model" := module_state_dict
                                     (model (train_step (objs w) b (it st)).1)]> ∅)))))).
Proof.
  intros Hmain Hcfg Hcol Hfire.
  destruct (iteration_steps b st w Hcfg Hcol)
    as (avg' & w3 & w4 & w5 & Hrun & _ & Hobjs3 & Hsave & Hfs5 & _).
  rewrite Hfire, Hmain in Hsave. simpl in Hsave.
  destruct (save_checkpoint_files accel cfg (it st) (sample_count st)
              (inject_Z (sample_count st) / inject_Z train_len)%Q w3 Hmain)
    as (w4' & files & Hsave' & Hdir & Hmodel & _).
  rewrite Hsave in Hsave'. injection Hsave' as <-.
  eexists _, w5, files. split; [exact Hrun|]. split; [done|].
  split; [by rewrite Hfs5|]. by rewrite Hmodel, Hobjs3.
Qed.

(** On the local main process, when the loop ends by its [break], every
    multiple [k] of [save_it] between the starting counter and
    [iterations] has its checkpoint on disk: [iter_{k}/model.pth] records
    [it = k] and the sample count of iteration [k]. Later iterations do
    not touch it. *)
Theorem run_leaves_every_due_checkpoint (loader : nat → batch) (fuel : nat)
    (st : loop_state) (w : world) :
  is_local_main_process accel = true →
  config_ok cfg train_len →
  collaborators_ok batch train_step validate →
  it st ≤ iterations cfg →
  let n := Z.to_nat (iterations cfg - it st + 1) in
  (n ≤ fuel)%nat →
  ∃ st' w',
    run accel cfg batch train_len val_len train_step validate fuel loader 0 st w
    = (Ret (Some (st', n)), w')
    ∧ ∀ k, it st ≤ k ≤ iterations cfg → k mod save_it cfg = 0 →
        ∃ files (v : gmap string (pyval state)),
          fs w' !! ckpt_dir_of cfg k = Some files
          ∧ files !! "model.pth" = Some (Pickle (VDict v))
          ∧ v !! "it" = Some (VInt k)
          ∧ v !! "sample_count"
            = Some (VInt (sample_count st
                          + (k - it st) * (batch_size cfg * num_processes accel))).
Proof.
  intros Hmain Hcfg Hcol Hle n Hfuel.
  set (c := batch_size cfg * num_processes accel).
  destruct (run_invariant
              (λ st1 w1,
                 sample_count st1 = sample_count st + (it st1 - it st) * c
                 ∧ it st ≤ it st1
                 ∧ ∀ k, it st ≤ k < it st1 → k mod save_it cfg = 0 →
                     ∃ files (v : gmap string (pyval state)),
                       fs w1 !! ckpt_dir_of cfg k = Some files
                       ∧ files !! "model.pth" = Some (Pickle (VDict v))
                       ∧ v !! "it" = Some (VInt k)
                       ∧ v !! "sample_count"
                         = Some (VInt (sample_count st + (k - it st) * c)))
              loader Hcfg Hcol) with (fuel := fuel) (i := 0%nat) (st := st) (w := w)
    as (st' & w' & Hrun & (_ & _ & Hall) & Hit); [|done| |done|].
  - intros b st0 w0 st1 w1 _ (Hsc & Hfrom & Hsaved) Hrun.
    pose proof (iteration_keeps_checkpoint b st0 st1 w0 w1) as Hkeep.
    destruct (iteration_steps b st0 w0 Hcfg Hcol)
      as (avg' & w3 & w4 & w5 & Hrun' & _ & _ & Hsave & Hfs5 & _).
    rewrite Hrun' in Hrun. injection Hrun as <- <-. simpl.
    split; [subst c; lia|]. split; [lia|].
    intros k Hk Hdue.
    destruct (decide (k = it st0)) as [->|Hne].
    + rewrite Hdue, Hmain in Hsave. simpl in Hsave.
      destruct (save_checkpoint_files accel cfg (it st0) (sample_count st0)
                  (inject_Z (sample_count st0) / inject_Z train_len)%Q w3 Hmain)
        as (w4' & files & Hsave' & Hdir & Hmodel & _).
      rewrite Hsave in Hsave'. injection Hsave' as <-.
      eexists files, _. rewrite Hfs5. split; [done|]. split; [exact Hmodel|].
      split; [by simplify_map_eq|]. rewrite Hsc. by simplify_map_eq.
    + rewrite (Hkeep k Hcfg Hcol Hrun' Hne). apply Hsaved; [lia|done].
  - split; [lia|]. split; [lia|]. intros k Hk. lia.
  - exists st', w'. split; [done|]. intros k Hk Hdue. apply Hall; [lia|done].
Qed.

(** A process other than the local main one saves no checkpoint and
    prints and logs nothing in an iteration, however the iteration ends:
    the checkpoints on disk and the output are as before. (What the
    validation pass of lines 374-384 does on its own is the collaborator
    [validate], outside this statement.) *)
Theorem worker_process_leaves_no_trace (b : batch) (st : loop_state)
    (w w' : world) (r : result loop_state) :
  is_local_main_process accel = false →
  iteration accel cfg batch train_len val_len train_step validate b st w = (r, w') →
  fs w' = fs w ∧ console w' = console w.
Proof.
  intros Hmain Hrun.
  assert (Hpres : preserves (λ w, (fs w, console w))
                    (iteration accel cfg batch train_len val_len train_step validate b st)).
  { unfold Loop.iteration, log_block, show_block, save_block, eval_block.
    rewrite Hmain.
    repeat first
      [ apply preserves_bind; [|intros ?]
      | apply preserves_lift | apply preserves_ret
      | match goal with
        | |- preserves _ (let '(_, _) := ?p in _) => destruct p
        | |- preserves _ (when (?c && false) _) =>
            rewrite (andb_false_r c); apply preserves_ret
        | |- preserves _ (when false _) => apply preserves_ret
        | |- preserves _ (when _ _) => apply preserves_when
        end ].
    - intros w0 r0 w0'. unfold train.
      destruct (train_step _ _ _). by intros [= <- <-].
    - by intros w0 r0 w0' [= <- <-]. }
  apply Hpres in Hrun. by injection Hrun.
Qed.

(** A logging, progress, save or evaluation interval of zero makes the
    first iteration raise [ZeroDivisionError], on every process and also
    with an empty validation set; the training step of that iteration has
    been taken by then. *)
Theorem zero_interval_raises (b : batch) (st : loop_state) (w : world) :
  train_len ≠ 0 →
  0 ≤ avg_loss_it cfg →
  collaborators_ok batch train_step validate →
  log_it cfg = 0 ∨ show_it cfg = 0 ∨ save_it cfg = 0 ∨ eval_it cfg = 0 →
  ∃ w', iteration accel cfg batch train_len val_len train_step validate b st w
        = (Raise ZeroDivisionError, w')
    ∧ objs w' = (train_step (objs w) b (it st)).1.
Proof.
  intros Hlen Havg [Hloss Hval] Hzero.
  unfold Loop.iteration. rewrite IO_bind_eq. unfold lift at 1, true_div.
  destruct (Z.eqb_spec train_len 0) as [|_]; [done|]. cbv beta iota.
  rewrite IO_bind_eq. unfold train at 1.
  specialize (Hloss (objs w) b (it st)).
  destruct (train_step (objs w) b (it st)) as [o ld0]. simpl in Hloss.
  destruct (update_running_average_total (avg_loss_it cfg) (avg_loss_dict st) ld0 Havg)
    as (avg' & rep & Hupd & Hrep).
  destruct (Hrep "loss" Hloss) as [total Htotal].
  rewrite IO_bind_eq, Hupd. unfold lift at 1. cbv beta iota.
  set (w1 := World (fs w) o (console w)).
  assert (Hraise : ∀ A (m : bool → IO A) a w0,
            (lift (divides a 0) ≫= m) w0 = (Raise ZeroDivisionError, w0)).
  { intros A m a w0. by rewrite IO_bind_eq. }
  rewrite IO_bind_eq.
  destruct (Z.eq_dec (log_it cfg) 0) as [Hlog|Hlog].
  { unfold log_block. rewrite Hlog, Hraise. by exists w1. }
  destruct (log_block_spec accel cfg (it st) rep w1 Hlog)
    as (w2 & -> & _ & Hobjs2 & _).
  rewrite IO_bind_eq.
  destruct (Z.eq_dec (show_it cfg) 0) as [Hshow|Hshow].
  { unfold show_block. rewrite Hshow, Hraise. by exists w2. }
  destruct (show_block_spec accel cfg (it st) rep total w2 Hshow Htotal)
    as (w3 & -> & _ & Hobjs3 & _).
  rewrite IO_bind_eq.
  destruct (Z.eq_dec (save_it cfg) 0) as [Hsave|Hsave].
  { unfold save_block. rewrite Hsave, Hraise. exists w3.
    split; [done|]. by rewrite Hobjs3, Hobjs2. }
  destruct (save_block_spec accel cfg (it st) (sample_count st)
              (inject_Z (sample_count st) / inject_Z train_len)%Q w3 Hsave)
    as (w4 & -> & Hobjs4 & _).
  rewrite IO_bind_eq.
  assert (Heval : eval_it cfg = 0) by (destruct Hzero as [?|[?|[?|?]]]; done).
  unfold eval_block. rewrite Heval, Hraise. exists w4.
  split; [done|]. by rewrite Hobjs4, Hobjs3, Hobjs2.
Qed.

End LoopMoreFacts.

Section LoopMoreRuns.
Import Ckpt Sample SampleMore Loop LoopMore.


Lemma saved_checkpoint_holds_counters_of_its_iteration_witness :
  ∃ st' w' files,
    iteration main_process cfg_fresh () 2 4 constant_step constant_validate
      () (LoopState 5 10 ∅) world_running = (Ret st', w')
    ∧ it st' = 6
    ∧ fs w' !! "run/checkpoints/iter_5" = Some files
    ∧ files !! "model.pth"
      = Some (Pickle (VDict (<["it" := VInt 5]>
                               (<["sample_count" := VInt 10]>
                                  (<["epoch" := VFloat (inject_Z 10 / inject_Z 2)%Q]>
                                     (<["model" := VState 7]> ∅)))))).
Proof.
  apply (saved_checkpoint_holds_counters_of_its_iteration main_process cfg_fresh
           () 2 4 constant_step constant_validate () (LoopState 5 10 ∅)
           world_running eq_refl sample_config_ok sample_collaborators_ok eq_refl).
Defined.

Lemma run_leaves_every_due_checkpoint_witness :
  ∃ st' w',
    run main_process cfg_fresh () 2 4 constant_step constant_validate
      11 every_batch 0 (LoopState 0 0 ∅) world_running
    = (Ret (Some (st', 11%nat)), w')
    ∧ ∀ k, 0 ≤ k ≤ 10 → k mod 5 = 0 →
        ∃ files (v : gmap string (pyval Z)),
          fs w' !! ckpt_dir_of cfg_fresh k = Some files
          ∧ files !! "model.pth" = Some (Pickle (VDict v))
          ∧ v !! "it" = Some (VInt k)
          ∧ v !! "sample_count" = Some (VInt (0 + (k - 0) * (2 * 1))).
Proof.
  apply (run_leaves_every_due_checkpoint main_process cfg_fresh () 2 4
           constant_step constant_validate every_batch 11 (LoopState 0 0 ∅)
           world_running eq_refl sample_config_ok sample_collaborators_ok);
    simpl; lia.
Defined.

Lemma worker_process_leaves_no_trace_witness :
  ∃ r w',
    iteration worker_process cfg_fresh () 2 4 constant_step constant_validate
      () (LoopState 0 0 ∅) world_running = (r, w')
    ∧ fs w' = fs world_running ∧ console w' = console world_running.
Proof.
  eexists _, _. split; [vm_compute; reflexivity|].
  eapply (worker_process_leaves_no_trace worker_process cfg_fresh () 2 4
            constant_step constant_validate () (LoopState 0 0 ∅) world_running);
    [reflexivity|].
  vm_compute. reflexivity.
Defined.

Lemma zero_interval_raises_witness :
  ∃ w',
    iteration main_process cfg_zero_log () 2 4 constant_step constant_validate
      () (LoopState 0 0 ∅) world_running = (Raise ZeroDivisionError, w')
    ∧ objs w' = (constant_step (objs world_running) () 0).1.
Proof.
  apply (zero_interval_raises main_process cfg_zero_log () 2 4 constant_step
           constant_validate () (LoopState 0 0 ∅) world_running).
  - lia.
  - simpl. lia.
  - exact sample_collaborators_ok.
  - by left.
Defined.

End LoopMoreRuns.

